(** * Header store and verifier of electrum/blockchain.py

    A shallow embedding of the target arithmetic, the on-disk layout, the
    header codec, the per-chain store, the verifier and the retarget engine
    of [electrum/blockchain.py], followed by the properties established
    about them.  Python integers are [Z], [str] values are lists of
    characters, [bytes] values are lists of [Byte.byte], and a raised
    exception is the left injection of [result]. *)

From Stdlib Require Import ZArith Lia Ascii String.
From Stdlib.Strings Require Import Byte.
From stdpp Require Import base list gmap strings sorting.

Open Scope Z_scope.

(** ** Exceptions and results *)

(** The exceptions the module raises itself or receives from the built-ins
    it calls.  All of them derive from Python's [Exception]. *)
Inductive exn : Type :=
| Exception (msg : string)     (* raise Exception("...") *)
| MissingHeader (height : Z)   (* class MissingHeader(Exception) *)
| TypeError
| ValueError
| KeyError
| IndexError
| AssertionError
| AttributeError
| NameError
| OverflowError
| ZeroDivisionError
| OSError.

Definition result (A : Type) : Type := exn + A.

Definition OK {A} (a : A) : result A := inr a.
Definition Raise {A} (e : exn) : result A := inl e.

Definition bind {A B} (r : result A) (k : A -> result B) : result B :=
  match r with
  | inl e => inl e
  | inr a => k a
  end.

Notation "'let!' x ':=' e 'in' k" := (bind e (fun x => k))
  (at level 10, x pattern, e at level 100, k at level 200).

Definition raises {A} (r : result A) : Prop :=
  match r with inl _ => True | inr _ => False end.

(** [except Exception] catches every member of [exn]: each constructor
    stands for a subclass of [Exception]. *)
Definition is_Exception (e : exn) : bool :=
  match e with
  | Exception _ | MissingHeader _ | TypeError | ValueError | KeyError
  | IndexError | AssertionError | AttributeError | NameError | OverflowError
  | ZeroDivisionError | OSError => true
  end.

(** ** Strings, bytes and the hex codecs *)

Definition pystr : Type := list ascii.
Definition bytes : Type := list byte.

Definition str (s : string) : pystr := list_ascii_of_string s.

Definition pystr_eqb (a b : pystr) : bool := bool_decide (a = b).

Global Instance byte_eq_decision : EqDecision byte :=
  fun x y =>
    match Byte.eqb x y as b return Byte.eqb x y = b -> Decision (x = y) with
    | true => fun H => left (byte_dec_bl x y H)
    | false => fun H => right (eqb_false H)
    end eq_refl.

(** Python slicing [s[a:b]] and [s[a:]] for [0 <= a <= b]. *)
Definition slice {A} (a b : Z) (s : list A) : list A :=
  take (Z.to_nat (b - a)) (drop (Z.to_nat a) s).
Definition slice_from {A} (a : Z) (s : list A) : list A :=
  drop (Z.to_nat a) s.

Definition len {A} (s : list A) : Z := Z.of_nat (length s).

Definition hex_char (d : Z) : ascii :=
  match d with
  | 0 => "0" | 1 => "1" | 2 => "2" | 3 => "3" | 4 => "4" | 5 => "5"
  | 6 => "6" | 7 => "7" | 8 => "8" | 9 => "9" | 10 => "a" | 11 => "b"
  | 12 => "c" | 13 => "d" | 14 => "e" | 15 => "f" | _ => "?"
  end%char.

(** The value of a hexadecimal digit, in either case, as accepted by
    [int(s, 16)] and [bytes.fromhex]. *)
Definition hex_val (c : ascii) : option Z :=
  let n := Z.of_nat (nat_of_ascii c) in
  if (48 <=? n) && (n <=? 57) then Some (n - 48)
  else if (97 <=? n) && (n <=? 102) then Some (n - 87)
  else if (65 <=? n) && (n <=? 70) then Some (n - 55)
  else None.

Definition byte_val (b : byte) : Z := Z.of_N (Byte.to_N b).

Definition byte_of_Z (z : Z) : byte :=
  match Byte.of_N (Z.to_N z) with
  | Some b => b
  | None => x00
  end.

(** [bh2u]: [bytes.hex()], two lower-case digits per byte. *)
Definition bh2u (bs : bytes) : pystr :=
  flat_map (fun b => [hex_char (byte_val b / 16); hex_char (byte_val b mod 16)]) bs.

Definition is_space (c : ascii) : bool :=
  let n := Z.of_nat (nat_of_ascii c) in
  (n =? 32) || ((9 <=? n) && (n <=? 13)).

(** [bfh]: [bytes.fromhex].  White space is skipped between bytes; any other
    character that is not a hex digit, and a byte cut in half, raise
    [ValueError]. *)
Fixpoint bfh (s : pystr) : result bytes :=
  match s with
  | [] => OK []
  | c :: s1 =>
      if is_space c then bfh s1
      else
        match hex_val c, s1 with
        | Some hi, d :: s2 =>
            match hex_val d with
            | Some lo => let! bs := bfh s2 in OK (byte_of_Z (16 * hi + lo) :: bs)
            | None => Raise ValueError
            end
        | _, _ => Raise ValueError
        end
  end.

(** [int.from_bytes(bs, byteorder='big')]. *)
Definition int_from_bytes_big (bs : bytes) : Z :=
  fold_left (fun acc b => acc * 256 + byte_val b) bs 0.

(** [int('0x' + s, 16)]: the digits of [s] in base 16; [ValueError] when
    [s] is empty or holds another character. *)
Fixpoint hex_digits_value (acc : Z) (s : pystr) : result Z :=
  match s with
  | [] => OK acc
  | c :: s' =>
      match hex_val c with
      | Some d => hex_digits_value (acc * 16 + d) s'
      | None => Raise ValueError
      end
  end.

Definition int_of_0x (s : pystr) : result Z :=
  match s with
  | [] => Raise ValueError
  | _ => hex_digits_value 0 s
  end.

(** ['%x' % n] for [0 <= n]: the hexadecimal digits of [n], most
    significant first, ["0"] for zero.  [fuel] bounds the number of
    digits. *)
Fixpoint hex_digits (fuel : nat) (n : Z) (acc : pystr) : pystr :=
  match fuel with
  | O => acc
  | S f =>
      if n <? 16 then hex_char n :: acc
      else hex_digits f (n / 16) (hex_char (n mod 16) :: acc)
  end.

Definition format_x (n : Z) : pystr :=
  hex_digits (S (Z.to_nat (Z.log2 n))) n [].

Definition zfill (width : nat) (s : pystr) : pystr :=
  replicate (width - length s) "0"%char ++ s.

(** ['%064x' % n]: at least 64 characters, zero-padded after the sign. *)
Definition format_064x (n : Z) : pystr :=
  if n <? 0 then "-"%char :: zfill 63 (format_x (- n))
  else zfill 64 (format_x n).

(** The hex helpers of [electrum/bitcoin.py]. *)

(** Modelled from the spec: [hash_encode] of [electrum/bitcoin.py], which is
    not part of the sources at hand; a hash is presented as the hex of its
    bytes in reverse (display) order. *)
Definition hash_encode (x : bytes) : pystr := bh2u (reverse x).

(** Modelled from the spec: [rev_hex] of [electrum/bitcoin.py], the hex
    string of the same bytes in reverse order. *)
Definition rev_hex (s : pystr) : result pystr :=
  let! bs := bfh s in OK (bh2u (reverse bs)).

(** Modelled from the spec: [int_to_hex] of [electrum/bitcoin.py], a scalar
    as [nbytes] little-endian bytes in hex; a value that does not fit in
    [nbytes] bytes raises [OverflowError], a negative one is taken in two's
    complement. *)
Definition int_to_hex (i : Z) (nbytes : Z) : result pystr :=
  let range_size := 256 ^ nbytes in
  if (i <? - (range_size / 2)) || (range_size <=? i) then Raise OverflowError
  else
    let i := if i <? 0 then range_size + i else i in
    let s := format_x i in
    rev_hex (replicate (Z.to_nat (2 * nbytes) - length s) "0"%char ++ s).

(** ** Constants of the module *)

Definition CHUNK_LEN : Z := 200.
Definition HEADER_SIZE : Z := 1487.

Definition MAX_TARGET : Z :=
  0x0007FFFFFFFFFFFFFFFFFFFFFFFFFFFFFFFFFFFFFFFFFFFFFFFFFFFFFFFFFFFF.
Definition MIN_TARGET : Z :=
  0x0007ffff00000000000000000000000000000000000000000000000000000000.
Definition POW_AVERAGING_WINDOW : Z := 17.
Definition POW_MEDIAN_BLOCK_SPAN : Z := 11.
Definition POW_MAX_ADJUST_DOWN : Z := 32.
Definition POW_MAX_ADJUST_UP : Z := 16.
Definition POW_DAMPING_FACTOR : Z := 4.
Definition POW_TARGET_SPACING : Z := 60.
Definition EH_EPOCH_1_END : Z := 266000.
Definition LWMA_FORK_BLOCK : Z := 765000.
Definition ZAWY_LWMA3_AVERAGING_WINDOW : Z := 60.

Definition TARGET_CALC_BLOCKS : Z := POW_AVERAGING_WINDOW + POW_MEDIAN_BLOCK_SPAN.

Definition AVERAGING_WINDOW_TIMESPAN : Z := POW_AVERAGING_WINDOW * POW_TARGET_SPACING.

Definition MIN_ACTUAL_TIMESPAN : Z :=
  AVERAGING_WINDOW_TIMESPAN * (100 - POW_MAX_ADJUST_UP) / 100.

Definition MAX_ACTUAL_TIMESPAN : Z :=
  AVERAGING_WINDOW_TIMESPAN * (100 + POW_MAX_ADJUST_DOWN) / 100.

(** ** Target math: [bits_to_target] and [target_to_bits] *)

Definition bits_to_target (bits : Z) : result Z :=
  let bitsN := Z.land (Z.shiftr bits 24) 0xff in
  if negb ((0x03 <=? bitsN) && (bitsN <=? 0x1f)) then
    Raise (Exception "First part of bits should be in [0x03, 0x1f]")
  else
    let bitsBase := Z.land bits 0xffffff in
    if negb ((0x8000 <=? bitsBase) && (bitsBase <=? 0x7fffff)) then
      Raise (Exception "Second part of bits should be in [0x8000, 0x7fffff]")
    else OK (Z.shiftl bitsBase (8 * (bitsN - 3))).

(** [while c[:2] == '00' and len(c) > 6: c = c[2:]]; every turn shortens
    [c], so [length c] turns are enough. *)
Fixpoint strip_zero_bytes (fuel : nat) (c : pystr) : pystr :=
  match fuel with
  | O => c
  | S f =>
      if pystr_eqb (slice 0 2 c) (str "00") && (6 <? len c)
      then strip_zero_bytes f (slice_from 2 c)
      else c
  end.

Definition target_to_bits (target : Z) : result Z :=
  let c := slice_from 2 (format_064x target) in
  let c := strip_zero_bytes (length c) c in
  let bitsN := len c / 2 in
  let! b := bfh (slice 0 6 c) in
  let bitsBase := int_from_bytes_big b in
  let '(bitsN, bitsBase) :=
    if 0x800000 <=? bitsBase then (bitsN + 1, Z.shiftr bitsBase 8)
    else (bitsN, bitsBase) in
  OK (Z.lor (Z.shiftl bitsN 24) bitsBase).

(** The [k] low hexadecimal digits of [n], most significant first: the
    fixed-width rendering against which ['%064x'] is characterised. *)
Fixpoint fixed_hex (k : nat) (n : Z) : pystr :=
  match k with
  | O => []
  | S k' => fixed_hex k' (n / 16) ++ [hex_char (n mod 16)]
  end.

(** A compact value is canonical when it is a 32-bit word whose exponent
    byte and mantissa lie in the ranges [bits_to_target] accepts. *)
Definition canonical_bits (b : Z) : Prop :=
  0 <= b < 2 ^ 32 /\
  0x03 <= Z.land (Z.shiftr b 24) 0xff <= 0x1f /\
  0x8000 <= Z.land b 0xffffff <= 0x7fffff.

(** ** Network constants *)

(** An entry of [constants.net.CHECKPOINTS]: the hash of the last block of
    a chunk and the target after it; some entries carry a third component
    (extra headers), which [get_hash] unpacks but never reads. *)
Record checkpoint : Type := mkCheckpoint {
  cp_hash : pystr;
  cp_target : Z;
  cp_has_extra : bool
}.

(** What the module reads from [constants.net] and the two header lengths it
    imports from [electrum/bitcoin.py]; none of them is defined in
    [blockchain.py], so they are parameters of the development. *)
Record NetParams : Type := mkNet {
  GENESIS : pystr;
  CHECKPOINTS : list checkpoint;
  max_checkpoint : Z;
  EQUIHASH_FORK_HEIGHT : Z;
  TESTNET : bool;
  HDR_LEN : Z;
  HDR_LEN_FORK : Z
}.

(** ** Headers *)

(** The header dict.  [prev_block_hash] may be absent ([None]):
    [hash_header] fills it in. *)
Record header : Type := mkHeader {
  version : Z;
  prev_block_hash : option pystr;
  merkle_root : pystr;
  reserved_hash : pystr;
  timestamp : Z;
  bits : Z;
  nonce : pystr;
  sol_size : pystr;
  solution : pystr;
  block_height : Z
}.

Global Instance header_eq_dec : EqDecision header.
Proof. solve_decision. Defined.

(** [header['prev_block_hash'] = v]. *)
Definition set_prev_block_hash (h : header) (v : pystr) : header :=
  mkHeader (version h) (Some v) (merkle_root h) (reserved_hash h) (timestamp h)
           (bits h) (nonce h) (sol_size h) (solution h) (block_height h).

(** The in-flight context of [verify_chunk]: the dict [chunk_headers] with
    its keys ['empty'], ['min_height'], ['max_height'] and one entry per
    height already verified.  The two bounds are read only when ['empty']
    is false. *)
Record chunk_ctx : Type := mkCtx {
  empty : bool;
  min_height : Z;
  max_height : Z;
  headers : gmap Z header
}.

(** The headers file of a chain as the module sees it: absent, present with
    some content, or present but failing to open. *)
Inductive file_state : Type :=
| NoFile
| File (data : bytes)
| Unreadable.

(** A [Blockchain] instance together with the state of its file. *)
#[warnings="-register-all"]
Inductive Blockchain : Type := mkBlockchain {
  forkpoint : Z;
  parent : option Blockchain;
  _forkpoint_hash : pystr;
  _prev_hash : option pystr;
  _size : Z;
  headers_file : file_state;
  headers_dir_exists : bool
}.

(** ** Python numbers *)

(** A finite binary64 value [fl_m * 2 ^ fl_e]. *)
Record pyfloat : Type := mkFloat { fl_m : Z; fl_e : Z }.

Inductive num : Type :=
| PyInt (z : Z)
| PyFloat (f : pyfloat).

(** Nearest integer to [n / d] for [0 < d], ties to even. *)
Definition round_half_even (n d : Z) : Z :=
  let q := n / d in
  let r := n mod d in
  if 2 * r <? d then q
  else if d <? 2 * r then q + 1
  else if Z.even q then q else q + 1.

(** [a / b] on two [int]s: the binary64 value nearest to the exact
    quotient (ties to even, gradual underflow); [ZeroDivisionError] for
    [b = 0] and [OverflowError] when the quotient is too large. *)
Definition true_div (a b : Z) : result pyfloat :=
  if b =? 0 then Raise ZeroDivisionError
  else if a =? 0 then OK (mkFloat 0 0)
  else
    let n := Z.abs a in
    let d := Z.abs b in
    let e0 := Z.log2 n - Z.log2 d in
    let reaches := if 0 <=? e0 then d * 2 ^ e0 <=? n else d <=? n * 2 ^ (- e0) in
    let e := if reaches then e0 else e0 - 1 in
    let s := Z.max (e - 52) (-1074) in
    let m := if 0 <=? s then round_half_even n (d * 2 ^ s)
             else round_half_even (n * 2 ^ (- s)) d in
    if (971 <=? s) && (2 ^ 1024 <=? m * 2 ^ s) then Raise OverflowError
    else OK (mkFloat (Z.sgn a * Z.sgn b * m) s).

(** [int(f)]: truncation toward zero. *)
Definition int_of_float (f : pyfloat) : Z :=
  if 0 <=? fl_e f then fl_m f * 2 ^ fl_e f
  else Z.quot (fl_m f) (2 ^ (- fl_e f)).

Definition as_float (x : num) : pyfloat :=
  match x with
  | PyInt z => mkFloat z 0
  | PyFloat f => f
  end.

(** [x > y] between ints and floats: Python compares the exact values. *)
Definition num_gtb (x y : num) : bool :=
  let fx := as_float x in
  let fy := as_float y in
  let e := Z.min (fl_e fx) (fl_e fy) in
  fl_m fy * 2 ^ (fl_e fy - e) <? fl_m fx * 2 ^ (fl_e fx - e).

(** ** Loops *)

(** [for x in xs: acc = body(acc, x)], stopping at the first exception. *)
Fixpoint for_each {A S} (xs : list A) (body : S -> A -> result S) (acc : S) : result S :=
  match xs with
  | [] => OK acc
  | x :: xs' => let! acc' := body acc x in for_each xs' body acc'
  end.

(** [range(a, b)]. *)
Definition range (a b : Z) : list Z := seqZ a (b - a).

(** [l[i]] on a Python list, negative indices counting from the end. *)
Definition py_index {A} (l : list A) (i : Z) : result A :=
  let i' := if i <? 0 then i + len l else i in
  if (i' <? 0) || (len l <=? i') then Raise IndexError
  else match l !! Z.to_nat i' with
       | Some x => OK x
       | None => Raise IndexError
       end.

(** [l.sort()] on a list of ints. *)
Definition py_sorted (l : list Z) : list Z := merge_sort Z.le l.

(** The double SHA-256 of [electrum/crypto.py], consumed as a pure function
    that returns a 32-byte digest. *)
Class Sha256d : Type := {
  sha256d : bytes -> bytes;
  sha256d_length : forall x, length (sha256d x) = 32%nat
}.

Existing Class NetParams.

Section Definitions.

Context {net : NetParams} {digest : Sha256d}.

(** ** Header sizes and file offsets *)

(** Modelled from the spec: [is_post_equihash_fork] of [electrum/bitcoin.py];
    the switch of header format is driven solely by
    [height >= EQUIHASH_FORK_HEIGHT]. *)
Definition is_post_equihash_fork (height : Z) : bool :=
  EQUIHASH_FORK_HEIGHT net <=? height.

(** Modelled from the spec: [get_header_size] of [electrum/bitcoin.py], the
    on-disk size of a header, [HDR_LEN] before the Equihash fork and
    [HDR_LEN_FORK] from it on. *)
Definition get_header_size (height : Z) : Z :=
  if is_post_equihash_fork height then HDR_LEN_FORK net else HDR_LEN net.

Definition get_offset (checkpoint height : Z) : Z :=
  (* Pre-Fork *)
  let prb :=
    if negb (is_post_equihash_fork height) then height - checkpoint
    else EQUIHASH_FORK_HEIGHT net in
  (* Equihash Fork *)
  let peb :=
    if is_post_equihash_fork height
    then height - Z.max checkpoint (EQUIHASH_FORK_HEIGHT net)
    else 0 in
  prb * HDR_LEN net + peb * get_header_size (EQUIHASH_FORK_HEIGHT net).

(** The layout the specification describes: the closed form of the offset
    and the sum of the record sizes between two heights. *)
Definition offset_closed_form (checkpoint height : Z) : Z :=
  let pre := Z.max 0 (Z.min height (EQUIHASH_FORK_HEIGHT net) - checkpoint) in
  let post := Z.max 0 (height - Z.max checkpoint (EQUIHASH_FORK_HEIGHT net)) in
  pre * HDR_LEN net + post * HDR_LEN_FORK net.

Definition sum_header_sizes (h1 h2 : Z) : Z :=
  foldr (fun k acc => get_header_size k + acc) 0 (range h1 h2).

(** ** Header codec *)

Definition serialize_header (res : header) : result pystr :=
  let! s1 := int_to_hex (version res) 4 in
  let! s2 := match prev_block_hash res with
             | Some p => rev_hex p
             | None => Raise TypeError
             end in
  let! s3 := rev_hex (merkle_root res) in
  let! s4 := rev_hex (reserved_hash res) in
  let! s5 := int_to_hex (timestamp res) 4 in
  let! s6 := int_to_hex (bits res) 4 in
  let! s7 := rev_hex (nonce res) in
  let! s8 := rev_hex (sol_size res) in
  let! s9 := rev_hex (solution res) in
  OK (s1 ++ s2 ++ s3 ++ s4 ++ s5 ++ s6 ++ s7 ++ s8 ++ s9).

(** [hex_to_int = lambda s: int('0x' + bh2u(s[::-1]), 16)]. *)
Definition hex_to_int (s : bytes) : result Z := int_of_0x (bh2u (reverse s)).

Definition deserialize_header (s : bytes) (height : Z) : result header :=
  match s with
  | [] => Raise (Exception "Invalid header: {}")
  | _ =>
      if negb (len s =? get_header_size height) then
        Raise (Exception "Invalid header length: {}")
      else
        let! v := hex_to_int (slice 0 4 s) in
        let prev := hash_encode (slice 4 36 s) in
        let merkle := hash_encode (slice 36 68 s) in
        let reserved := hash_encode (slice 68 100 s) in
        let! ts := hex_to_int (slice 100 104 s) in
        let! b := hex_to_int (slice 104 108 s) in
        let n := hash_encode (slice 108 140 s) in
        let ss := hash_encode (slice 140 143 s) in
        let sol := hash_encode (slice_from 143 s) in
        OK (mkHeader v (Some prev) merkle reserved ts b n ss sol height)
  end.

(** [if header.get('prev_block_hash') is None:
        header['prev_block_hash'] = '00'*32]: the in-place update that
    [hash_header] makes to the dict it is given. *)
Definition fill_prev_block_hash (h : header) : header :=
  match prev_block_hash h with
  | None => set_prev_block_hash h (replicate 64 "0"%char)
  | Some _ => h
  end.

(** The value [hash_header] returns; the dict it was given is
    [fill_prev_block_hash h] afterwards. *)
Definition hash_header (header_ : option header) : result pystr :=
  match header_ with
  | None => OK (replicate 64 "0"%char)
  | Some h =>
      let! s := serialize_header (fill_prev_block_hash h) in
      let! b := bfh s in
      OK (hash_encode (sha256d b))
  end.

(** ** The per-chain store *)

Definition height (self : Blockchain) : Z := forkpoint self + _size self - 1.

(** [f.seek(offset); f.read(n)]: a negative offset is refused by [seek], a
    negative [n] reads to the end of the file. *)
Definition seek_read (data : bytes) (offset n : Z) : result bytes :=
  if offset <? 0 then Raise OSError
  else
    let rest := drop (Z.to_nat offset) data in
    OK (if n <? 0 then rest else take (Z.to_nat n) rest).

Definition read_header (self : Blockchain) (height_ : Z) : result (option header) :=
  if height_ <? 0 then OK None
  else if height_ <? forkpoint self then
    (* [self.parent().read_header(height)]: [self.parent] is an attribute
       holding a [Blockchain] or [None], and calling it raises *)
    Raise TypeError
  else if height self <? height_ then OK None
  else
    let offset := get_offset (forkpoint self) height_ in
    let header_size := get_header_size height_ in
    let! h :=
      match headers_file self with
      | File data =>
          let! h := seek_read data offset header_size in
          if len h <? header_size then
            Raise (Exception "Expected to read a full header. This was only {} bytes")
          else OK h
      | Unreadable => Raise OSError
      | NoFile =>
          if negb (headers_dir_exists self) then
            Raise (Exception "Electrum datadir does not exist. Was it deleted while running?")
          else
            Raise (Exception "Cannot find headers file but datadir is there. Should be at {}")
      end in
    if bool_decide (h = replicate (Z.to_nat header_size) x00) then OK None
    else let! hd := deserialize_header h height_ in OK (Some hd).

Definition get_hash (self : Blockchain) (height_ : Z) : result pystr :=
  let is_height_checkpoint :=
    let within_cp_range := height_ <=? max_checkpoint net in
    let at_chunk_boundary := (height_ + 1) mod 200 =? 0 in
    within_cp_range && at_chunk_boundary in
  if height_ =? -1 then
    OK (str "0000000000000000000000000000000000000000000000000000000000000000")
  else if height_ =? 0 then OK (GENESIS net)
  else if is_height_checkpoint then
    let index := height_ / 200 in
    let! cp := py_index (CHECKPOINTS net) index in
    (* h, t = self.checkpoints[index] *)
    if cp_has_extra cp then Raise ValueError else OK (cp_hash cp)
  else if height_ <? len (CHECKPOINTS net) * CHUNK_LEN - TARGET_CALC_BLOCKS then
    if negb ((height_ + 1) mod CHUNK_LEN =? 0) then Raise AssertionError
    else
      let index := height_ / CHUNK_LEN in
      let! cp := py_index (CHECKPOINTS net) index in
      (* h, t, extra_headers = self.checkpoints[index] *)
      if cp_has_extra cp then OK (cp_hash cp) else Raise ValueError
  else
    let! header := read_header self height_ in
    match header with
    | None => Raise (MissingHeader height_)
    | Some h => hash_header (Some h)
    end.

(** [try: ... except Exception: return False]. *)
Definition check_hash (self : Blockchain) (height_ : Z) (header_hash : pystr) : result bool :=
  if negb (len header_hash =? 64) then Raise AssertionError
  else
    match get_hash self height_ with
    | inr h => OK (pystr_eqb header_hash h)
    | inl e => if is_Exception e then OK false else Raise e
    end.

Definition check_header (self : Blockchain) (header_ : header) : result bool :=
  let! header_hash := hash_header (Some header_) in
  let height_ := block_height header_ in
  check_hash self height_ header_hash.

(** ** The verifier *)

(** The first component is the header dict after the call: [hash_header]
    has filled in a missing [prev_block_hash] before any check is made. *)
Definition verify_header (header_ : header) (prev_hash : pystr) (target : Z)
  : header * result unit :=
  let r := hash_header (Some header_) in
  let header_ := fill_prev_block_hash header_ in
  (header_,
   let! _hash := r in
   if negb (bool_decide (Some prev_hash = prev_block_hash header_)) then
     Raise (Exception "prev hash mismatch: %s vs %s")
   else if TESTNET net then OK tt
   else
     let! bits_ := target_to_bits target in
     if negb (bits_ =? bits header_) then
       Raise (Exception "bits mismatch: %s vs %s")
     else
       let! hash_int := int_of_0x _hash in
       if target <? hash_int then
         Raise (Exception "insufficient proof of work: %s vs target %s")
       else OK tt).

(** ** The retarget engine *)

(** [chunk_headers is None or chunk_headers['empty']]. *)
Definition chunk_empty (chunk_headers : option chunk_ctx) : bool :=
  match chunk_headers with
  | None => true
  | Some c => empty c
  end.

(** [not chunk_empty and min_height <= h <= max_height]. *)
Definition in_chunk (chunk_headers : option chunk_ctx) (h : Z) : bool :=
  match chunk_headers with
  | None => false
  | Some c => negb (empty c) && ((min_height c <=? h) && (h <=? max_height c))
  end.

(** [chunk_headers[h]]. *)
Definition chunk_get (chunk_headers : option chunk_ctx) (h : Z) : result header :=
  match chunk_headers with
  | None => Raise TypeError
  | Some c =>
      match headers c !! h with
      | Some x => OK x
      | None => Raise KeyError
      end
  end.

(** The lookup made by each turn of the three window scans:
[[
    header = self.read_header(h)
    if not header and not chunk_empty and min_height <= h <= max_height:
        header = chunk_headers[h]
    if not header:
        raise Exception("Can not read header at height %s" % h)
]] *)
Definition window_header (self : Blockchain) (chunk_headers : option chunk_ctx) (h : Z)
  : result header :=
  let! header_ := read_header self h in
  let! header_ :=
    match header_ with
    | Some x => OK (Some x)
    | None =>
        if in_chunk chunk_headers h
        then let! x := chunk_get chunk_headers h in OK (Some x)
        else OK None
    end in
  match header_ with
  | Some x => OK x
  | None => Raise (Exception "Can not read header at height %s")
  end.

Definition get_median_time (self : Blockchain) (height_ : Z)
    (chunk_headers : option chunk_ctx) : result Z :=
  let height_range :=
    range (Z.max 0 (height_ - POW_MEDIAN_BLOCK_SPAN)) (Z.max 1 height_) in
  let! median :=
    for_each height_range
      (fun median h =>
         let! header_ := window_header self chunk_headers h in
         OK (median ++ [timestamp header_]))
      [] in
  py_index (py_sorted median) (len median / 2).

(** The state of the LWMA loop: [previousTimestamp], [t], [j], [sumTarget]
    and [previousDiff], the last one unbound until the final turn. *)
Record lwma_state : Type := mkLwma {
  previousTimestamp : Z;
  lw_t : Z;
  lw_j : Z;
  sumTarget : Z;
  previousDiff : option Z
}.

(** The branch [if height >= LWMA_FORK_BLOCK] of [get_target]. *)
Definition get_target_lwma3 (self : Blockchain) (height_ : Z)
    (chunk_headers : option chunk_ctx) : result num :=
  let T := POW_TARGET_SPACING in
  let N := ZAWY_LWMA3_AVERAGING_WINDOW in
  let! kf := true_div (N * (N + 1) * T) 2 in
  let k := int_of_float kf in
  if height_ <? N then OK (PyInt MAX_TARGET)
  else
    let! previousTimestamp0 :=
      if in_chunk chunk_headers (height_ - N - 1) then
        let! x := chunk_get chunk_headers (height_ - N - 1) in OK (timestamp x)
      else
        let! x := read_header self (height_ - N - 1) in
        match x with
        | Some x => OK (timestamp x)
        | None => Raise AttributeError
        end in
    let! st :=
      for_each (range (height_ - N) height_)
        (fun st h =>
           let! header_ := window_header self chunk_headers h in
           let thisTimestamp :=
             if previousTimestamp st <? timestamp header_ then timestamp header_
             else previousTimestamp st + 1 in
           let solvetime := Z.min (6 * T) (thisTimestamp - previousTimestamp st) in
           let j := lw_j st + 1 in
           let t := lw_t st + solvetime * j in
           let! tg := bits_to_target (bits header_) in
           let sumTarget_ := sumTarget st + tg / (k * N) in
           let previousDiff_ :=
             if h =? height_ - 1 then Some tg else previousDiff st in
           OK (mkLwma thisTimestamp t j sumTarget_ previousDiff_))
        (mkLwma previousTimestamp0 0 0 0 None) in
    match previousDiff st with
    | None => Raise NameError
    | Some previousDiff_ =>
        let nextTarget := PyInt (lw_t st * sumTarget st) in
        let! hi := true_div (previousDiff_ * 150) 100 in
        let nextTarget :=
          if num_gtb nextTarget (PyFloat hi) then PyFloat hi else nextTarget in
        let! lo := true_div (previousDiff_ * 67) 100 in
        let nextTarget :=
          if num_gtb (PyFloat lo) nextTarget then PyFloat lo else nextTarget in
        let nextTarget :=
          if num_gtb nextTarget (PyInt MAX_TARGET) then PyInt MAX_TARGET
          else nextTarget in
        OK nextTarget
    end.

(** The [else] branch of [get_target]: Digishield. *)
Definition get_target_digishield (self : Blockchain) (height_ : Z)
    (chunk_headers : option chunk_ctx) : result num :=
  let height_range :=
    range (Z.max 0 (height_ - POW_AVERAGING_WINDOW)) (Z.max 1 height_) in
  let! mean_target :=
    for_each height_range
      (fun mean_target h =>
         let! header_ := window_header self chunk_headers h in
         let! tg := bits_to_target (bits header_) in
         OK (mean_target + tg))
      0 in
  let mean_target := mean_target / POW_AVERAGING_WINDOW in
  let! m1 := get_median_time self height_ chunk_headers in
  let! m2 := get_median_time self (height_ - POW_AVERAGING_WINDOW) chunk_headers in
  let actual_timespan := m1 - m2 in
  let! q := true_div (actual_timespan - AVERAGING_WINDOW_TIMESPAN) POW_DAMPING_FACTOR in
  let actual_timespan := AVERAGING_WINDOW_TIMESPAN + int_of_float q in
  let actual_timespan :=
    if actual_timespan <? MIN_ACTUAL_TIMESPAN then MIN_ACTUAL_TIMESPAN
    else if MAX_ACTUAL_TIMESPAN <? actual_timespan then MAX_ACTUAL_TIMESPAN
    else actual_timespan in
  let next_target := mean_target / AVERAGING_WINDOW_TIMESPAN * actual_timespan in
  let next_target :=
    if MAX_TARGET <? next_target then MAX_TARGET else next_target in
  OK (PyInt next_target).

Definition get_target (self : Blockchain) (height_ : Z)
    (chunk_headers : option chunk_ctx) : result num :=
  if height_ <=? POW_AVERAGING_WINDOW then OK (PyInt MAX_TARGET)
  else if (EH_EPOCH_1_END - POW_AVERAGING_WINDOW <? height_)
          && (height_ <=? EH_EPOCH_1_END) then OK (PyInt MIN_TARGET)
  else if LWMA_FORK_BLOCK <=? height_ then
    (* LWMA fork *)
    get_target_lwma3 self height_ chunk_headers
  else
    (* Digishield *)
    get_target_digishield self height_ chunk_headers.

End Definitions.

(** The median of a list of timestamps: the element in the middle of the
    sorted list. *)
Definition median_of (l : list Z) : Z :=
  nth (length l / 2)%nat (merge_sort Z.le l) 0.

(** The sum of [f k] over [a <= k < b]. *)
Definition sum_over (a b : Z) (f : Z -> Z) : Z :=
  fold_left (fun acc k => acc + f k) (range a b) 0.

(** The heights whose headers [get_target] asks for at [height_]: the 61
    headers before it under LWMA-3, the (at most) 28 before it under
    Digishield. *)
Definition in_window (height_ k : Z) : Prop :=
  if LWMA_FORK_BLOCK <=? height_
  then height_ - ZAWY_LWMA3_AVERAGING_WINDOW - 1 <= k < height_
  else Z.max 0 (height_ - TARGET_CALC_BLOCKS) <= k < height_.

(** ** Raw headers, sizes and writes *)

(** [s[a:b]] for [0 <= a] and any [b]: a negative [b] counts from the
    end. *)
Definition py_slice {A} (a b : Z) (s : list A) : list A :=
  let b := if b <? 0 then Z.max 0 (b + len s) else b in
  slice a b s.

(** [a // b] on ints. *)
Definition floordiv (a b : Z) : result Z :=
  if b =? 0 then Raise ZeroDivisionError else OK (a / b).

Definition set_size (self : Blockchain) (n : Z) : Blockchain :=
  mkBlockchain (forkpoint self) (parent self) (_forkpoint_hash self) (_prev_hash self)
               n (headers_file self) (headers_dir_exists self).

Definition set_headers_file (self : Blockchain) (f : file_state) : Blockchain :=
  mkBlockchain (forkpoint self) (parent self) (_forkpoint_hash self) (_prev_hash self)
               (_size self) f (headers_dir_exists self).

(** Overwriting a file: [f.truncate()] at position [n] cuts the content
    or extends it with zero bytes; [f.write(data)] at [offset] replaces what
    is there, a gap before [offset] being filled with zero bytes. *)
Definition file_truncate (n : Z) (c : bytes) : bytes :=
  take (Z.to_nat n) c ++ replicate (Z.to_nat (n - len c)) x00.

Definition file_write_at (offset : Z) (data c : bytes) : bytes :=
  match data with
  | [] => c
  | _ => file_truncate offset c ++ data ++ drop (Z.to_nat (offset + len data)) c
  end.

(** A header dict as [deserialize_header] builds them: three 32-bit
    scalars, and every other field the lower-case hex of a byte string of
    its length, the solution taking what is left of the record. *)
Definition hex_of (n : nat) (s : pystr) : Prop :=
  exists bs : bytes, length bs = n /\ s = bh2u bs.

(** A result that is not the exception [MissingHeader]. *)
Definition not_missing {A} (r : result A) : Prop :=
  match r with
  | inl (MissingHeader _) => False
  | _ => True
  end.

Section StoreOperations.

Context {net : NetParams} {digest : Sha256d}.

Definition wf_header (h : header) : Prop :=
  0 <= version h < 2 ^ 32 /\ 0 <= timestamp h < 2 ^ 32 /\ 0 <= bits h < 2 ^ 32 /\
  (exists p, prev_block_hash h = Some p /\ hex_of 32 p) /\
  hex_of 32 (merkle_root h) /\ hex_of 32 (reserved_hash h) /\
  hex_of 32 (nonce h) /\ hex_of 3 (sol_size h) /\
  143 <= get_header_size (block_height h) /\
  hex_of (Z.to_nat (get_header_size (block_height h) - 143)) (solution h).

Definition hash_raw_header (header_ : pystr) : result pystr :=
  let! b := bfh header_ in OK (hash_encode (sha256d b)).

Definition size (self : Blockchain) : Z := _size self.

(** What [path] can raise before it returns the file name: the assertion
    on the forkpoint of a chain that has a parent, and the [lstrip] of a
    missing [_prev_hash]. *)
Definition path (self : Blockchain) : result unit :=
  match parent self with
  | None => OK tt
  | Some _ =>
      if negb (0 <? forkpoint self) then Raise AssertionError
      else match _prev_hash self with
           | None => Raise AttributeError
           | Some _ => OK tt
           end
  end.

Definition calculate_size (checkpoint size_in_bytes : Z) : result Z :=
  (* Post-fork *)
  let! vars :=
    if negb (is_post_equihash_fork checkpoint) then
      let! pob := floordiv size_in_bytes (get_header_size 0) in
      if is_post_equihash_fork pob then
        let pob := EQUIHASH_FORK_HEIGHT net in
        OK (pob, EQUIHASH_FORK_HEIGHT net, size_in_bytes - pob * get_header_size 0)
      else OK (pob, checkpoint, size_in_bytes)
    else
      let pob := EQUIHASH_FORK_HEIGHT net in
      OK (pob, checkpoint, size_in_bytes - pob * get_header_size 0) in
  let '(pob, checkpoint, size_in_bytes) := vars in
  (* Equihash-Fork *)
  let! peb :=
    if is_post_equihash_fork checkpoint
    then floordiv size_in_bytes (get_header_size (EQUIHASH_FORK_HEIGHT net))
    else OK 0 in
  OK (pob + peb).

Definition update_size (self : Blockchain) (height_ : Z) : result Blockchain :=
  let! _ := path self in
  match headers_file self with
  | File data =>
      let! n := calculate_size height_ (len data) in OK (set_size self n)
  | Unreadable => Raise OSError
  | NoFile => OK (set_size self 0)
  end.

Definition write (self : Blockchain) (data : bytes) (offset : Z) (truncate : bool)
  : result Blockchain :=
  let! _ := path self in
  let current_offset := get_offset (forkpoint self) (height self) in
  match headers_file self with
  | File c =>
      if offset <? 0 then Raise OSError
      else
        let c := if truncate && negb (offset =? current_offset)
                 then file_truncate offset c else c in
        let c := file_write_at offset data c in
        update_size (set_headers_file self (File c)) (size self)
  | NoFile | Unreadable => Raise OSError
  end.

(** The trunk with [_size self] whole records in its file. *)
Definition trunk_with (self : Blockchain) (content : bytes) : Prop :=
  parent self = None /\ forkpoint self = 0 /\ 0 <= _size self /\
  headers_file self = File content /\ len content = get_offset 0 (_size self).

Definition header_at_tip (self : Blockchain) : result (option header) :=
  read_header self (height self).

(** ** Connecting a header *)

(** [verify_header] on whatever [get_target] returned: a float target
    reaches ['%064x' % target], which raises [TypeError]. *)
Definition verify_header_num (header_ : header) (prev_hash : pystr) (target : num)
  : header * result unit :=
  match target with
  | PyInt z => verify_header header_ prev_hash z
  | PyFloat _ =>
      let r := hash_header (Some header_) in
      let header_ := fill_prev_block_hash header_ in
      (header_,
       let! _hash := r in
       if negb (bool_decide (Some prev_hash = prev_block_hash header_)) then
         Raise (Exception "prev hash mismatch: %s vs %s")
       else if TESTNET net then OK tt
       else Raise TypeError)
  end.

(** The first component is the header dict after the call. *)
Definition can_connect (self : Blockchain) (header_ : option header) (check_height : bool)
  : option header * result bool :=
  match header_ with
  | None => (None, OK false)
  | Some hd =>
      let height_ := block_height hd in
      if check_height && negb (height self =? height_ - 1) then (Some hd, OK false)
      else if height_ =? 0 then
        (Some (fill_prev_block_hash hd),
         let! h := hash_header (Some hd) in OK (pystr_eqb h (GENESIS net)))
      else
        match get_hash self (height_ - 1) with
        | inl _ => (Some hd, OK false)
        | inr prev_hash =>
            if negb (bool_decide (Some prev_hash = prev_block_hash hd))
            then (Some hd, OK false)
            else
              match get_target self height_ None with
              | inl (MissingHeader _) => (Some hd, OK false)
              | inl e => (Some hd, Raise e)
              | inr target =>
                  let '(hd', r) := verify_header_num hd prev_hash target in
                  (Some hd', match r with
                             | inl _ => OK false
                             | inr _ => OK true
                             end)
              end
        end
  end.

(** ** Verifying a chunk *)

(** The variables of the loop of [verify_chunk]. *)
Record chunk_state : Type := mkChunkState {
  cs_offset : Z;
  cs_height : Z;
  cs_prev_hash : pystr;
  cs_chunk_headers : chunk_ctx;
  cs_i : Z
}.

(** One turn of the loop, for [offset < size]. *)
Definition verify_chunk_step (self : Blockchain) (data : bytes) (st : chunk_state)
  : result chunk_state :=
  let header_size := get_header_size (cs_height st) in
  let raw_header := py_slice (cs_offset st) (cs_offset st + header_size) data in
  let! header_ := deserialize_header raw_header (cs_height st) in
  let! target := get_target self (cs_height st) (Some (cs_chunk_headers st)) in
  let '(header_, r) := verify_header_num header_ (cs_prev_hash st) target in
  let! _ := r in
  let ctx := cs_chunk_headers st in
  let ctx :=
    mkCtx false
          (if cs_i st =? 0 then cs_height st else min_height ctx)
          (cs_height st)
          (<[cs_height st := header_]> (headers ctx)) in
  let! prev_hash := hash_header (Some header_) in
  OK (mkChunkState (cs_offset st + header_size) (cs_height st + 1) prev_hash ctx
                   (cs_i st + 1)).

(** [while offset < size: ...]; [None] when [fuel] turns were not
    enough. *)
Fixpoint verify_chunk_loop (fuel : nat) (self : Blockchain) (data : bytes)
    (st : chunk_state) : option (result chunk_state) :=
  if negb (cs_offset st <? len data) then Some (OK st)
  else
    match fuel with
    | O => None
    | S fuel' =>
        match verify_chunk_step self data st with
        | inl e => Some (Raise e)
        | inr st' => verify_chunk_loop fuel' self data st'
        end
    end.

(** Every turn that does not raise consumes at least one byte, so
    [length data] turns are enough (lemma [verify_chunk_loop_terminates]). *)
Definition verify_chunk (self : Blockchain) (index : Z) (data : bytes) : result unit :=
  let height_ := index * 200 in
  let! prev_hash := get_hash self (height_ - 1) in
  let st := mkChunkState 0 height_ prev_hash (mkCtx true 0 0 ∅) 0 in
  match verify_chunk_loop (length data) self data st with
  | Some r => let! _ := r in OK tt
  | None => Raise (Exception "verify_chunk: loop not finished")
  end.

(** Headers each of which names the hash of the one before it as its
    previous block, the first one naming [prev_hash]. *)
Fixpoint linked (prev_hash : pystr) (hs : list header) : Prop :=
  match hs with
  | [] => True
  | hd :: hs' =>
      prev_block_hash hd = Some prev_hash /\
      exists hx, hash_header (Some hd) = OK hx /\ linked hx hs'
  end.

(** The [i]-th record of a chunk whose first header is at [height_]. *)
Definition chunk_record (height_ : Z) (data : bytes) (i : nat) : bytes :=
  slice (sum_header_sizes height_ (height_ + Z.of_nat i))
        (sum_header_sizes height_ (height_ + Z.of_nat (S i))) data.

(** ** Checkpoints *)

Definition get_checkpoints (self : Blockchain) : result (list (pystr * num)) :=
  (* for each chunk, store the hash of the last block and the target after the chunk *)
  let n := height self / 200 in
  for_each (range 0 n)
    (fun cp index =>
       let! h := get_hash self ((index + 1) * 200 - 1) in
       let! target := get_target self index None in
       OK (cp ++ [(h, target)]))
    [].

End StoreOperations.

(** ** The two retarget rules in the words of the specification

    The rules of section 4.C of the specification, written as functions of
    the headers of the window alone: [hdr k] is the header at height [k]
    and [tgt k] stands for [bits_to_target(header[k].bits)].  They are
    compared below with what [get_target] computes from the store and the
    in-flight context. *)






(** ** An instance of the digest: double SHA-256

    SHA-256 as FIPS 180-4 defines it, on 32-bit words held in [Z]; the
    round constants and the initial state are computed from the cube and
    square roots of the first primes, as the standard derives them. *)

Definition w32 (x : Z) : Z := x mod 2 ^ 32.

Definition rotr (n x : Z) : Z :=
  Z.lor (Z.shiftr x n) (w32 (Z.shiftl x (32 - n))).

Definition Ch (x y z : Z) : Z :=
  Z.lxor (Z.land x y) (Z.land (Z.lxor x 0xffffffff) z).
Definition Maj (x y z : Z) : Z :=
  Z.lxor (Z.lxor (Z.land x y) (Z.land x z)) (Z.land y z).
Definition big_sigma0 (x : Z) : Z := Z.lxor (Z.lxor (rotr 2 x) (rotr 13 x)) (rotr 22 x).
Definition big_sigma1 (x : Z) : Z := Z.lxor (Z.lxor (rotr 6 x) (rotr 11 x)) (rotr 25 x).
Definition small_sigma0 (x : Z) : Z :=
  Z.lxor (Z.lxor (rotr 7 x) (rotr 18 x)) (Z.shiftr x 3).
Definition small_sigma1 (x : Z) : Z :=
  Z.lxor (Z.lxor (rotr 17 x) (rotr 19 x)) (Z.shiftr x 10).

Definition is_prime (p : Z) : bool :=
  forallb (fun d => negb (p mod d =? 0)) (seqZ 2 (Z.sqrt p - 1)).

Definition first_primes (n : nat) : list Z :=
  take n (List.filter is_prime (seqZ 2 400)).

(** The integer cube root of [x < 2^108], one bit at a time. *)
Definition cube_root (x : Z) : Z :=
  fold_left (fun r b => let r' := r + 2 ^ b in if r' * r' * r' <=? x then r' else r)
            (reverse (seqZ 0 36)) 0.

Definition sha256_K : list Z :=
  Eval vm_compute in map (fun p => w32 (cube_root (p * 2 ^ 96))) (first_primes 64).

Record sha256_state : Type := mkSha {
  sha_a : Z; sha_b : Z; sha_c : Z; sha_d : Z;
  sha_e : Z; sha_f : Z; sha_g : Z; sha_h : Z
}.

Definition sha256_init : sha256_state :=
  Eval vm_compute in
    match map (fun p => w32 (Z.sqrt (p * 2 ^ 64))) (first_primes 8) with
    | [a; b; c; d; e; f; g; h] => mkSha a b c d e f g h
    | _ => mkSha 0 0 0 0 0 0 0 0
    end.

(** The 64-bit big-endian bit length that closes the padding. *)
Definition be_bytes (n : nat) (x : Z) : bytes :=
  map (fun i => byte_of_Z ((x / 256 ^ i) mod 256)) (reverse (seqZ 0 (Z.of_nat n))).

Definition sha256_pad (msg : bytes) : bytes :=
  let l := len msg in
  let k := (55 - l) mod 64 in
  msg ++ [x80] ++ replicate (Z.to_nat k) x00 ++ be_bytes 8 (8 * l).

Fixpoint chunks {A} (size : nat) (fuel : nat) (l : list A) : list (list A) :=
  match fuel, l with
  | O, _ | _, [] => []
  | S f, _ => take size l :: chunks size f (drop size l)
  end.

(** The message schedule [W_0 .. W_63] of one block. *)
Definition sha256_schedule (block : bytes) : list Z :=
  let w16 := map int_from_bytes_big (chunks 4 16 block) in
  fold_left
    (fun w t =>
       w ++ [w32 (small_sigma1 (nth (t - 2) w 0) + nth (t - 7) w 0
                  + small_sigma0 (nth (t - 15) w 0) + nth (t - 16) w 0)])
    (seq 16 48) w16.

Definition sha256_round (s : sha256_state) (kw : Z * Z) : sha256_state :=
  let t1 := sha_h s + big_sigma1 (sha_e s) + Ch (sha_e s) (sha_f s) (sha_g s)
            + fst kw + snd kw in
  let t2 := big_sigma0 (sha_a s) + Maj (sha_a s) (sha_b s) (sha_c s) in
  mkSha (w32 (t1 + t2)) (sha_a s) (sha_b s) (sha_c s)
        (w32 (sha_d s + t1)) (sha_e s) (sha_f s) (sha_g s).

Definition sha256_compress (s : sha256_state) (block : bytes) : sha256_state :=
  let r := fold_left sha256_round (zip sha256_K (sha256_schedule block)) s in
  mkSha (w32 (sha_a s + sha_a r)) (w32 (sha_b s + sha_b r))
        (w32 (sha_c s + sha_c r)) (w32 (sha_d s + sha_d r))
        (w32 (sha_e s + sha_e r)) (w32 (sha_f s + sha_f r))
        (w32 (sha_g s + sha_g r)) (w32 (sha_h s + sha_h r)).

Definition be32 (x : Z) : bytes :=
  [byte_of_Z ((x / 2 ^ 24) mod 256); byte_of_Z ((x / 2 ^ 16) mod 256);
   byte_of_Z ((x / 2 ^ 8) mod 256); byte_of_Z (x mod 256)].

Definition sha256_output (s : sha256_state) : bytes :=
  be32 (sha_a s) ++ be32 (sha_b s) ++ be32 (sha_c s) ++ be32 (sha_d s) ++
  be32 (sha_e s) ++ be32 (sha_f s) ++ be32 (sha_g s) ++ be32 (sha_h s).

Definition sha256 (msg : bytes) : bytes :=
  let padded := sha256_pad msg in
  sha256_output
    (fold_left sha256_compress (chunks 64 (length padded) padded) sha256_init).

(** [sha256d(x) = sha256(sha256(x))]. *)
Definition double_sha256 : Sha256d :=
  {| sha256d := fun x => sha256 (sha256 x);
     sha256d_length := fun _ => eq_refl |}.

(** ** Sample inputs

    A network whose pre-fork header has no solution (143 bytes) and whose
    Equihash headers take 1487 bytes, a few headers, and chains storing
    them; used to evaluate the definitions above. *)

Definition zeros64 : pystr := replicate 64 "0"%char.

Definition sample_net : NetParams :=
  mkNet (str "00068b35729d9d2b0c294ff1fe9af0094740524311a131de40e7f705e4c29a5b")
        [] 0 266000 false 143 1487.

(** The bytes of an ASCII string, for the test vectors of the digest. *)
Definition ascii_bytes (s : string) : bytes :=
  map (fun c => byte_of_Z (Z.of_nat (nat_of_ascii c))) (list_ascii_of_string s).

(** A pre-fork header at height [k] with the given timestamp and bits. *)
Definition sample_header (ts b k : Z) : header :=
  mkHeader 4 (Some zeros64) zeros64 zeros64 ts b
           (replicate 64 "1"%char) (str "000000") [] k.

(** The bytes of a list of headers, one record after the other. *)
Definition sample_file (hs : list header) : bytes :=
  flat_map (fun h =>
              match (let! s := serialize_header h in bfh s) with
              | inr b => b
              | inl _ => []
              end) hs.

(** The trunk with nothing stored yet. *)
Definition empty_trunk : Blockchain :=
  mkBlockchain 0 None (GENESIS sample_net) None 0 NoFile true.

(** Headers at heights 0..17, one minute apart, and the trunk storing
    them. *)
Definition header_a (k : Z) : header := sample_header (1500000000 + 60 * k) 0x1f07ffff k.
Definition header_b (k : Z) : header := sample_header (1500000000 + 90 * k) 0x1e7fffff k.

Definition trunk_a : Blockchain :=
  mkBlockchain 0 None (GENESIS sample_net) None 18
               (File (sample_file (header_a <$> seqZ 0 18))) true.

Definition ctx_of (lo n : Z) (f : Z -> header) : chunk_ctx :=
  mkCtx false lo (lo + n - 1) (list_to_map ((fun k => (k, f k)) <$> seqZ lo n)).

(** A chain forked off [trunk_a] at height 5. *)
Definition fork_at_5 : Blockchain :=
  mkBlockchain 5 (Some trunk_a) zeros64 (Some zeros64) 1
               (File (sample_file [header_b 5])) true.

(** Headers at heights 765000..765060 with solve times of 400 seconds, as an
    in-flight context on top of an empty store. *)
Definition header_slow (k : Z) : header :=
  sample_header (1600000000 + 400 * (k - 765000)) 0x1e7fffff k.

(** Headers at the same heights one minute apart. *)
Definition header_steady (k : Z) : header :=
  sample_header (1600000000 + 60 * (k - 765000)) 0x1e7fffff k.

(** A header whose [merkle_root] is not hexadecimal, and one without
    [prev_block_hash]. *)
Definition header_bad_hex : header :=
  mkHeader 4 (Some zeros64) (str "zz") zeros64 1500000000 0x1f07ffff
           (replicate 64 "1"%char) (str "000000") [] 1.

Definition header_no_prev : header :=
  mkHeader 4 None zeros64 zeros64 1500000000 0x2000ffff
           (replicate 64 "1"%char) (str "000000") [] 0.

(** The hash of [header_a 3] under [double_sha256]. *)
Definition hash_a3 : pystr :=
  Eval vm_compute in
    match hash_header (digest := double_sha256) (Some (header_a 3)) with
    | inr x => x
    | inl _ => []
    end.

(** The file of [trunk_a], the record of the next header, and the trunk
    after that record has been appended. *)
Definition file_a : bytes := sample_file (header_a <$> seqZ 0 18).
Definition record_a3 : bytes := sample_file [header_a 3].
Definition record_a18 : bytes := sample_file [header_a 18].

Definition trunk_a19 : Blockchain :=
  mkBlockchain 0 None (GENESIS sample_net) None 19 (File (file_a ++ record_a18)) true.

(** The trunk with 201 headers: one whole chunk and one header more. *)
Definition trunk_201 : Blockchain :=
  mkBlockchain 0 None (GENESIS sample_net) None 201
               (File (sample_file (header_a <$> seqZ 0 201))) true.

(** The trunk with the header at height 0 only. *)
Definition trunk_1 : Blockchain :=
  mkBlockchain 0 None (GENESIS sample_net) None 1 (File (sample_file [header_a 0])) true.

(** Headers with bits [0x1f07ffff], the compact form of [MAX_TARGET], and a
    nonce for which the hash under [double_sha256] is not above
    [MAX_TARGET]: two that follow each other from height 0, and one that
    follows the genesis hash of [sample_net]. *)
Definition mined_header (prev : pystr) (ts : Z) (nonce_ : pystr) (k : Z) : header :=
  mkHeader 4 (Some prev) zeros64 zeros64 ts 0x1f07ffff nonce_ (str "000000") [] k.

Definition header_m0 : header :=
  mined_header zeros64 1500000000
    (str "0000000000000000000000000000000000000000000000000000000000004a9e") 0.

Definition hash_m0 : pystr :=
  str "0002614227c59940186c6c3bde9c882d22c2aa743bd0a1b651a04953477a43b7".

Definition header_m1 : header :=
  mined_header hash_m0 1500000060
    (str "0000000000000000000000000000000000000000000000000000000000003f7a") 1.

Definition hash_m1 : pystr :=
  str "0003aa15d05b6c6b215e5ebb7f274150f4e5f3f156e5303b128c1889b447332c".

Definition chunk_m : bytes := sample_file [header_m0; header_m1].

Definition header_c1 : header :=
  mined_header (GENESIS sample_net) 1500000060
    (str "0000000000000000000000000000000000000000000000000000000000001bcc") 1.

Definition hash_c1 : pystr :=
  str "0002db895db3a56a13dd734940f439b443931698658ada5799e8197ffb74f5c1".

(** Stored headers whose bits [bits_to_target] refuses, and a header that
    follows the last of them. *)
Definition header_z (k : Z) : header := sample_header (1500000000 + 60 * k) 0 k.

Definition trunk_z : Blockchain :=
  mkBlockchain 0 None (GENESIS sample_net) None 18
               (File (sample_file (header_z <$> seqZ 0 18))) true.

Definition hash_z17 : pystr :=
  Eval vm_compute in
    match hash_header (digest := double_sha256) (Some (header_z 17)) with
    | inr x => x
    | inl _ => []
    end.

Definition header_z18 : header :=
  mkHeader 4 (Some hash_z17) zeros64 zeros64 1500001080 0x1f07ffff
           (replicate 64 "1"%char) (str "000000") [] 18.

(** * Properties *)

Lemma bind_OK {A B} (a : A) (k : A -> result B) : bind (OK a) k = k a.
Proof. reflexivity. Qed.

Lemma bind_Raise {A B} (e : exn) (k : A -> result B) : bind (Raise e) k = Raise e.
Proof. reflexivity. Qed.

(** ** Hexadecimal rendering *)

Lemma hex_digit_cases (d : Z) :
  0 <= d < 16 ->
  d = 0 \/ d = 1 \/ d = 2 \/ d = 3 \/ d = 4 \/ d = 5 \/ d = 6 \/ d = 7 \/
  d = 8 \/ d = 9 \/ d = 10 \/ d = 11 \/ d = 12 \/ d = 13 \/ d = 14 \/ d = 15.
Proof. lia. Qed.

Ltac each_digit d H :=
  let C := fresh "C" in
  pose proof (hex_digit_cases d H) as C;
  repeat (destruct C as [C | C]; [subst d | ]); [.. | subst d].

Lemma hex_val_hex_char (d : Z) : 0 <= d < 16 -> hex_val (hex_char d) = Some d.
Proof. intros H. each_digit d H; reflexivity. Qed.

Lemma is_space_hex_char (d : Z) : 0 <= d < 16 -> is_space (hex_char d) = false.
Proof. intros H. each_digit d H; reflexivity. Qed.

Lemma fixed_hex_length (k : nat) (n : Z) : length (fixed_hex k n) = k.
Proof.
  revert n. induction k as [|k IH]; intros n; simpl; [reflexivity|].
  rewrite length_app, IH. simpl. lia.
Qed.

Lemma fixed_hex_zero (k : nat) : fixed_hex k 0 = replicate k "0"%char.
Proof.
  induction k as [|k IH]; [reflexivity|].
  cbn [fixed_hex]. change (0 / 16) with 0. change (0 mod 16) with 0. rewrite IH.
  change [hex_char 0] with (replicate 1 "0"%char).
  rewrite <- replicate_add. f_equal. lia.
Qed.

Lemma pow16_succ (k : nat) : 16 ^ Z.of_nat (S k) = 16 * 16 ^ Z.of_nat k.
Proof. rewrite Nat2Z.inj_succ, Z.pow_succ_r by lia. reflexivity. Qed.

Lemma pow16_pos (k : nat) : 0 < 16 ^ Z.of_nat k.
Proof. apply Z.pow_pos_nonneg; lia. Qed.

(** Splitting a rendering into its high and low digits. *)
Lemma fixed_hex_app (j k : nat) (n : Z) :
  fixed_hex (j + k) n =
  fixed_hex j (n / 16 ^ Z.of_nat k) ++ fixed_hex k (n mod 16 ^ Z.of_nat k).
Proof.
  revert n. induction k as [|k IH]; intros n.
  - rewrite Nat.add_0_r. simpl. rewrite Z.div_1_r, app_nil_r. reflexivity.
  - rewrite Nat.add_succ_r. simpl fixed_hex. rewrite IH.
    pose proof (pow16_pos k) as Hp.
    rewrite pow16_succ.
    rewrite Z.div_div by lia.
    rewrite (Z.mul_comm 16 (16 ^ Z.of_nat k)) at 2.
    assert (Hm : n mod (16 * 16 ^ Z.of_nat k)
                 = n mod 16 + 16 * ((n / 16) mod 16 ^ Z.of_nat k)).
    { apply Z.rem_mul_r; lia. }
    rewrite (Z.mul_comm (16 ^ Z.of_nat k) 16), Hm.
    assert (H16 : 0 <= n mod 16 < 16) by (apply Z.mod_pos_bound; lia).
    replace ((n mod 16 + 16 * ((n / 16) mod 16 ^ Z.of_nat k)) / 16)
      with ((n / 16) mod 16 ^ Z.of_nat k).
    2:{ apply Z.div_unique with (r := n mod 16); lia. }
    replace ((n mod 16 + 16 * ((n / 16) mod 16 ^ Z.of_nat k)) mod 16)
      with (n mod 16).
    2:{ apply Z.mod_unique with (q := (n / 16) mod 16 ^ Z.of_nat k); lia. }
    rewrite <- app_assoc. reflexivity.
Qed.

Lemma fixed_hex_small (j k : nat) (n : Z) :
  0 <= n < 16 ^ Z.of_nat k ->
  fixed_hex (j + k) n = replicate j "0"%char ++ fixed_hex k n.
Proof.
  intros H. rewrite fixed_hex_app.
  rewrite Z.div_small, Z.mod_small by lia.
  rewrite fixed_hex_zero. reflexivity.
Qed.

Lemma fixed_hex_shift (j k : nat) (n : Z) :
  fixed_hex (j + k) (n * 16 ^ Z.of_nat k) = fixed_hex j n ++ replicate k "0"%char.
Proof.
  pose proof (pow16_pos k).
  rewrite fixed_hex_app, Z.div_mul, Z.mod_mul by lia.
  rewrite fixed_hex_zero. reflexivity.
Qed.

Lemma fixed_hex_drop (j k : nat) (n : Z) :
  drop j (fixed_hex (j + k) n) = fixed_hex k (n mod 16 ^ Z.of_nat k).
Proof.
  rewrite fixed_hex_app.
  rewrite drop_app_length'; [reflexivity | symmetry; apply fixed_hex_length].
Qed.

Lemma fixed_hex_take (j k : nat) (n : Z) :
  take j (fixed_hex (j + k) n) = fixed_hex j (n / 16 ^ Z.of_nat k).
Proof.
  rewrite fixed_hex_app.
  rewrite take_app_length'; [reflexivity | symmetry; apply fixed_hex_length].
Qed.

(** ['%x'] yields the digits of the fixed-width rendering with its leading
    zeros removed. *)
Lemma hex_digits_fixed (fuel : nat) :
  forall (k : nat) (n : Z) (acc : pystr),
    (1 <= fuel)%nat ->
    0 <= n < 16 ^ Z.of_nat fuel -> n < 16 ^ Z.of_nat k -> (1 <= k)%nat ->
    exists d, hex_digits fuel n acc = d ++ acc /\ (length d <= k)%nat /\
              replicate (k - length d) "0"%char ++ d = fixed_hex k n.
Proof.
  induction fuel as [|f IH]; intros k n acc Hf1 Hf Hk Hk1.
  - lia.
  - simpl hex_digits. destruct (Z.ltb_spec n 16) as [Hlt | Hge].
    + exists [hex_char n]. split; [reflexivity|]. split; [simpl; lia|].
      destruct k as [|k]; [lia|].
      replace (S k - length [hex_char n])%nat with k by (simpl; lia).
      cbn [fixed_hex]. rewrite Z.div_small, Z.mod_small by lia.
      rewrite fixed_hex_zero. reflexivity.
    + destruct k as [|k]; [lia|].
      destruct k as [|k]; [simpl in Hk; lia|].
      rewrite pow16_succ in Hf, Hk.
      assert (Hq : 0 <= n / 16) by (apply Z.div_pos; lia).
      destruct (IH (S k) (n / 16) (hex_char (n mod 16) :: acc)) as (d & Hd & Hl & Hz).
      * destruct f as [|f]; [simpl in Hf; lia | lia].
      * split; [lia|]. apply Z.div_lt_upper_bound; lia.
      * apply Z.div_lt_upper_bound; lia.
      * lia.
      * exists (d ++ [hex_char (n mod 16)]). split.
        { rewrite Hd, <- app_assoc. reflexivity. }
        split; [rewrite length_app; simpl; lia|].
        rewrite length_app. simpl length.
        replace (S (S k) - (length d + 1))%nat with (S k - length d)%nat by lia.
        rewrite app_assoc, Hz. reflexivity.
Qed.

Lemma log2_fuel (n : Z) : 0 <= n -> n < 16 ^ Z.of_nat (S (Z.to_nat (Z.log2 n))).
Proof.
  intros Hn. destruct (Z.eq_dec n 0) as [-> | Hne].
  - apply Z.pow_pos_nonneg; lia.
  - pose proof (Z.log2_nonneg n) as Hl.
    assert (Hs : n < 2 ^ Z.succ (Z.log2 n)) by (apply Z.log2_spec; lia).
    rewrite Nat2Z.inj_succ, Z2Nat.id by lia.
    eapply Z.lt_le_trans; [exact Hs|].
    apply Z.pow_le_mono_l. lia.
Qed.

Lemma format_x_fixed (k : nat) (n : Z) :
  0 <= n < 16 ^ Z.of_nat k -> (1 <= k)%nat -> zfill k (format_x n) = fixed_hex k n.
Proof.
  intros Hn Hk. unfold zfill, format_x.
  destruct (hex_digits_fixed (S (Z.to_nat (Z.log2 n))) k n []) as (d & Hd & Hl & Hz).
  - lia.
  - split; [lia | apply log2_fuel; lia].
  - lia.
  - exact Hk.
  - rewrite Hd, app_nil_r. exact Hz.
Qed.

Lemma format_064x_fixed (n : Z) :
  0 <= n < 2 ^ 256 -> format_064x n = fixed_hex 64 n.
Proof.
  intros Hn. unfold format_064x.
  destruct (Z.ltb_spec n 0) as [Hneg | _]; [lia|].
  apply format_x_fixed; [|lia].
  change (16 ^ Z.of_nat 64) with (2 ^ 256). exact Hn.
Qed.

(** ** Bytes read back from a rendering *)

Lemma byte_val_of_Z (z : Z) : 0 <= z < 256 -> byte_val (byte_of_Z z) = z.
Proof.
  intros Hz. unfold byte_val, byte_of_Z.
  destruct (Byte.of_N (Z.to_N z)) as [b|] eqn:Hb.
  - apply Byte.to_of_N in Hb. rewrite Hb. lia.
  - apply Byte.of_N_None_iff in Hb. lia.
Qed.

Lemma int_from_bytes_big_acc (bs : bytes) (acc : Z) :
  fold_left (fun a b => a * 256 + byte_val b) bs acc
  = acc * 256 ^ len bs + int_from_bytes_big bs.
Proof.
  unfold int_from_bytes_big, len. revert acc.
  induction bs as [|b bs IH]; intros acc.
  - simpl. lia.
  - cbn [fold_left]. rewrite IH, (IH (0 * 256 + byte_val b)).
    cbn [length]. rewrite Nat2Z.inj_succ, Z.pow_succ_r by lia. lia.
Qed.

Lemma int_from_bytes_big_cons (b : byte) (bs : bytes) :
  int_from_bytes_big (b :: bs) = byte_val b * 256 ^ len bs + int_from_bytes_big bs.
Proof.
  unfold int_from_bytes_big at 1. cbn [fold_left].
  rewrite int_from_bytes_big_acc. lia.
Qed.

Lemma pow16_256 (k : nat) : 16 ^ Z.of_nat (2 * k) = 256 ^ Z.of_nat k.
Proof.
  rewrite Nat2Z.inj_mul, Z.pow_mul_r by lia. reflexivity.
Qed.

Lemma fixed_hex_2 (x : Z) :
  fixed_hex 2 x = [hex_char ((x / 16) mod 16); hex_char (x mod 16)].
Proof. reflexivity. Qed.

Lemma bfh_fixed_hex (k : nat) :
  forall n : Z, 0 <= n ->
    exists bs, bfh (fixed_hex (2 * k) n) = OK bs /\ length bs = k /\
               int_from_bytes_big bs = n mod 256 ^ Z.of_nat k.
Proof.
  induction k as [|k IH]; intros n Hn.
  - exists []. simpl. rewrite Z.mod_1_r. auto.
  - replace (2 * S k)%nat with (2 + 2 * k)%nat by lia.
    rewrite fixed_hex_app, fixed_hex_2.
    set (x := n / 16 ^ Z.of_nat (2 * k)).
    assert (Hp : 0 < 16 ^ Z.of_nat (2 * k)) by apply pow16_pos.
    assert (Hd1 : 0 <= (x / 16) mod 16 < 16) by (apply Z.mod_pos_bound; lia).
    assert (Hd2 : 0 <= x mod 16 < 16) by (apply Z.mod_pos_bound; lia).
    destruct (IH (n mod 16 ^ Z.of_nat (2 * k))) as (bs & Hbs & Hlen & Hint).
    { apply Z.mod_pos_bound; lia. }
    exists (byte_of_Z (16 * ((x / 16) mod 16) + x mod 16) :: bs).
    cbn [app bfh].
    rewrite (is_space_hex_char _ Hd1), (hex_val_hex_char _ Hd1), (hex_val_hex_char _ Hd2).
    rewrite Hbs. split; [reflexivity|]. split; [simpl; lia|].
    rewrite int_from_bytes_big_cons, Hint, byte_val_of_Z by lia.
    unfold len. rewrite Hlen.
    assert (Hx : 16 * ((x / 16) mod 16) + x mod 16 = x mod 256).
    { change 256 with (16 * 16). rewrite Z.rem_mul_r by lia. lia. }
    rewrite Hx. unfold x. rewrite pow16_256 in *.
    assert (H256 : 0 < 256 ^ Z.of_nat k) by (apply Z.pow_pos_nonneg; lia).
    rewrite Z.mod_mod by lia.
    rewrite Nat2Z.inj_succ, Z.pow_succ_r by lia.
    rewrite (Z.mul_comm 256), Z.rem_mul_r by lia. lia.
Qed.

Lemma fixed_hex_2_nonzero (x : Z) :
  1 <= x < 256 -> fixed_hex 2 x <> str "00".
Proof.
  intros Hx Heq.
  destruct (bfh_fixed_hex 1 x) as (bs & Hbs & _ & Hint); [lia|].
  change (2 * 1)%nat with 2%nat in Hbs. rewrite Heq in Hbs.
  vm_compute in Hbs. injection Hbs as <-.
  change (256 ^ Z.of_nat 1) with 256 in Hint.
  rewrite Z.mod_small in Hint by lia. vm_compute in Hint. lia.
Qed.

(** ** The stripping loop *)

Lemma strip_zero_bytes_zeros (a : nat) :
  forall (fuel : nat) (s : pystr),
    (a <= fuel)%nat -> (6 <= length s)%nat ->
    (length s = 6%nat \/ take 2 s <> str "00") ->
    strip_zero_bytes fuel (replicate (2 * a) "0"%char ++ s) = s.
Proof.
  induction a as [|a IH]; intros fuel s Hf Hl Hstop.
  - simpl. destruct fuel as [|f]; [reflexivity|]. simpl.
    unfold pystr_eqb, slice, slice_from, len.
    change (Z.to_nat (2 - 0)) with 2%nat. change (Z.to_nat 0) with 0%nat. rewrite drop_0.
    destruct Hstop as [H6 | Hne].
    + rewrite H6. simpl. rewrite andb_false_r. reflexivity.
    + rewrite bool_decide_eq_false_2 by exact Hne. reflexivity.
  - destruct fuel as [|f]; [lia|].
    replace (2 * S a)%nat with (S (S (2 * a))) by lia.
    cbn [replicate app strip_zero_bytes].
    unfold pystr_eqb, slice, slice_from, len.
    change (Z.to_nat (2 - 0)) with 2%nat. change (Z.to_nat 0) with 0%nat.
    change (Z.to_nat 2) with 2%nat. cbn [drop take].
    rewrite bool_decide_eq_true_2 by reflexivity.
    cbn [length]. rewrite length_app.
    destruct (Z.ltb_spec 6 (Z.of_nat (S (S (length (replicate (2 * a) "0"%char) + length s)))));
      [|lia].
    simpl andb. cbv iota. apply IH; [lia | exact Hl | exact Hstop].
Qed.

(** ** C1 and C9: the compact encoding *)

Lemma lor_shiftl_24 (e m : Z) :
  0 <= e -> 0 <= m < 2 ^ 24 -> Z.lor (Z.shiftl e 24) m = e * 2 ^ 24 + m.
Proof.
  intros He Hm.
  rewrite Z.shiftl_mul_pow2 by lia.
  rewrite <- Z.add_nocarry_lor; [reflexivity|].
  apply Z.bits_inj'. intros i Hi.
  rewrite Z.land_spec, Z.bits_0.
  destruct (Z.lt_ge_cases i 24) as [Hlt | Hge].
  - rewrite Z.mul_pow2_bits_low by lia. reflexivity.
  - rewrite andb_comm.
    destruct (Z.eq_dec m 0) as [-> | Hne]; [rewrite Z.bits_0; reflexivity|].
    assert (Hpow : 2 ^ 24 <= 2 ^ i) by (apply Z.pow_le_mono_r; lia).
    rewrite Z.bits_above_log2; [reflexivity | lia |].
    apply Z.log2_lt_pow2; lia.
Qed.

Lemma canonical_bits_split (b : Z) :
  canonical_bits b ->
  let e := Z.land (Z.shiftr b 24) 0xff in
  let m := Z.land b 0xffffff in
  b = e * 2 ^ 24 + m /\ e = b / 2 ^ 24 /\ m = b mod 2 ^ 24.
Proof.
  intros (Hb & He & Hm). cbv zeta.
  change 0xff with (Z.ones 8). change 0xffffff with (Z.ones 24).
  rewrite !Z.land_ones, Z.shiftr_div_pow2 by lia.
  assert (Hq : 0 <= b / 2 ^ 24 < 2 ^ 8).
  { split; [apply Z.div_pos; lia | apply Z.div_lt_upper_bound; lia]. }
  rewrite (Z.mod_small (b / 2 ^ 24)) by lia.
  pose proof (Z.div_mod b (2 ^ 24)). lia.
Qed.

(** What [target_to_bits] sees after dropping the first two characters. *)
Lemma target_to_bits_digits (t : Z) :
  0 <= t < 2 ^ 256 ->
  slice_from 2 (format_064x t) = fixed_hex 62 (t mod 2 ^ 248).
Proof.
  intros Ht. rewrite format_064x_fixed by exact Ht.
  unfold slice_from. change (Z.to_nat 2) with 2%nat.
  change 64%nat with (2 + 62)%nat. rewrite fixed_hex_drop. reflexivity.
Qed.

Lemma compact_digits (m : Z) (a : nat) :
  0 <= m < 16 ^ 6 -> (a <= 28)%nat ->
  slice_from 2 (format_064x (m * 16 ^ Z.of_nat (2 * a)))
  = replicate (2 * (28 - a)) "0"%char ++ (fixed_hex 6 m ++ replicate (2 * a) "0"%char).
Proof.
  intros Hm Ha.
  pose proof (pow16_pos (2 * a)) as Hp.
  assert (Hle : 16 ^ Z.of_nat (2 * a) <= 16 ^ 56) by (apply Z.pow_le_mono_r; lia).
  assert (Ht : 0 <= m * 16 ^ Z.of_nat (2 * a) < 2 ^ 248).
  { split; [lia|]. change (2 ^ 248) with (16 ^ 6 * 16 ^ 56). nia. }
  rewrite target_to_bits_digits by (change (2 ^ 256) with (2 ^ 248 * 256); lia).
  rewrite Z.mod_small by exact Ht.
  replace 62%nat with ((2 * (28 - a) + 6) + 2 * a)%nat by lia.
  rewrite fixed_hex_shift, fixed_hex_small by (simpl Z.of_nat; lia).
  rewrite <- app_assoc. reflexivity.
Qed.

Lemma bfh_fixed_hex_6 (n : Z) :
  0 <= n < 2 ^ 24 ->
  exists bs, bfh (fixed_hex 6 n) = OK bs /\ int_from_bytes_big bs = n.
Proof.
  intros Hn. destruct (bfh_fixed_hex 3 n) as (bs & Hbs & _ & Hint); [lia|].
  exists bs. split; [exact Hbs|].
  rewrite Hint. apply Z.mod_small. simpl Z.of_nat. lia.
Qed.

Lemma target_to_bits_compact (m : Z) (a : nat) :
  0x8000 <= m <= 0x7fffff -> (a <= 28)%nat ->
  target_to_bits (m * 16 ^ Z.of_nat (2 * a)) = OK ((Z.of_nat a + 3) * 2 ^ 24 + m).
Proof.
  intros Hm Ha. unfold target_to_bits.
  rewrite compact_digits by (change (16 ^ 6) with 16777216; lia).
  set (c0 := replicate (2 * (28 - a)) "0"%char
             ++ (fixed_hex 6 m ++ replicate (2 * a) "0"%char)).
  assert (Hc0 : length c0 = 62%nat).
  { unfold c0. rewrite length_app, length_replicate, length_app,
      fixed_hex_length, length_replicate. lia. }
  rewrite Hc0.
  destruct (decide (a = 0%nat \/ 0x10000 <= m)) as [Hbig | Hsmall].
  - (* the mantissa fills three bytes, or nothing follows it *)
    assert (Hs : strip_zero_bytes 62 c0 = fixed_hex 6 m ++ replicate (2 * a) "0"%char).
    { unfold c0. apply strip_zero_bytes_zeros.
      - lia.
      - rewrite length_app, fixed_hex_length, length_replicate. lia.
      - rewrite length_app, fixed_hex_length, length_replicate.
        destruct Hbig as [-> | Hbig]; [left; reflexivity | right].
        rewrite take_app_le by (rewrite fixed_hex_length; lia).
        change (fixed_hex 6 m) with (fixed_hex (2 + 4) m). rewrite fixed_hex_take.
        apply fixed_hex_2_nonzero. change (16 ^ Z.of_nat 4) with 65536.
        split; [apply Z.div_le_lower_bound; lia | apply Z.div_lt_upper_bound; lia]. }
    rewrite Hs. unfold slice, len.
    change (Z.to_nat (6 - 0)) with 6%nat. change (Z.to_nat 0) with 0%nat. rewrite drop_0.
    rewrite take_app_length' by (rewrite fixed_hex_length; reflexivity).
    destruct (bfh_fixed_hex_6 m) as (bs & -> & Hint); [lia|].
    rewrite bind_OK, Hint.
    destruct (Z.leb_spec 0x800000 m) as [Hge | _]; [lia|].
    rewrite length_app, fixed_hex_length, length_replicate.
    replace (Z.of_nat (6 + 2 * a) / 2) with (Z.of_nat a + 3).
    2:{ apply Z.div_unique with (r := 0); lia. }
    rewrite lor_shiftl_24 by lia. reflexivity.
  - (* a short mantissa followed by zero bytes: one more byte is stripped *)
    assert (Ha1 : (1 <= a)%nat) by (destruct a; [tauto | lia]).
    assert (Hm16 : m < 0x10000) by lia.
    assert (Hs : strip_zero_bytes 62 c0 = fixed_hex 4 m ++ replicate (2 * a) "0"%char).
    { unfold c0. change (fixed_hex 6 m) with (fixed_hex (2 + 4) m).
      rewrite (fixed_hex_small 2 4) by (change (16 ^ Z.of_nat 4) with 65536; lia).
      rewrite <- (app_assoc (replicate 2 "0"%char)), (app_assoc (replicate _ "0"%char)).
      rewrite <- replicate_add.
      replace (2 * (28 - a) + 2)%nat with (2 * (29 - a))%nat by lia.
      apply strip_zero_bytes_zeros.
      - lia.
      - rewrite length_app, fixed_hex_length, length_replicate. lia.
      - right. rewrite take_app_le by (rewrite fixed_hex_length; lia).
        change (fixed_hex 4 m) with (fixed_hex (2 + 2) m). rewrite fixed_hex_take.
        apply fixed_hex_2_nonzero. change (16 ^ Z.of_nat 2) with 256.
        split; [apply Z.div_le_lower_bound; lia | apply Z.div_lt_upper_bound; lia]. }
    rewrite Hs. unfold slice, len.
    change (Z.to_nat (6 - 0)) with 6%nat. change (Z.to_nat 0) with 0%nat. rewrite drop_0.
    rewrite take_app_ge by (rewrite fixed_hex_length; lia).
    rewrite fixed_hex_length, take_replicate.
    replace ((6 - 4) `min` (2 * a))%nat with 2%nat by lia.
    rewrite <- (fixed_hex_shift 4 2 m).
    destruct (bfh_fixed_hex_6 (m * 16 ^ Z.of_nat 2)) as (bs & Hbs & Hint);
      [change (16 ^ Z.of_nat 2) with 256; lia|].
    change (4 + 2)%nat with 6%nat. rewrite Hbs.
    rewrite bind_OK, Hint. change (16 ^ Z.of_nat 2) with 256.
    destruct (Z.leb_spec 0x800000 (m * 256)) as [_ | Hlt]; [|lia].
    rewrite length_app, fixed_hex_length, length_replicate.
    replace (Z.of_nat (4 + 2 * a) / 2 + 1) with (Z.of_nat a + 3).
    2:{ replace (Z.of_nat (4 + 2 * a)) with ((Z.of_nat a + 2) * 2) by lia.
        rewrite Z.div_mul by lia. lia. }
    rewrite Z.shiftr_div_pow2 by lia.
    change (2 ^ 8) with 256. rewrite Z.div_mul by lia.
    rewrite lor_shiftl_24 by lia. reflexivity.
Qed.

(** C1.  For every canonical compact value [b] (a 32-bit word with exponent
    byte in [0x03, 0x1f] and mantissa in [0x8000, 0x7fffff]),
    [bits_to_target b] succeeds and [target_to_bits] maps its result back to
    [b]: [target_to_bits(bits_to_target(b)) == b]. *)
Theorem C1_target_to_bits_bits_to_target (b : Z) :
  canonical_bits b ->
  (let! t := bits_to_target b in target_to_bits t) = OK b.
Proof.
  intros Hc. pose proof (canonical_bits_split b Hc) as (Hb & He & Hm).
  destruct Hc as (Hrange & Hexp & Hman).
  unfold bits_to_target.
  set (e := Z.land (Z.shiftr b 24) 0xff) in *.
  set (m := Z.land b 0xffffff) in *.
  destruct (Z.leb_spec 3 e); [|lia]. destruct (Z.leb_spec e 0x1f); [|lia].
  destruct (Z.leb_spec 0x8000 m); [|lia]. destruct (Z.leb_spec m 0x7fffff); [|lia].
  cbn [andb negb]. rewrite bind_OK.
  rewrite Z.shiftl_mul_pow2 by lia.
  replace (2 ^ (8 * (e - 3))) with (16 ^ Z.of_nat (2 * Z.to_nat (e - 3))).
  2:{ rewrite Nat2Z.inj_mul, Z2Nat.id by lia.
      change 16 with (2 ^ 4). rewrite <- Z.pow_mul_r by lia. f_equal. simpl Z.of_nat. lia. }
  rewrite target_to_bits_compact by lia.
  rewrite Z2Nat.id by lia. f_equal. lia.
Qed.

(** C9.  For every target [t] in [0, 2^256), the most significant byte of
    the 64-digit rendering is discarded before compaction: the digits that
    [target_to_bits] works on are the 62 digits of [t mod 2^248], and so
    [target_to_bits t = target_to_bits (t mod 2^248)]. *)
Theorem C9_target_to_bits_mod_2_248 (t : Z) :
  0 <= t < 2 ^ 256 ->
  slice_from 2 (format_064x t) = fixed_hex 62 (t mod 2 ^ 248) /\
  target_to_bits t = target_to_bits (t mod 2 ^ 248).
Proof.
  intros Ht. split; [apply target_to_bits_digits; exact Ht|].
  assert (Hm : 0 <= t mod 2 ^ 248 < 2 ^ 248) by (apply Z.mod_pos_bound; lia).
  unfold target_to_bits.
  rewrite (target_to_bits_digits t) by exact Ht.
  rewrite (target_to_bits_digits (t mod 2 ^ 248))
    by (change (2 ^ 256) with (2 ^ 248 * 256); lia).
  rewrite Z.mod_mod by lia. reflexivity.
Qed.

(** ** [target_to_bits] on any target *)

Lemma target_to_bits_split (m r : Z) (a : nat) :
  (a <= 28)%nat -> 0 <= r < 16 ^ Z.of_nat (2 * a) -> 0 <= m < 2 ^ 24 ->
  a = 0%nat \/ 0x10000 <= m ->
  target_to_bits (m * 16 ^ Z.of_nat (2 * a) + r)
  = OK (if 0x800000 <=? m then (Z.of_nat a + 4) * 2 ^ 24 + m / 256
        else (Z.of_nat a + 3) * 2 ^ 24 + m).
Proof.
  intros Ha Hr Hm Hbig. unfold target_to_bits.
  pose proof (pow16_pos (2 * a)) as Hp.
  assert (Hle : 16 ^ Z.of_nat (2 * a) <= 16 ^ 56) by (apply Z.pow_le_mono_r; lia).
  assert (Ht : 0 <= m * 16 ^ Z.of_nat (2 * a) + r < 2 ^ 248).
  { split; [nia|]. change (2 ^ 248) with (2 ^ 24 * 16 ^ 56). nia. }
  rewrite target_to_bits_digits by (change (2 ^ 256) with (2 ^ 248 * 256); lia).
  rewrite Z.mod_small by exact Ht.
  replace 62%nat with ((2 * (28 - a) + 6) + 2 * a)%nat by lia.
  rewrite fixed_hex_app.
  rewrite Z.div_add_l, (Z.div_small r), Z.add_0_r by lia.
  rewrite Z.add_comm, Z.mod_add, (Z.mod_small r) by lia.
  rewrite fixed_hex_small by (simpl Z.of_nat; change (16 ^ 6) with (2 ^ 24); lia).
  rewrite <- app_assoc.
  set (tail := fixed_hex (2 * a) r).
  assert (Htail : length tail = (2 * a)%nat) by apply fixed_hex_length.
  set (c0 := replicate (2 * (28 - a)) "0"%char ++ (fixed_hex 6 m ++ tail)).
  assert (Hc0 : length c0 = 62%nat).
  { unfold c0. rewrite length_app, length_replicate, length_app, fixed_hex_length, Htail.
    lia. }
  rewrite Hc0.
  assert (Hs : strip_zero_bytes 62 c0 = fixed_hex 6 m ++ tail).
  { unfold c0. apply strip_zero_bytes_zeros.
    - lia.
    - rewrite length_app, fixed_hex_length. lia.
    - rewrite length_app, fixed_hex_length, Htail.
      destruct Hbig as [-> | Hbig]; [left; reflexivity | right].
      rewrite take_app_le by (rewrite fixed_hex_length; lia).
      change (fixed_hex 6 m) with (fixed_hex (2 + 4) m). rewrite fixed_hex_take.
      apply fixed_hex_2_nonzero. change (16 ^ Z.of_nat 4) with 65536.
      split; [apply Z.div_le_lower_bound; lia | apply Z.div_lt_upper_bound; lia]. }
  rewrite Hs. unfold slice, len.
  change (Z.to_nat (6 - 0)) with 6%nat. change (Z.to_nat 0) with 0%nat. rewrite drop_0.
  rewrite take_app_length' by (rewrite fixed_hex_length; reflexivity).
  destruct (bfh_fixed_hex_6 m) as (bs & -> & Hint); [lia|].
  rewrite bind_OK, Hint.
  rewrite length_app, fixed_hex_length, Htail.
  replace (Z.of_nat (6 + 2 * a) / 2) with (Z.of_nat a + 3).
  2:{ apply Z.div_unique with (r := 0); lia. }
  destruct (Z.leb_spec 0x800000 m) as [Hge | Hlt].
  - rewrite Z.shiftr_div_pow2 by lia. change (2 ^ 8) with 256.
    assert (0 <= m / 256 < 2 ^ 24).
    { split; [apply Z.div_pos; lia | apply Z.div_lt_upper_bound; lia]. }
    rewrite lor_shiftl_24 by lia. f_equal. lia.
  - rewrite lor_shiftl_24 by lia. reflexivity.
Qed.

Lemma compact_parts (e base : Z) :
  0 <= e < 256 -> 0 <= base < 2 ^ 24 ->
  Z.land (Z.shiftr (e * 2 ^ 24 + base) 24) 0xff = e /\
  Z.land (e * 2 ^ 24 + base) 0xffffff = base.
Proof.
  intros He Hb. rewrite Z.shiftr_div_pow2 by lia.
  rewrite Z.div_add_l, (Z.div_small base), Z.add_0_r by lia.
  change 0xff with (Z.ones 8). change 0xffffff with (Z.ones 24).
  rewrite !Z.land_ones by lia.
  rewrite Z.add_comm, Z.mod_add, (Z.mod_small base) by lia.
  split; [apply Z.mod_small; lia | reflexivity].
Qed.

(** The number of bytes of [t] beyond three. *)
Lemma byte_length_split (t : Z) :
  0 < t < 2 ^ 247 ->
  exists a : nat,
    (a <= 28)%nat /\ t / 16 ^ Z.of_nat (2 * a) < 2 ^ 24 /\
    (a = 0%nat \/ 0x10000 <= t / 16 ^ Z.of_nat (2 * a)) /\
    (a = 28%nat -> t / 16 ^ Z.of_nat (2 * a) < 0x800000).
Proof.
  intros Ht.
  pose proof (Z.log2_spec t (proj1 Ht)) as [Hlo Hhi].
  pose proof (Z.log2_nonneg t) as Hl0.
  assert (Hl : Z.log2 t < 247).
  { apply Z.log2_lt_pow2; lia. }
  destruct (Z.ltb_spec (Z.log2 t) 24) as [Hsmall | Hbig].
  - exists 0%nat. change (16 ^ Z.of_nat (2 * 0)) with 1. rewrite Z.div_1_r.
    split; [lia|]. split.
    + eapply Z.lt_le_trans; [exact Hhi|]. apply Z.pow_le_mono_r; lia.
    + split; [left; reflexivity | intros; discriminate].
  - set (a := Z.log2 t / 8 - 2).
    assert (Ha : 1 <= a <= 28).
    { unfold a. split.
      - assert (3 <= Z.log2 t / 8) by (apply Z.div_le_lower_bound; lia). lia.
      - assert (Z.log2 t / 8 < 31) by (apply Z.div_lt_upper_bound; lia). lia. }
    exists (Z.to_nat a).
    assert (Hpow : 16 ^ Z.of_nat (2 * Z.to_nat a) = 2 ^ (8 * a)).
    { replace (Z.of_nat (2 * Z.to_nat a)) with (2 * a) by lia.
      change 16 with (2 ^ 4). rewrite <- Z.pow_mul_r by lia. f_equal. lia. }
    rewrite Hpow.
    assert (Hp : 0 < 2 ^ (8 * a)) by (apply Z.pow_pos_nonneg; lia).
    pose proof (Z.div_mod (Z.log2 t) 8 ltac:(lia)) as Hdm.
    pose proof (Z.mod_pos_bound (Z.log2 t) 8 ltac:(lia)) as Hmb.
    split; [lia|]. split; [|split].
    + apply Z.div_lt_upper_bound; [lia|].
      rewrite <- Z.pow_add_r by lia.
      eapply Z.lt_le_trans; [exact Hhi|]. apply Z.pow_le_mono_r; lia.
    + right. apply Z.div_le_lower_bound; [lia|].
      change 65536 with (2 ^ 16). rewrite Z.mul_comm, <- Z.pow_add_r by lia.
      eapply Z.le_trans; [|exact Hlo]. apply Z.pow_le_mono_r; lia.
    + intros Ha28. assert (a = 28) by lia.
      apply Z.div_lt_upper_bound; [lia|].
      change 8388608 with (2 ^ 23). rewrite <- Z.pow_add_r by lia.
      replace (8 * a + 23) with 247 by lia. lia.
Qed.

(** X18.  [target_to_bits] rounds down: for every target from [0x8000]
    up to (excluding) [2^247] it gives a canonical compact value, which
    [bits_to_target] expands to a target that is not above the given one
    and falls short of it by less than one part in 32768. *)
Theorem X18_target_to_bits_rounds_down (t : Z) :
  0x8000 <= t < 2 ^ 247 ->
  exists b t',
    target_to_bits t = OK b /\ canonical_bits b /\ bits_to_target b = OK t' /\
    t' <= t /\ (t - t') * 32768 < t'.
Proof.
  intros Ht.
  destruct (byte_length_split t) as (a & Ha & Hm24 & Hbig & Htop); [lia|].
  set (p := 16 ^ Z.of_nat (2 * a)) in *.
  assert (Hp : 0 < p) by apply pow16_pos.
  set (m := t / p) in *. set (r := t mod p).
  assert (Hr : 0 <= r < p) by (apply Z.mod_pos_bound; exact Hp).
  assert (Hm0 : 0 <= m) by (apply Z.div_pos; lia).
  assert (Hsplit : t = m * p + r).
  { unfold m, r. rewrite Z.mul_comm. apply Z.div_mod. lia. }
  assert (Hm15 : 0x8000 <= m).
  { destruct Hbig as [-> | Hbig]; [|lia].
    unfold m, p. change (16 ^ Z.of_nat (2 * 0)) with 1. rewrite Z.div_1_r. lia. }
  pose proof (target_to_bits_split m r a Ha Hr (conj Hm0 Hm24) Hbig) as Hbits.
  fold p in Hbits. rewrite <- Hsplit in Hbits.
  assert (Hshift : forall base e : Z, 0 <= base -> 0 <= e ->
            Z.shiftl base (8 * e) = base * 16 ^ (2 * e)).
  { intros base e Hb He. rewrite Z.shiftl_mul_pow2 by lia. f_equal.
    change 16 with (2 ^ 4). rewrite <- Z.pow_mul_r by lia. f_equal. lia. }
  destruct (Z.leb_spec 0x800000 m) as [Hge | Hlt].
  - (* four significant bytes: the mantissa is shifted by one more byte *)
    assert (Ha27 : (a <= 27)%nat).
    { destruct (decide (a = 28%nat)) as [Ha28 | ?]; [specialize (Htop Ha28); lia | lia]. }
    assert (Hb : 0x8000 <= m / 256 <= 0x7fffff).
    { split; [apply Z.div_le_lower_bound; lia|].
      assert (m / 256 < 2 ^ 16) by (apply Z.div_lt_upper_bound; lia). lia. }
    destruct (compact_parts (Z.of_nat a + 4) (m / 256)) as [He Hbase]; [lia | lia |].
    exists ((Z.of_nat a + 4) * 2 ^ 24 + m / 256), (m / 256 * (256 * p)).
    split; [exact Hbits|]. split; [|split].
    + unfold canonical_bits. rewrite He, Hbase.
      split; [|lia]. split; [lia|]. change (2 ^ 32) with (256 * 2 ^ 24). nia.
    + unfold bits_to_target. rewrite He, Hbase.
      destruct (Z.leb_spec 3 (Z.of_nat a + 4)); [|lia].
      destruct (Z.leb_spec (Z.of_nat a + 4) 31); [|lia].
      destruct (Z.leb_spec 32768 (m / 256)); [|lia].
      destruct (Z.leb_spec (m / 256) 8388607); [|lia].
      cbn [andb negb]. rewrite Hshift by lia. f_equal. f_equal.
      unfold p. replace (2 * (Z.of_nat a + 4 - 3)) with (2 + Z.of_nat (2 * a)) by lia.
      rewrite Z.pow_add_r by lia. reflexivity.
    + pose proof (Z.div_mod m 256 ltac:(lia)) as Hdm.
      pose proof (Z.mod_pos_bound m 256 ltac:(lia)) as Hmb.
      split; nia.
  - destruct (compact_parts (Z.of_nat a + 3) m) as [He Hbase]; [lia | lia |].
    exists ((Z.of_nat a + 3) * 2 ^ 24 + m), (m * p).
    split; [exact Hbits|]. split; [|split].
    + unfold canonical_bits. rewrite He, Hbase.
      split; [|lia]. split; [lia|]. change (2 ^ 32) with (256 * 2 ^ 24). nia.
    + unfold bits_to_target. rewrite He, Hbase.
      destruct (Z.leb_spec 3 (Z.of_nat a + 3)); [|lia].
      destruct (Z.leb_spec (Z.of_nat a + 3) 31); [|lia].
      destruct (Z.leb_spec 32768 m); [|lia].
      destruct (Z.leb_spec m 8388607); [|lia].
      cbn [andb negb]. rewrite Hshift by lia. f_equal. f_equal.
      unfold p. f_equal. lia.
    + split; nia.
Qed.

Section Properties.

Context {net : NetParams} {digest : Sha256d}.

(** ** C2: file offsets *)

Lemma get_header_size_fork : get_header_size (EQUIHASH_FORK_HEIGHT net) = HDR_LEN_FORK net.
Proof.
  unfold get_header_size, is_post_equihash_fork.
  rewrite Z.leb_refl. reflexivity.
Qed.

Lemma get_offset_pre_fork (checkpoint h : Z) :
  h < EQUIHASH_FORK_HEIGHT net ->
  get_offset checkpoint h = (h - checkpoint) * HDR_LEN net.
Proof.
  intros Hh. unfold get_offset, is_post_equihash_fork.
  destruct (Z.leb_spec (EQUIHASH_FORK_HEIGHT net) h); [lia|].
  cbn [negb]. lia.
Qed.

Lemma get_offset_post_fork (checkpoint h : Z) :
  EQUIHASH_FORK_HEIGHT net <= h ->
  get_offset checkpoint h
  = EQUIHASH_FORK_HEIGHT net * HDR_LEN net
    + (h - Z.max checkpoint (EQUIHASH_FORK_HEIGHT net)) * HDR_LEN_FORK net.
Proof.
  intros Hh. unfold get_offset. rewrite get_header_size_fork.
  unfold is_post_equihash_fork.
  destruct (Z.leb_spec (EQUIHASH_FORK_HEIGHT net) h); [|lia].
  reflexivity.
Qed.

(** On the trunk ([checkpoint = 0]) the offset is the closed form. *)
Lemma get_offset_trunk (h : Z) :
  0 <= EQUIHASH_FORK_HEIGHT net -> 0 <= h ->
  get_offset 0 h = offset_closed_form 0 h.
Proof.
  intros HF Hh. unfold offset_closed_form.
  destruct (Z.lt_ge_cases h (EQUIHASH_FORK_HEIGHT net)) as [Hlt | Hge].
  - rewrite get_offset_pre_fork by lia.
    replace (Z.max 0 (Z.min h (EQUIHASH_FORK_HEIGHT net) - 0)) with (h - 0) by lia.
    replace (Z.max 0 (h - Z.max 0 (EQUIHASH_FORK_HEIGHT net))) with 0 by lia.
    lia.
  - rewrite get_offset_post_fork by lia.
    replace (Z.max 0 (Z.min h (EQUIHASH_FORK_HEIGHT net) - 0))
      with (EQUIHASH_FORK_HEIGHT net) by lia.
    replace (Z.max 0 (h - Z.max 0 (EQUIHASH_FORK_HEIGHT net)))
      with (h - Z.max 0 (EQUIHASH_FORK_HEIGHT net)) by lia.
    reflexivity.
Qed.

(** C2.  What [get_offset] computes from the Equihash fork on: the whole
    pre-fork region [EQUIHASH_FORK_HEIGHT * HDR_LEN] is counted whatever the
    checkpoint, so for [checkpoint <= height] the result exceeds the closed
    form [pre * HDR_LEN + post * HDR_LEN_FORK] of the specification by
    [min(checkpoint, EQUIHASH_FORK_HEIGHT) * HDR_LEN]; the two agree only
    for a file starting at height 0. *)
Theorem C2_get_offset_post_fork_excess (checkpoint h : Z) :
  checkpoint <= h -> EQUIHASH_FORK_HEIGHT net <= h ->
  get_offset checkpoint h
  = offset_closed_form checkpoint h
    + Z.min checkpoint (EQUIHASH_FORK_HEIGHT net) * HDR_LEN net.
Proof.
  intros Hc Hh. rewrite get_offset_post_fork by exact Hh.
  unfold offset_closed_form.
  replace (Z.max 0 (h - Z.max checkpoint (EQUIHASH_FORK_HEIGHT net)))
    with (h - Z.max checkpoint (EQUIHASH_FORK_HEIGHT net)) by lia.
  replace (EQUIHASH_FORK_HEIGHT net)
    with (Z.max 0 (Z.min h (EQUIHASH_FORK_HEIGHT net) - checkpoint)
          + Z.min checkpoint (EQUIHASH_FORK_HEIGHT net)) at 1 by lia.
  lia.
Qed.

(** ** C7: reading a header from the store *)

Lemma read_header_negative (self : Blockchain) (h : Z) :
  h < 0 -> read_header self h = OK None.
Proof.
  intros Hh. unfold read_header.
  destruct (Z.ltb_spec h 0); [reflexivity | lia].
Qed.

Lemma read_header_above_tip (self : Blockchain) (h : Z) :
  forkpoint self <= h -> height self < h -> read_header self h = OK None.
Proof.
  intros Hf Hh. unfold read_header.
  destruct (Z.ltb_spec h 0); [reflexivity|].
  destruct (Z.ltb_spec h (forkpoint self)); [lia|].
  destruct (Z.ltb_spec (height self) h); [reflexivity | lia].
Qed.

(** Within the chain's own range the header is decoded from
    [get_header_size h] bytes at [get_offset (forkpoint self) h], and a
    block of zero bytes stands for an empty slot. *)
Lemma read_header_own_range (self : Blockchain) (h : Z) (data : bytes) :
  0 <= h -> forkpoint self <= h <= height self ->
  headers_file self = File data ->
  0 <= get_offset (forkpoint self) h ->
  0 <= get_header_size h ->
  let raw := take (Z.to_nat (get_header_size h))
                  (drop (Z.to_nat (get_offset (forkpoint self) h)) data) in
  len raw = get_header_size h ->
  read_header self h =
    if bool_decide (raw = replicate (Z.to_nat (get_header_size h)) x00) then OK None
    else let! hd := deserialize_header raw h in OK (Some hd).
Proof.
  intros H0 Hr Hfile Hoff Hsz raw Hlen. unfold read_header.
  destruct (Z.ltb_spec h 0); [lia|].
  destruct (Z.ltb_spec h (forkpoint self)); [lia|].
  destruct (Z.ltb_spec (height self) h); [lia|].
  rewrite Hfile. unfold seek_read.
  destruct (Z.ltb_spec (get_offset (forkpoint self) h) 0); [lia|].
  destruct (Z.ltb_spec (get_header_size h) 0); [lia|].
  rewrite bind_OK. fold raw.
  destruct (Z.ltb_spec (len raw) (get_header_size h)); [lia|].
  rewrite bind_OK. reflexivity.
Qed.

(** C7.  For a height below the chain's forkpoint (and not negative),
    [read_header] does not reach the parent chain: the delegation
    [self.parent().read_header(height)] calls the attribute [self.parent],
    which holds a [Blockchain] (or [None]) and is not callable, so the call
    raises [TypeError] whatever the parent stores at that height. *)
Theorem C7_read_header_below_forkpoint (self : Blockchain) (h : Z) :
  0 <= h < forkpoint self -> read_header self h = Raise TypeError.
Proof.
  intros Hh. unfold read_header.
  destruct (Z.ltb_spec h 0); [lia|].
  destruct (Z.ltb_spec h (forkpoint self)); [reflexivity | lia].
Qed.

(** ** Hashes are 64 hexadecimal digits *)

Lemma bh2u_length (bs : bytes) : length (bh2u bs) = (2 * length bs)%nat.
Proof.
  unfold bh2u. induction bs as [|b bs IH]; [reflexivity|].
  cbn [flat_map app length]. rewrite IH. lia.
Qed.

Lemma hash_encode_length (bs : bytes) : length (hash_encode bs) = (2 * length bs)%nat.
Proof. unfold hash_encode. rewrite bh2u_length, length_reverse. reflexivity. Qed.

Lemma byte_val_range (b : byte) : 0 <= byte_val b < 256.
Proof. unfold byte_val. pose proof (Byte.to_N_bounded b). lia. Qed.

Lemma hex_digits_value_bh2u (bs : bytes) :
  forall acc, exists v, hex_digits_value acc (bh2u bs) = OK v.
Proof.
  unfold bh2u. induction bs as [|b bs IH]; intros acc.
  - exists acc. reflexivity.
  - pose proof (byte_val_range b) as Hb.
    cbn [flat_map app hex_digits_value].
    rewrite hex_val_hex_char
      by (split; [apply Z.div_pos; lia | apply Z.div_lt_upper_bound; lia]).
    rewrite hex_val_hex_char by (apply Z.mod_pos_bound; lia).
    apply IH.
Qed.

Lemma int_of_0x_bh2u (bs : bytes) :
  bs <> [] -> exists v, int_of_0x (bh2u bs) = OK v.
Proof.
  intros Hne. unfold int_of_0x.
  destruct (bh2u bs) as [|c s] eqn:Hs.
  - apply (f_equal length) in Hs. rewrite bh2u_length in Hs.
    destruct bs; [congruence | simpl in Hs; lia].
  - rewrite <- Hs. apply hex_digits_value_bh2u.
Qed.

Lemma hash_header_shape (hd : header) (hx : pystr) :
  hash_header (Some hd) = OK hx ->
  length hx = 64%nat /\ exists v, int_of_0x hx = OK v.
Proof.
  unfold hash_header. intros H.
  destruct (serialize_header (fill_prev_block_hash hd)) as [e | s]; [discriminate|].
  rewrite bind_OK in H.
  destruct (bfh s) as [e | b]; [discriminate|].
  rewrite bind_OK in H. injection H as <-.
  split.
  - rewrite hash_encode_length, sha256d_length. reflexivity.
  - unfold hash_encode. apply int_of_0x_bh2u.
    intros Hnil. apply (f_equal length) in Hnil.
    rewrite length_reverse, sha256d_length in Hnil. discriminate.
Qed.

Lemma hex_val_range (c : ascii) (d : Z) : hex_val c = Some d -> 0 <= d < 16.
Proof.
  unfold hex_val. set (n := Z.of_nat (nat_of_ascii c)).
  destruct (Z.leb_spec 48 n), (Z.leb_spec n 57); cbn [andb];
    try (intros [= <-]; lia);
    destruct (Z.leb_spec 97 n), (Z.leb_spec n 102); cbn [andb];
    try (intros [= <-]; lia);
    destruct (Z.leb_spec 65 n), (Z.leb_spec n 70); cbn [andb];
    try (intros [= <-]; lia); discriminate.
Qed.

Lemma hex_digits_value_bound (s : pystr) :
  forall acc v, 0 <= acc -> hex_digits_value acc s = OK v ->
                0 <= v < (acc + 1) * 16 ^ len s.
Proof.
  unfold len. induction s as [|c s IH]; intros acc v Hacc H.
  - injection H as <-. simpl. lia.
  - cbn [hex_digits_value] in H. destruct (hex_val c) as [d|] eqn:Hd; [|discriminate].
    apply hex_val_range in Hd. apply IH in H; [|lia].
    cbn [length]. rewrite Nat2Z.inj_succ, Z.pow_succ_r by lia.
    pose proof (pow16_pos (length s)). nia.
Qed.

Lemma is_Exception_all (e : exn) : is_Exception e = true.
Proof. destruct e; reflexivity. Qed.

(** ** C10: [check_hash] and [check_header] *)

(** C10.  For every height and every 64-character string [s],
    [check_hash] returns a boolean and propagates no exception: whatever
    [get_hash] raises is caught and yields [False].  [check_header] returns a
    boolean for every header that [hash_header] can hash; its call of
    [hash_header] stands outside the [try] block. *)
Theorem C10_check_hash_returns_bool
    (self : Blockchain) (h : Z) (s : pystr) (hd : header) :
  (len s = 64 ->
   exists b, check_hash self h s = OK b /\ (raises (get_hash self h) -> b = false)) /\
  ((exists hx, hash_header (Some hd) = OK hx) ->
   exists b, check_header self hd = OK b).
Proof.
  assert (Hch : forall h' s', len s' = 64 ->
            exists b, check_hash self h' s' = OK b
                      /\ (raises (get_hash self h') -> b = false)).
  { intros h' s' Hs. unfold check_hash. rewrite Hs. cbn [Z.eqb Pos.eqb negb].
    destruct (get_hash self h') as [e | x].
    - rewrite is_Exception_all. exists false. split; [reflexivity | auto].
    - eexists. split; [reflexivity|]. simpl. tauto. }
  split.
  - apply Hch.
  - intros [hx Hhx]. unfold check_header. rewrite Hhx, bind_OK.
    destruct (hash_header_shape hd hx Hhx) as [Hlen _].
    destruct (Hch (block_height hd) hx) as (b & Hb & _).
    + unfold len. rewrite Hlen. reflexivity.
    + exists b. exact Hb.
Qed.

(** ** C6: [verify_header] *)

Lemma fill_prev_block_hash_present (hd : header) (p : pystr) :
  prev_block_hash hd = Some p -> fill_prev_block_hash hd = hd.
Proof. unfold fill_prev_block_hash. intros ->. reflexivity. Qed.

Lemma fill_prev_block_hash_absent (hd : header) :
  prev_block_hash hd = None ->
  prev_block_hash (fill_prev_block_hash hd) = Some (replicate 64 "0"%char).
Proof. unfold fill_prev_block_hash. intros ->. reflexivity. Qed.

Lemma fill_prev_block_hash_bits (hd : header) :
  bits (fill_prev_block_hash hd) = bits hd.
Proof. unfold fill_prev_block_hash. destruct (prev_block_hash hd); reflexivity. Qed.

(** C6.  On mainnet, for a header that [hash_header] can hash,
    [verify_header] raises if and only if the previous-block hash of the
    header differs from [prev_hash] (a header without one having been given
    64 zeros by [hash_header]), or [target_to_bits target] is not the
    header's [bits], or the header hash read as an integer exceeds
    [target]; otherwise it returns normally.  The header dict is left as
    [hash_header] leaves it: unchanged when it had a [prev_block_hash], with
    64 zeros stored in that field when it had none. *)
Theorem C6_verify_header_mainnet
    (hd : header) (prev_hash : pystr) (target : Z) (hx : pystr) :
  TESTNET net = false ->
  hash_header (Some hd) = OK hx ->
  exists v, int_of_0x hx = OK v /\
    fst (verify_header hd prev_hash target) = fill_prev_block_hash hd /\
    (raises (snd (verify_header hd prev_hash target)) <->
       prev_block_hash (fill_prev_block_hash hd) <> Some prev_hash
       \/ target_to_bits target <> OK (bits hd)
       \/ target < v) /\
    (~ raises (snd (verify_header hd prev_hash target)) ->
       snd (verify_header hd prev_hash target) = OK tt) /\
    (forall p, prev_block_hash hd = Some p ->
       fill_prev_block_hash hd = hd /\
       (prev_block_hash (fill_prev_block_hash hd) <> Some prev_hash <-> p <> prev_hash)).
Proof.
  intros Hmain Hhash.
  destruct (hash_header_shape hd hx Hhash) as [_ [v Hv]].
  exists v. split; [exact Hv|].
  unfold verify_header. cbn [fst snd]. split; [reflexivity|].
  rewrite Hhash, bind_OK, Hmain, fill_prev_block_hash_bits.
  split; [|split].
  - destruct (decide (Some prev_hash = prev_block_hash (fill_prev_block_hash hd)))
      as [Heq | Hne].
    + rewrite bool_decide_eq_true_2 by exact Heq. cbn [negb].
      destruct (target_to_bits target) as [e | b] eqn:Ht.
      * rewrite bind_Raise. simpl. split; [intros _ | auto].
        right; left. discriminate.
      * rewrite bind_OK. destruct (Z.eqb_spec b (bits hd)) as [-> | Hb].
        { cbn [negb]. rewrite Hv, bind_OK.
          destruct (Z.ltb_spec target v) as [Hlt | Hge]; simpl.
          - split; [intros _; right; right; exact Hlt | auto].
          - split; [tauto|]. intros [H | [H | H]]; [congruence | | lia].
            apply H. reflexivity. }
        { cbn [negb]. simpl. split; [intros _ | auto].
          right; left. intros Heq'. injection Heq' as ->. apply Hb. reflexivity. }
    + rewrite bool_decide_eq_false_2 by exact Hne. cbn [negb]. simpl.
      split; [intros _ | auto]. left. congruence.
  - intros Hnr.
    destruct (bool_decide (Some prev_hash = prev_block_hash (fill_prev_block_hash hd)));
      cbn [negb] in *; [|simpl in Hnr; tauto].
    destruct (target_to_bits target) as [e | b]; [simpl in Hnr; tauto|].
    rewrite bind_OK in *.
    destruct (b =? bits hd); cbn [negb] in *; [|simpl in Hnr; tauto].
    rewrite Hv, bind_OK in *.
    destruct (target <? v); [simpl in Hnr; tauto | reflexivity].
  - intros p Hp. rewrite (fill_prev_block_hash_present hd p Hp).
    split; [reflexivity|]. rewrite Hp. split; congruence.
Qed.

(** Whatever the digest, a header without [prev_block_hash] whose [bits]
    are those of the widest target passes all the checks against 64 zeros,
    and is no longer the dict it was. *)
Lemma verify_header_without_prev_block_hash (hd : header) :
  TESTNET net = false ->
  prev_block_hash hd = None -> bits hd = 0x2000ffff ->
  ~ raises (hash_header (Some hd)) ->
  verify_header hd (replicate 64 "0"%char) (2 ^ 256 - 1)
  = (set_prev_block_hash hd (replicate 64 "0"%char), OK tt)
  /\ set_prev_block_hash hd (replicate 64 "0"%char) <> hd.
Proof.
  intros Hmain Hprev Hbits Hhash. split.
  - destruct (hash_header (Some hd)) as [e | hx] eqn:Hhx; [simpl in Hhash; tauto|].
    destruct (hash_header_shape hd hx Hhx) as [Hlen [v Hv]].
    assert (Hb : 0 <= v < 2 ^ 256).
    { unfold int_of_0x in Hv. destruct hx as [|c hx']; [discriminate|].
      apply hex_digits_value_bound in Hv; [|lia].
      unfold len in Hv. rewrite Hlen in Hv. exact Hv. }
    unfold verify_header. rewrite Hhx, bind_OK, Hmain.
    unfold fill_prev_block_hash. rewrite Hprev.
    cbn [prev_block_hash set_prev_block_hash bits].
    rewrite bool_decide_eq_true_2 by reflexivity. cbn [negb].
    replace (target_to_bits (2 ^ 256 - 1)) with (OK 0x2000ffff : result Z)
      by (vm_compute; reflexivity).
    rewrite bind_OK, Hbits, Z.eqb_refl. cbn [negb]. rewrite Hv, bind_OK.
    destruct (Z.ltb_spec (2 ^ 256 - 1) v); [lia | reflexivity].
  - intros Heq. apply (f_equal prev_block_hash) in Heq.
    rewrite Hprev in Heq. discriminate.
Qed.

(** ** C3: the rule is chosen by the height alone *)

Lemma get_target_digishield_regime
    (self : Blockchain) (h : Z) (chunk_headers : option chunk_ctx) :
  17 < h -> ~ (265983 < h <= 266000) -> h < 765000 ->
  get_target self h chunk_headers = get_target_digishield self h chunk_headers.
Proof.
  unfold get_target, POW_AVERAGING_WINDOW, EH_EPOCH_1_END, LWMA_FORK_BLOCK.
  change (266000 - 17) with 265983.
  intros H17 Hep Hlw. destruct (Z.leb_spec h 17); [lia|].
  destruct (Z.ltb_spec 265983 h), (Z.leb_spec h 266000); cbn [andb]; try lia;
    destruct (Z.leb_spec 765000 h); try lia; reflexivity.
Qed.


(** ** True division by the damping factor *)

Lemma sgn_mul_abs (x : Z) : Z.sgn x * Z.abs x = x.
Proof. destruct x; reflexivity. Qed.

(** For [|x| < 2^53] the float [x / 4] is exact, so [int(x / 4)] is the
    quotient truncated toward zero. *)
Lemma true_div_4_exact (x : Z) :
  Z.abs x < 2 ^ 53 ->
  exists f, true_div x 4 = OK f /\ int_of_float f = Z.quot x 4.
Proof.
  intros Hx. unfold true_div.
  change (4 =? 0) with false. cbv iota.
  destruct (Z.eqb_spec x 0) as [-> | Hne].
  - eexists. split; reflexivity.
  - set (n := Z.abs x). assert (Hn : 1 <= n < 2 ^ 53) by (unfold n; lia).
    change (Z.abs 4) with 4. change (Z.log2 4) with 2. change (Z.sgn 4) with 1.
    set (L := Z.log2 n).
    assert (HL : 0 <= L < 53).
    { split; [apply Z.log2_nonneg | apply Z.log2_lt_pow2; lia]. }
    assert (HnL : 2 ^ L <= n) by (apply Z.log2_spec; lia).
    assert (Hreach : (if 0 <=? L - 2 then 4 * 2 ^ (L - 2) <=? n
                      else 4 <=? n * 2 ^ (- (L - 2))) = true).
    { destruct (Z.leb_spec 0 (L - 2)).
      - apply Z.leb_le. replace (4 * 2 ^ (L - 2)) with (2 ^ L); [exact HnL|].
        replace L with (2 + (L - 2)) at 1 by lia.
        rewrite Z.pow_add_r by lia. reflexivity.
      - apply Z.leb_le.
        assert (Hp : 2 ^ L * 2 ^ (- (L - 2)) = 4).
        { rewrite <- Z.pow_add_r by lia. replace (L + - (L - 2)) with 2 by lia.
          reflexivity. }
        assert (0 < 2 ^ (- (L - 2))) by (apply Z.pow_pos_nonneg; lia).
        nia. }
    cbv zeta. rewrite Hreach.
    replace (Z.max (L - 2 - 52) (-1074)) with (L - 54) by lia.
    destruct (Z.leb_spec 0 (L - 54)) as [Hbad | _]; [lia|].
    destruct (Z.leb_spec 971 (L - 54)) as [Hbad | _]; [lia|].
    cbn [andb].
    set (P := 2 ^ (52 - L)).
    assert (HP : 0 < P) by (apply Z.pow_pos_nonneg; lia).
    assert (Hpow : 2 ^ (- (L - 54)) = P * 4).
    { unfold P. replace (- (L - 54)) with ((52 - L) + 2) by lia.
      rewrite Z.pow_add_r by lia. reflexivity. }
    rewrite Hpow.
    assert (Hm : round_half_even (n * (P * 4)) 4 = n * P).
    { unfold round_half_even.
      replace (n * (P * 4)) with (n * P * 4) by lia.
      rewrite Z.div_mul, Z.mod_mul by lia. reflexivity. }
    rewrite Hm. eexists. split; [reflexivity|].
    unfold int_of_float. cbn [fl_m fl_e].
    destruct (Z.leb_spec 0 (L - 54)) as [Hbad | _]; [lia|].
    rewrite Hpow.
    replace (Z.sgn x * 1 * (n * P)) with (x * P)
      by (unfold n; rewrite <- (sgn_mul_abs x) at 1; lia).
    rewrite (Z.mul_comm P 4). apply Z.quot_mul_cancel_r; lia.
Qed.

(** ** Loops over a window of available headers *)

Lemma for_each_ext {A S} (xs : list A) (f g : S -> A -> result S) :
  (forall x, x ∈ xs -> forall acc, f acc x = g acc x) ->
  forall acc, for_each xs f acc = for_each xs g acc.
Proof.
  induction xs as [|x xs IH]; intros Hfg acc; [reflexivity|].
  cbn [for_each]. rewrite (Hfg x) by (left).
  destruct (g acc x) as [e | acc']; [reflexivity|].
  rewrite !bind_OK. apply IH. intros y Hy. apply Hfg. right. exact Hy.
Qed.

Lemma for_each_pure {A S} (xs : list A) (f : S -> A -> result S) (g : S -> A -> S) :
  (forall x, x ∈ xs -> forall acc, f acc x = OK (g acc x)) ->
  forall acc, for_each xs f acc = OK (fold_left g xs acc).
Proof.
  induction xs as [|x xs IH]; intros Hfg acc; [reflexivity|].
  cbn [for_each fold_left]. rewrite (Hfg x) by (left).
  rewrite bind_OK. apply IH. intros y Hy. apply Hfg. right. exact Hy.
Qed.

Lemma elem_of_range (a b k : Z) : k ∈ range a b <-> a <= k < b.
Proof. unfold range. rewrite elem_of_seqZ. lia. Qed.

Lemma fold_left_snoc_map {A B} (f : A -> B) (xs : list A) (acc : list B) :
  fold_left (fun m x => m ++ [f x]) xs acc = acc ++ map f xs.
Proof.
  revert acc. induction xs as [|x xs IH]; intros acc; cbn [fold_left map].
  - rewrite app_nil_r. reflexivity.
  - rewrite IH, <- app_assoc. reflexivity.
Qed.

(** ** The median of a window *)

Lemma py_sorted_length (l : list Z) : length (py_sorted l) = length l.
Proof.
  unfold py_sorted. apply Permutation_length, merge_sort_Permutation.
Qed.

Lemma py_index_median (l : list Z) :
  l <> [] -> py_index (py_sorted l) (len l / 2) = OK (median_of l).
Proof.
  intros Hne. unfold py_index, median_of, len.
  assert (Hl : (0 < length l)%nat) by (destruct l; [congruence | simpl; lia]).
  assert (Hi : 0 <= Z.of_nat (length l) / 2 < Z.of_nat (length l)).
  { split; [apply Z.div_pos; lia | apply Z.div_lt_upper_bound; lia]. }
  assert (H0 : (Z.of_nat (length l) / 2 <? 0) = false) by (apply Z.ltb_ge; lia).
  rewrite !H0, py_sorted_length.
  destruct (Z.leb_spec (Z.of_nat (length l)) (Z.of_nat (length l) / 2)); [lia|].
  cbn [orb].
  replace (Z.to_nat (Z.of_nat (length l) / 2)) with (length l / 2)%nat.
  2:{ change 2 with (Z.of_nat 2). rewrite <- Nat2Z.inj_div, Nat2Z.id. reflexivity. }
  destruct (py_sorted l !! (length l / 2)%nat) as [x|] eqn:Hx.
  - unfold py_sorted in Hx. rewrite (nth_lookup_Some _ _ 0 _ Hx). reflexivity.
  - apply lookup_ge_None in Hx. rewrite py_sorted_length in Hx.
    assert (length l / 2 < length l)%nat by (apply Nat.div_lt; lia). lia.
Qed.

Lemma median_of_elem (l : list Z) : l <> [] -> median_of l ∈ l.
Proof.
  intros Hne. unfold median_of.
  assert (Hl : (0 < length l)%nat) by (destruct l; [congruence | simpl; lia]).
  assert (Hlt : (length l / 2 < length (merge_sort Z.le l))%nat).
  { change (merge_sort Z.le l) with (py_sorted l). rewrite py_sorted_length.
    apply Nat.div_lt; lia. }
  destruct (lookup_lt_is_Some_2 _ _ Hlt) as [x Hx].
  rewrite (nth_lookup_Some _ _ 0 _ Hx).
  rewrite <- (merge_sort_Permutation Z.le l).
  eapply list_elem_of_lookup_2. exact Hx.
Qed.

Lemma range_nonempty (a b : Z) : a < b -> range a b <> [].
Proof.
  intros Hab Hnil. assert (Ha : a ∈ range a b) by (apply elem_of_range; lia).
  rewrite Hnil in Ha. inversion Ha.
Qed.

Lemma get_median_time_window
    (self : Blockchain) (chunk_headers : option chunk_ctx) (x : Z) (hdr : Z -> header) :
  POW_MEDIAN_BLOCK_SPAN <= x ->
  (forall k, x - POW_MEDIAN_BLOCK_SPAN <= k < x ->
     window_header self chunk_headers k = OK (hdr k)) ->
  get_median_time self x chunk_headers
  = OK (median_of (map (fun k => timestamp (hdr k)) (range (x - POW_MEDIAN_BLOCK_SPAN) x))).
Proof.
  unfold POW_MEDIAN_BLOCK_SPAN. intros Hx Hw. unfold get_median_time.
  unfold POW_MEDIAN_BLOCK_SPAN.
  replace (Z.max 0 (x - 11)) with (x - 11) by lia.
  replace (Z.max 1 x) with x by lia.
  rewrite (for_each_pure _ _ (fun m k => m ++ [timestamp (hdr k)])).
  2:{ intros k Hk acc. apply elem_of_range in Hk. rewrite Hw by lia. reflexivity. }
  rewrite bind_OK, fold_left_snoc_map, app_nil_l.
  apply py_index_median.
  intros Hnil. apply map_eq_nil in Hnil. revert Hnil. apply range_nonempty. lia.
Qed.

Lemma median_of_bounds (l : list Z) (lo hi : Z) :
  l <> [] -> (forall x, x ∈ l -> lo <= x < hi) -> lo <= median_of l < hi.
Proof. intros Hne Hb. apply Hb, median_of_elem, Hne. Qed.

(** ** C4: the Digishield rule *)

(** C4.  For every height [h] in the Digishield regime ([17 < h], [h] not
    in (265983, 266000], [h < 765000]) whose 28 preceding headers
    [h-28 .. h-1] are available (heights are not negative, so [28 <= h]),
    with 32-bit timestamps and canonical [bits],
    [get_target h = min(MAX_TARGET, (mean_target // 1020) * actual)], where
    [mean_target] is the sum of [bits_to_target] over [h-17 .. h-1] divided
    by 17, and [actual] is [median_time(h) - median_time(h-17)], damped to
    [1020 + trunc((actual - 1020) / 4)] and clamped to
    [1020*84//100, 1020*132//100]; [median_time(x)] is the median of the
    timestamps at heights [x-11 .. x-1]. *)
Theorem C4_get_target_digishield
    (self : Blockchain) (chunk_headers : option chunk_ctx) (h : Z)
    (hdr : Z -> header) (tgt : Z -> Z) :
  17 < h -> ~ (265983 < h <= 266000) -> h < 765000 -> 28 <= h ->
  (forall k, h - 28 <= k < h -> window_header self chunk_headers k = OK (hdr k)) ->
  (forall k, h - 28 <= k < h -> 0 <= timestamp (hdr k) < 2 ^ 32) ->
  (forall k, h - 17 <= k < h -> bits_to_target (bits (hdr k)) = OK (tgt k)) ->
  let median_time x := median_of (map (fun k => timestamp (hdr k)) (range (x - 11) x)) in
  let mean_target := sum_over (h - 17) h tgt / 17 in
  let damped := 1020 + Z.quot (median_time h - median_time (h - 17) - 1020) 4 in
  let actual := Z.max (1020 * 84 / 100) (Z.min (1020 * 132 / 100) damped) in
  get_target self h chunk_headers
  = OK (PyInt (Z.min MAX_TARGET (mean_target / 1020 * actual))).
Proof.
  intros H17 Hep Hlw H28 Hw Hts Hbits median_time mean_target damped actual.
  rewrite get_target_digishield_regime by assumption.
  unfold get_target_digishield, POW_AVERAGING_WINDOW.
  replace (Z.max 0 (h - 17)) with (h - 17) by lia.
  replace (Z.max 1 h) with h by lia.
  rewrite (for_each_pure _ _ (fun acc k => acc + tgt k)).
  2:{ intros k Hk acc. apply elem_of_range in Hk.
      rewrite Hw by lia. rewrite bind_OK, Hbits by lia. reflexivity. }
  rewrite bind_OK. fold (sum_over (h - 17) h tgt).
  rewrite (get_median_time_window self chunk_headers h hdr)
    by (unfold POW_MEDIAN_BLOCK_SPAN; first [lia | intros k Hk; apply Hw; lia]).
  rewrite bind_OK.
  rewrite (get_median_time_window self chunk_headers (h - 17) hdr)
    by (unfold POW_MEDIAN_BLOCK_SPAN; first [lia | intros k Hk; apply Hw; lia]).
  rewrite bind_OK. unfold POW_MEDIAN_BLOCK_SPAN.
  replace (h - 17 - 11) with (h - 28) by lia.
  fold (median_time h).
  assert (Hm2 : median_time (h - 17)
                = median_of (map (fun k => timestamp (hdr k)) (range (h - 28) (h - 17)))).
  { unfold median_time. replace (h - 17 - 11) with (h - 28) by lia. reflexivity. }
  rewrite <- Hm2.
  assert (Hb1 : 0 <= median_time h < 2 ^ 32).
  { apply median_of_bounds.
    - intros Hnil. apply map_eq_nil in Hnil. revert Hnil. apply range_nonempty. lia.
    - intros x Hx. apply list_elem_of_fmap in Hx as (k & -> & Hk).
      apply elem_of_range in Hk. apply Hts. lia. }
  assert (Hb2 : 0 <= median_time (h - 17) < 2 ^ 32).
  { apply median_of_bounds.
    - intros Hnil. apply map_eq_nil in Hnil. revert Hnil. apply range_nonempty. lia.
    - intros x Hx. apply list_elem_of_fmap in Hx as (k & -> & Hk).
      apply elem_of_range in Hk. apply Hts. lia. }
  change AVERAGING_WINDOW_TIMESPAN with 1020.
  change POW_DAMPING_FACTOR with 4.
  change MIN_ACTUAL_TIMESPAN with 856. change MAX_ACTUAL_TIMESPAN with 1346.
  destruct (true_div_4_exact (median_time h - median_time (h - 17) - 1020))
    as (f & Hf & Hint).
  { change (2 ^ 32) with 4294967296 in *. change (2 ^ 53) with 9007199254740992. lia. }
  rewrite Hf, bind_OK, Hint. fold damped. fold mean_target.
  do 2 f_equal.
  assert (Hact : (if damped <? 856 then 856
                  else if 1346 <? damped then 1346 else damped) = actual).
  { unfold actual. change (1020 * 84 / 100) with 856.
    change (1020 * 132 / 100) with 1346.
    destruct (Z.ltb_spec damped 856); [lia|].
    destruct (Z.ltb_spec 1346 damped); lia. }
  rewrite Hact.
  destruct (Z.ltb_spec MAX_TARGET (mean_target / 1020 * actual)); lia.
Qed.

(** ** C8: where the window scans find their headers *)

Lemma window_header_store_first
    (self : Blockchain) (chunk_headers : option chunk_ctx) (k : Z) (x : header) :
  read_header self k = OK (Some x) -> window_header self chunk_headers k = OK x.
Proof. intros H. unfold window_header. rewrite H. reflexivity. Qed.

Lemma window_header_chunk_fallback
    (self : Blockchain) (chunk_headers : option chunk_ctx) (k : Z) :
  read_header self k = OK None -> in_chunk chunk_headers k = true ->
  window_header self chunk_headers k = chunk_get chunk_headers k.
Proof.
  intros H Hin. unfold window_header. rewrite H, bind_OK, Hin.
  destruct (chunk_get chunk_headers k); reflexivity.
Qed.

Lemma get_median_time_ext
    (selfA selfB : Blockchain) (ctxA ctxB : option chunk_ctx) (x : Z) :
  (forall k, Z.max 0 (x - POW_MEDIAN_BLOCK_SPAN) <= k < Z.max 1 x ->
     window_header selfA ctxA k = window_header selfB ctxB k) ->
  get_median_time selfA x ctxA = get_median_time selfB x ctxB.
Proof.
  intros Hw. unfold get_median_time. f_equal.
  apply for_each_ext. intros k Hk acc. apply elem_of_range in Hk.
  rewrite Hw by exact Hk. reflexivity.
Qed.

(** Each turn of the window scans asks the backing store first and
    falls back on the in-flight context only when the store has no header
    at that height and the height lies within [min_height, max_height].
    For two runs in which the same window of headers [w] is served once
    from the in-flight context (the store having none of them) and once
    from the store, [get_target] returns the same value. *)
Lemma get_target_same_window
    (selfA selfB : Blockchain) (ctxA ctxB : option chunk_ctx) (h : Z) (w : Z -> header) :
  (forall (self : Blockchain) (ctx : option chunk_ctx) (k : Z),
     (forall x, read_header self k = OK (Some x) -> window_header self ctx k = OK x) /\
     (read_header self k = OK None -> in_chunk ctx k = true ->
        window_header self ctx k = chunk_get ctx k)) /\
  ((forall k, in_window h k ->
      read_header selfA k = OK None /\ in_chunk ctxA k = true /\
      chunk_get ctxA k = OK (w k)) ->
   (forall k, in_window h k ->
      read_header selfB k = OK (Some (w k)) /\ in_chunk ctxB k = false) ->
   get_target selfA h ctxA = get_target selfB h ctxB).
Proof.
  split.
  { intros self ctx k. split.
    - intros x. apply window_header_store_first.
    - apply window_header_chunk_fallback. }
  intros HA HB.
  assert (Hw : forall k, in_window h k ->
             window_header selfA ctxA k = window_header selfB ctxB k).
  { intros k Hk. destruct (HA k Hk) as (Hr & Hin & Hg). destruct (HB k Hk) as (Hs & _).
    rewrite (window_header_chunk_fallback _ _ _ Hr Hin), Hg.
    symmetry. apply window_header_store_first. exact Hs. }
  unfold get_target. unfold in_window in *.
  destruct (h <=? POW_AVERAGING_WINDOW) eqn:H17; [reflexivity|].
  destruct ((EH_EPOCH_1_END - POW_AVERAGING_WINDOW <? h) && (h <=? EH_EPOCH_1_END));
    [reflexivity|].
  apply Z.leb_gt in H17. unfold POW_AVERAGING_WINDOW in H17.
  destruct (LWMA_FORK_BLOCK <=? h) eqn:Hlw.
  - (* LWMA-3 *)
    apply Z.leb_le in Hlw. unfold LWMA_FORK_BLOCK in Hlw.
    unfold get_target_lwma3. unfold ZAWY_LWMA3_AVERAGING_WINDOW in *.
    destruct (true_div (60 * (60 + 1) * POW_TARGET_SPACING) 2) as [e | kf];
      [reflexivity|].
    rewrite !bind_OK. destruct (h <? 60); [reflexivity|].
    destruct (HA (h - 60 - 1)) as (Hr & Hin & Hg); [lia|].
    destruct (HB (h - 60 - 1)) as (Hs & Hout); [lia|].
    rewrite Hin, Hg, Hout, Hs, !bind_OK.
    f_equal. apply for_each_ext. intros k Hk acc. apply elem_of_range in Hk.
    rewrite Hw by lia. reflexivity.
  - (* Digishield *)
    unfold get_target_digishield, TARGET_CALC_BLOCKS, POW_AVERAGING_WINDOW,
      POW_MEDIAN_BLOCK_SPAN in *.
    change (17 + 11) with 28 in *.
    assert (Hsum : forall acc,
               for_each (range (Z.max 0 (h - 17)) (Z.max 1 h))
                 (fun mean_target k =>
                    let! header_ := window_header selfA ctxA k in
                    let! tg := bits_to_target (bits header_) in OK (mean_target + tg)) acc
               = for_each (range (Z.max 0 (h - 17)) (Z.max 1 h))
                 (fun mean_target k =>
                    let! header_ := window_header selfB ctxB k in
                    let! tg := bits_to_target (bits header_) in OK (mean_target + tg)) acc).
    { apply for_each_ext. intros k Hk acc. apply elem_of_range in Hk.
      rewrite Hw by lia. reflexivity. }
    rewrite Hsum.
    rewrite (get_median_time_ext selfA selfB ctxA ctxB h)
      by (intros k Hk; apply Hw; unfold POW_MEDIAN_BLOCK_SPAN in Hk; lia).
    rewrite (get_median_time_ext selfA selfB ctxA ctxB (h - 17))
      by (intros k Hk; apply Hw; unfold POW_MEDIAN_BLOCK_SPAN in Hk; lia).
    reflexivity.
Qed.

(** [get_target] depends on the store and the context only through the
    headers its scans obtain and, under LWMA-3, the timestamp it obtains
    for the height before the window. *)
Lemma get_target_ext
    (selfA selfB : Blockchain) (ctxA ctxB : option chunk_ctx) (h : Z) :
  (forall k,
     (if LWMA_FORK_BLOCK <=? h then h - ZAWY_LWMA3_AVERAGING_WINDOW <= k < h
      else Z.max 0 (h - TARGET_CALC_BLOCKS) <= k < h) ->
     window_header selfA ctxA k = window_header selfB ctxB k) ->
  (LWMA_FORK_BLOCK <= h ->
     (if in_chunk ctxA (h - ZAWY_LWMA3_AVERAGING_WINDOW - 1)
      then let! x := chunk_get ctxA (h - ZAWY_LWMA3_AVERAGING_WINDOW - 1) in OK (timestamp x)
      else let! x := read_header selfA (h - ZAWY_LWMA3_AVERAGING_WINDOW - 1) in
           match x with
           | Some x => OK (timestamp x)
           | None => Raise AttributeError
           end)
     = (if in_chunk ctxB (h - ZAWY_LWMA3_AVERAGING_WINDOW - 1)
        then let! x := chunk_get ctxB (h - ZAWY_LWMA3_AVERAGING_WINDOW - 1) in OK (timestamp x)
        else let! x := read_header selfB (h - ZAWY_LWMA3_AVERAGING_WINDOW - 1) in
             match x with
             | Some x => OK (timestamp x)
             | None => Raise AttributeError
             end)) ->
  get_target selfA h ctxA = get_target selfB h ctxB.
Proof.
  intros Hw Hfirst. unfold get_target.
  destruct (h <=? POW_AVERAGING_WINDOW) eqn:H17; [reflexivity|].
  destruct ((EH_EPOCH_1_END - POW_AVERAGING_WINDOW <? h) && (h <=? EH_EPOCH_1_END));
    [reflexivity|].
  apply Z.leb_gt in H17. unfold POW_AVERAGING_WINDOW in H17.
  unfold TARGET_CALC_BLOCKS, POW_AVERAGING_WINDOW, POW_MEDIAN_BLOCK_SPAN in Hw.
  change (17 + 11) with 28 in Hw.
  destruct (LWMA_FORK_BLOCK <=? h) eqn:Hlw.
  - (* LWMA-3 *)
    apply Z.leb_le in Hlw. specialize (Hfirst Hlw). unfold LWMA_FORK_BLOCK in Hlw.
    unfold get_target_lwma3.
    destruct (true_div (ZAWY_LWMA3_AVERAGING_WINDOW * (ZAWY_LWMA3_AVERAGING_WINDOW + 1)
                        * POW_TARGET_SPACING) 2) as [e | kf]; [reflexivity|].
    rewrite !bind_OK. destruct (h <? ZAWY_LWMA3_AVERAGING_WINDOW); [reflexivity|].
    rewrite Hfirst.
    match goal with |- (let! _ := ?r in _) = _ => destruct r as [e | ts0] end;
      [reflexivity|].
    rewrite !bind_OK. f_equal. apply for_each_ext. intros k Hk acc.
    apply elem_of_range in Hk.
    rewrite Hw by exact Hk. reflexivity.
  - (* Digishield *)
    unfold get_target_digishield, POW_AVERAGING_WINDOW.
    assert (Hsum : forall acc,
               for_each (range (Z.max 0 (h - 17)) (Z.max 1 h))
                 (fun mean_target k =>
                    let! header_ := window_header selfA ctxA k in
                    let! tg := bits_to_target (bits header_) in OK (mean_target + tg)) acc
               = for_each (range (Z.max 0 (h - 17)) (Z.max 1 h))
                 (fun mean_target k =>
                    let! header_ := window_header selfB ctxB k in
                    let! tg := bits_to_target (bits header_) in OK (mean_target + tg)) acc).
    { apply for_each_ext. intros k Hk acc. apply elem_of_range in Hk.
      rewrite Hw by lia. reflexivity. }
    rewrite Hsum.
    rewrite (get_median_time_ext selfA selfB ctxA ctxB h)
      by (intros k Hk; apply Hw; unfold POW_MEDIAN_BLOCK_SPAN in Hk; lia).
    rewrite (get_median_time_ext selfA selfB ctxA ctxB (h - 17))
      by (intros k Hk; apply Hw; unfold POW_MEDIAN_BLOCK_SPAN in Hk; lia).
    reflexivity.
Qed.

(** C8.  The window scans do not take a header from the in-flight context
    in preference to the backing store: each turn asks the store first, and
    a stored header is taken whatever the context holds at that height.
    When the store holds the window, [get_target] with any context returns
    what it returns with none, so a window served from the context is not
    the one the target is computed from.  Only the lookup of the header
    before the LWMA-3 window asks the context first: when the context
    covers that height, the store is not asked for it. *)
Theorem C8_get_target_scans_read_store_first
    (self selfB : Blockchain) (ctx : option chunk_ctx) (h : Z) (w : Z -> header) :
  (forall k x, read_header self k = OK (Some x) -> window_header self ctx k = OK x) /\
  ((forall k, in_window h k -> read_header self k = OK (Some (w k))) ->
   (LWMA_FORK_BLOCK <= h -> in_chunk ctx (h - ZAWY_LWMA3_AVERAGING_WINDOW - 1) = false) ->
   get_target self h ctx = get_target self h None) /\
  (LWMA_FORK_BLOCK <= h ->
   in_chunk ctx (h - ZAWY_LWMA3_AVERAGING_WINDOW - 1) = true ->
   (forall k, h - ZAWY_LWMA3_AVERAGING_WINDOW <= k < h ->
      window_header self ctx k = window_header selfB ctx k) ->
   get_target self h ctx = get_target selfB h ctx).
Proof.
  split; [|split].
  - intros k x. apply window_header_store_first.
  - intros Hstore Hout. apply get_target_ext.
    + intros k Hk.
      assert (Hin : in_window h k).
      { unfold in_window. destruct (LWMA_FORK_BLOCK <=? h); [lia | exact Hk]. }
      rewrite !(window_header_store_first _ _ _ _ (Hstore k Hin)). reflexivity.
    + intros Hl. rewrite (Hout Hl). reflexivity.
  - intros Hl Hin Hw. apply get_target_ext.
    + intros k Hk. apply Hw.
      destruct (Z.leb_spec LWMA_FORK_BLOCK h); [exact Hk | lia].
    + intros _. rewrite Hin. reflexivity.
Qed.

(** ** C3: the rule at each height *)








(** ** The trunk file: offsets add up the record sizes *)

Lemma get_offset_trunk_step (h : Z) :
  0 <= EQUIHASH_FORK_HEIGHT net -> 0 <= h ->
  get_offset 0 (h + 1) = get_offset 0 h + get_header_size h.
Proof.
  intros HF Hh. unfold get_header_size, is_post_equihash_fork.
  destruct (Z.leb_spec (EQUIHASH_FORK_HEIGHT net) h) as [Hpost | Hpre].
  - rewrite !get_offset_post_fork by lia. lia.
  - rewrite (get_offset_pre_fork 0 h) by lia.
    destruct (Z.eq_dec (h + 1) (EQUIHASH_FORK_HEIGHT net)) as [Heq | Hne].
    + rewrite get_offset_post_fork by lia. rewrite <- Heq. lia.
    + rewrite get_offset_pre_fork by lia. lia.
Qed.

Lemma foldr_add_init (f : Z -> Z) (l : list Z) (a : Z) :
  foldr (fun k acc => f k + acc) a l = foldr (fun k acc => f k + acc) 0 l + a.
Proof. induction l as [|x l IH]; cbn [foldr]; lia. Qed.

Lemma sum_header_sizes_snoc (h1 : Z) (n : nat) :
  sum_header_sizes h1 (h1 + Z.of_nat (S n))
  = sum_header_sizes h1 (h1 + Z.of_nat n) + get_header_size (h1 + Z.of_nat n).
Proof.
  unfold sum_header_sizes, range.
  replace (h1 + Z.of_nat (S n) - h1) with (Z.of_nat (S n)) by lia.
  replace (h1 + Z.of_nat n - h1) with (Z.of_nat n) by lia.
  rewrite seqZ_S, foldr_snoc, foldr_add_init. lia.
Qed.

(** On the trunk the statement of the specification holds: the distance
    between two offsets is the sum of the sizes of the records between
    them. *)
Lemma get_offset_trunk_difference (h1 h2 : Z) :
  0 <= EQUIHASH_FORK_HEIGHT net -> 0 <= h1 <= h2 ->
  get_offset 0 h2 - get_offset 0 h1 = sum_header_sizes h1 h2.
Proof.
  intros HF Hh.
  replace h2 with (h1 + Z.of_nat (Z.to_nat (h2 - h1))) by lia.
  induction (Z.to_nat (h2 - h1)) as [|n IH].
  - replace (h1 + Z.of_nat 0) with h1 by lia.
    unfold sum_header_sizes, range. rewrite !Z.sub_diag. reflexivity.
  - rewrite sum_header_sizes_snoc, <- IH.
    replace (h1 + Z.of_nat (S n)) with (h1 + Z.of_nat n + 1) by lia.
    rewrite get_offset_trunk_step by lia. lia.
Qed.

(** ** The element in the middle of the sorted list is a median *)

Lemma filter_all {A} (P : A -> Prop) `{forall x, Decision (P x)} (l : list A) :
  Forall P l -> filter P l = l.
Proof.
  induction 1 as [|x l Hx _ IH]; [reflexivity|].
  rewrite filter_cons_True by exact Hx. rewrite IH. reflexivity.
Qed.

(** At least [len // 2 + 1] of the values are at most [median_of l], and
    at least [len - len // 2] of them are at least [median_of l]. *)
Lemma median_of_is_median (l : list Z) :
  l <> [] ->
  (length l / 2 < length (filter (fun y : Z => (y <= median_of l)%Z) l))%nat /\
  (length l <= length l / 2 + length (filter (fun y : Z => (median_of l <= y)%Z) l))%nat.
Proof.
  intros Hne. unfold median_of.
  set (s := merge_sort Z.le l). set (m := (length l / 2)%nat).
  assert (Hperm : s ≡ₚ l) by apply merge_sort_Permutation.
  assert (Hlen : length s = length l) by (apply Permutation_length, Hperm).
  assert (Hl : (0 < length l)%nat) by (destruct l; [congruence | simpl; lia]).
  assert (Hm : (m < length s)%nat) by (rewrite Hlen; apply Nat.div_lt; lia).
  destruct (lookup_lt_is_Some_2 _ _ Hm) as [x Hx].
  rewrite (nth_lookup_Some _ _ 0 _ Hx).
  assert (Hsorted : StronglySorted Z.le s).
  { apply StronglySorted_merge_sort; [intros a b c; apply Z.le_trans | apply Z.le_total]. }
  pose proof (take_drop_middle s m x Hx) as Hsplit.
  rewrite <- Hsplit in Hsorted.
  assert (Hlow : Forall (fun y => y <= x) (take m s)).
  { apply Forall_forall. intros y Hy.
    eapply (StronglySorted_app_1_elem_of Z.le); [exact Hsorted | exact Hy | left]. }
  assert (Hhigh : Forall (fun y => x <= y) (drop (S m) s)).
  { apply StronglySorted_app_1_r in Hsorted. inversion Hsorted; assumption. }
  rewrite <- !(Permutation_length (filter_Permutation _ _ _ Hperm)).
  rewrite <- Hsplit, !filter_app.
  rewrite !length_app, <- Hlen.
  split.
  - rewrite (filter_all _ _ Hlow), length_take.
    rewrite filter_cons_True by lia. cbn [length]. lia.
  - rewrite filter_cons_True by lia. rewrite (filter_all _ _ Hhigh).
    cbn [length]. rewrite length_drop.
    pose proof (length_filter (fun y => x <= y) (take m s)). lia.
Qed.

(** ** The hex codecs and the scalar fields *)

Lemma byte_of_Z_val (b : byte) : byte_of_Z (byte_val b) = b.
Proof.
  unfold byte_of_Z, byte_val. rewrite N2Z.id, Byte.of_to_N. reflexivity.
Qed.

Lemma byte_val_inj (a b : byte) : byte_val a = byte_val b -> a = b.
Proof.
  intros H. rewrite <- (byte_of_Z_val a), <- (byte_of_Z_val b), H. reflexivity.
Qed.

Lemma bh2u_app (a b : bytes) : bh2u (a ++ b) = bh2u a ++ bh2u b.
Proof. unfold bh2u. apply flat_map_app. Qed.

Lemma bfh_bh2u_app (bs : bytes) (s : pystr) :
  bfh (bh2u bs ++ s) = let! r := bfh s in OK (bs ++ r).
Proof.
  induction bs as [|b bs IH].
  - simpl. destruct (bfh s); reflexivity.
  - pose proof (byte_val_range b) as Hb.
    assert (Hhi : 0 <= byte_val b / 16 < 16)
      by (split; [apply Z.div_pos; lia | apply Z.div_lt_upper_bound; lia]).
    assert (Hlo : 0 <= byte_val b mod 16 < 16) by (apply Z.mod_pos_bound; lia).
    change (bh2u (b :: bs) ++ s)
      with (hex_char (byte_val b / 16) :: hex_char (byte_val b mod 16) :: (bh2u bs ++ s)).
    cbn [bfh]. rewrite (is_space_hex_char _ Hhi), (hex_val_hex_char _ Hhi),
      (hex_val_hex_char _ Hlo), IH.
    replace (16 * (byte_val b / 16) + byte_val b mod 16) with (byte_val b)
      by (pose proof (Z.div_mod (byte_val b) 16); lia).
    rewrite byte_of_Z_val. destruct (bfh s); reflexivity.
Qed.

Lemma bfh_bh2u (bs : bytes) : bfh (bh2u bs) = OK bs.
Proof.
  rewrite <- (app_nil_r (bh2u bs)), bfh_bh2u_app. simpl. rewrite app_nil_r. reflexivity.
Qed.

Lemma rev_hex_bh2u (bs : bytes) : rev_hex (bh2u bs) = OK (bh2u (reverse bs)).
Proof. unfold rev_hex. rewrite bfh_bh2u. reflexivity. Qed.

Lemma rev_hex_hash_encode (x : bytes) : rev_hex (hash_encode x) = OK (bh2u x).
Proof. unfold hash_encode. rewrite rev_hex_bh2u, reverse_involutive. reflexivity. Qed.

Lemma hash_encode_reverse (x : bytes) : hash_encode (reverse x) = bh2u x.
Proof. unfold hash_encode. rewrite reverse_involutive. reflexivity. Qed.

Lemma hex_digits_value_bytes (bs : bytes) (acc : Z) :
  hex_digits_value acc (bh2u bs)
  = OK (fold_left (fun a b => a * 256 + byte_val b) bs acc).
Proof.
  revert acc. induction bs as [|b bs IH]; intros acc; [reflexivity|].
  pose proof (byte_val_range b) as Hb.
  change (bh2u (b :: bs))
    with (hex_char (byte_val b / 16) :: hex_char (byte_val b mod 16) :: bh2u bs).
  cbn [hex_digits_value fold_left].
  rewrite hex_val_hex_char
    by (split; [apply Z.div_pos; lia | apply Z.div_lt_upper_bound; lia]).
  rewrite hex_val_hex_char by (apply Z.mod_pos_bound; lia).
  rewrite IH. do 2 f_equal. pose proof (Z.div_mod (byte_val b) 16). lia.
Qed.

Lemma int_of_0x_bytes (bs : bytes) :
  bs <> [] -> int_of_0x (bh2u bs) = OK (int_from_bytes_big bs).
Proof.
  intros Hne. unfold int_of_0x.
  destruct (bh2u bs) as [|c s] eqn:Hs.
  - apply (f_equal length) in Hs. rewrite bh2u_length in Hs.
    destruct bs; [congruence | simpl in Hs; lia].
  - rewrite <- Hs. apply hex_digits_value_bytes.
Qed.

Lemma hex_to_int_reverse (bs : bytes) :
  bs <> [] -> hex_to_int (reverse bs) = OK (int_from_bytes_big bs).
Proof.
  intros Hne. unfold hex_to_int. rewrite reverse_involutive.
  apply int_of_0x_bytes. exact Hne.
Qed.

Lemma int_from_bytes_big_bound (bs : bytes) :
  0 <= int_from_bytes_big bs < 256 ^ len bs.
Proof.
  induction bs as [|b bs IH].
  - unfold int_from_bytes_big, len. simpl. lia.
  - rewrite int_from_bytes_big_cons. pose proof (byte_val_range b).
    unfold len in *. cbn [length]. rewrite Nat2Z.inj_succ, Z.pow_succ_r by lia. nia.
Qed.

Lemma int_from_bytes_big_inj (a : bytes) :
  forall b, length a = length b ->
            int_from_bytes_big a = int_from_bytes_big b -> a = b.
Proof.
  induction a as [|x a IH]; intros [|y b] Hlen Heq; try discriminate; [reflexivity|].
  injection Hlen as Hlen.
  rewrite !int_from_bytes_big_cons in Heq.
  pose proof (int_from_bytes_big_bound a) as Ha.
  pose proof (int_from_bytes_big_bound b) as Hb.
  pose proof (byte_val_range x). pose proof (byte_val_range y).
  unfold len in *. rewrite <- Hlen in *.
  assert (Hxy : byte_val x = byte_val y) by nia.
  f_equal; [apply byte_val_inj; exact Hxy|].
  apply IH; [exact Hlen|]. rewrite Hxy in Heq. lia.
Qed.

(** A 32-bit scalar is written as the hex of its four bytes, least
    significant first. *)
Lemma int_to_hex_4 (v : Z) :
  0 <= v < 2 ^ 32 ->
  exists bs, length bs = 4%nat /\ int_from_bytes_big bs = v /\
             int_to_hex v 4 = OK (bh2u (reverse bs)).
Proof.
  intros Hv. destruct (bfh_fixed_hex 4 v) as (bs & Hbs & Hlen & Hint); [lia|].
  exists bs. split; [exact Hlen|]. split.
  - rewrite Hint. apply Z.mod_small. change (256 ^ Z.of_nat 4) with (2 ^ 32). lia.
  - unfold int_to_hex. change (256 ^ 4) with 4294967296.
    change (2 ^ 32) with 4294967296 in Hv.
    replace (v <? - (4294967296 / 2)) with false
      by (symmetry; apply Z.ltb_ge; change (4294967296 / 2) with 2147483648; lia).
    destruct (Z.leb_spec 4294967296 v); [lia|].
    cbn [orb]. destruct (Z.ltb_spec v 0); [lia|].
    change (Z.to_nat (2 * 4)) with 8%nat.
    fold (zfill 8 (format_x v)).
    rewrite format_x_fixed by (change (16 ^ Z.of_nat 8) with 4294967296; lia).
    unfold rev_hex. change 8%nat with (2 * 4)%nat. rewrite Hbs. reflexivity.
Qed.

(** Four stored bytes are read as a scalar that is written back as the
    same four bytes. *)
Lemma int_to_hex_hex_to_int (s : bytes) :
  length s = 4%nat ->
  exists v, hex_to_int s = OK v /\ 0 <= v < 2 ^ 32 /\ int_to_hex v 4 = OK (bh2u s).
Proof.
  intros Hlen. exists (int_from_bytes_big (reverse s)).
  assert (Hne : reverse s <> []).
  { intros Hnil. apply (f_equal length) in Hnil.
    rewrite length_reverse, Hlen in Hnil. discriminate. }
  pose proof (int_from_bytes_big_bound (reverse s)) as Hb.
  unfold len in Hb. rewrite length_reverse, Hlen in Hb.
  change (256 ^ Z.of_nat 4) with (2 ^ 32) in Hb.
  split; [|split; [exact Hb|]].
  - rewrite <- (reverse_involutive s) at 1. apply hex_to_int_reverse. exact Hne.
  - destruct (int_to_hex_4 _ Hb) as (bs & Hl & Hint & Hhex).
    rewrite Hhex. apply int_from_bytes_big_inj in Hint.
    + rewrite Hint, reverse_involutive. reflexivity.
    + rewrite length_reverse. congruence.
Qed.

(** ** Slices of a record *)

Lemma slice_length {A} (a b : Z) (s : list A) :
  0 <= a <= b -> b <= len s -> length (slice a b s) = Z.to_nat (b - a).
Proof.
  intros Hab Hb. unfold slice, len in *. rewrite length_take, length_drop. lia.
Qed.

Lemma slice_app_next {A} (a b c : Z) (s : list A) :
  0 <= a <= b -> b <= c -> slice a b s ++ slice b c s = slice a c s.
Proof.
  intros Hab Hbc. unfold slice.
  replace (Z.to_nat b) with (Z.to_nat a + Z.to_nat (b - a))%nat by lia.
  rewrite <- drop_drop.
  replace (Z.to_nat (c - a)) with (Z.to_nat (b - a) + Z.to_nat (c - b))%nat by lia.
  rewrite take_take_drop. reflexivity.
Qed.

Lemma slice_app_from {A} (a b : Z) (s : list A) :
  0 <= a <= b -> slice a b s ++ slice_from b s = slice_from a s.
Proof.
  intros Hab. unfold slice, slice_from.
  replace (Z.to_nat b) with (Z.to_nat a + Z.to_nat (b - a))%nat by lia.
  rewrite <- drop_drop. apply take_drop.
Qed.

Lemma slice_field {A} (pre x post : list A) (a b : Z) :
  len pre = a -> len x = b - a -> slice a b (pre ++ x ++ post) = x.
Proof.
  unfold len, slice. intros Ha Hx.
  rewrite drop_app_length' by lia. rewrite take_app_length' by lia. reflexivity.
Qed.

Lemma slice_from_field {A} (pre post : list A) (a : Z) :
  len pre = a -> slice_from a (pre ++ post) = post.
Proof.
  unfold len, slice_from. intros Ha. rewrite drop_app_length' by lia. reflexivity.
Qed.

Lemma slice_length_min {A} (a b : Z) (s : list A) :
  length (slice a b s) = (Z.to_nat (b - a) `min` (length s - Z.to_nat a))%nat.
Proof. unfold slice. rewrite length_take, length_drop. reflexivity. Qed.

Lemma hex_to_int_nonempty (s : bytes) :
  s <> [] -> hex_to_int s = OK (int_from_bytes_big (reverse s)).
Proof.
  intros Hne. rewrite <- (reverse_involutive s) at 1. apply hex_to_int_reverse.
  intros Hnil. apply Hne. rewrite <- (reverse_involutive s), Hnil. reflexivity.
Qed.

Lemma nonempty_length {A} (s : list A) : (0 < length s)%nat -> s <> [].
Proof. destruct s; simpl; [lia | discriminate]. Qed.

(** ** The header codec *)

(** What [deserialize_header] returns on a record of the right length that
    reaches the [bits] field. *)
Lemma deserialize_header_fields (raw : bytes) (h : Z) :
  len raw = get_header_size h -> 105 <= len raw ->
  deserialize_header raw h
  = OK (mkHeader (int_from_bytes_big (reverse (slice 0 4 raw)))
                 (Some (hash_encode (slice 4 36 raw)))
                 (hash_encode (slice 36 68 raw))
                 (hash_encode (slice 68 100 raw))
                 (int_from_bytes_big (reverse (slice 100 104 raw)))
                 (int_from_bytes_big (reverse (slice 104 108 raw)))
                 (hash_encode (slice 108 140 raw))
                 (hash_encode (slice 140 143 raw))
                 (hash_encode (slice_from 143 raw))
                 h).
Proof.
  intros Hsize Hlen. unfold deserialize_header.
  destruct raw as [|b0 raw'] eqn:Hraw; [unfold len in Hlen; simpl in Hlen; lia|].
  rewrite <- Hraw in *. clear Hraw b0 raw'.
  rewrite Hsize, Z.eqb_refl. cbn [negb].
  unfold len in Hlen.
  rewrite !hex_to_int_nonempty
    by (apply nonempty_length; rewrite slice_length_min; lia).
  reflexivity.
Qed.

Lemma deserialize_serialize (raw : bytes) (h : Z) :
  len raw = get_header_size h -> 108 <= len raw ->
  exists hd, deserialize_header raw h = OK hd /\
             prev_block_hash hd <> None /\
             serialize_header hd = OK (bh2u raw).
Proof.
  intros Hsize Hlen. eexists. split; [apply deserialize_header_fields; lia|].
  split; [discriminate|].
  unfold serialize_header.
  cbn [version prev_block_hash merkle_root reserved_hash timestamp bits nonce
       sol_size solution].
  assert (H4 : forall a b, 0 <= a -> b = a + 4 -> b <= 108 ->
             int_to_hex (int_from_bytes_big (reverse (slice a b raw))) 4
             = OK (bh2u (slice a b raw))).
  { intros a b Ha -> Hb.
    destruct (int_to_hex_hex_to_int (slice a (a + 4) raw)) as (v & Hv & _ & Hhex).
    - rewrite slice_length by lia. lia.
    - rewrite hex_to_int_nonempty in Hv.
      + injection Hv as <-. exact Hhex.
      + apply nonempty_length. rewrite slice_length by lia. lia. }
  rewrite (H4 0 4), (H4 100 104), (H4 104 108) by lia.
  rewrite !rev_hex_hash_encode, !bind_OK.
  rewrite <- !bh2u_app. do 2 f_equal.
  rewrite (slice_app_from 140 143), (slice_app_from 108 140), (slice_app_from 104 108),
    (slice_app_from 100 104), (slice_app_from 68 100), (slice_app_from 36 68),
    (slice_app_from 4 36), (slice_app_from 0 4) by lia.
  reflexivity.
Qed.

(** X1.  Decoding a stored record and serializing the header again gives
    back the hex of the stored bytes, for every record of the length of its
    height that holds the fixed fields (108 bytes). *)
Theorem X1_serialize_deserialize (raw : bytes) (h : Z) :
  len raw = get_header_size h -> 108 <= len raw ->
  exists hd, deserialize_header raw h = OK hd /\ block_height hd = h /\
             (let! s := serialize_header hd in bfh s) = OK raw.
Proof.
  intros Hsize Hlen. eexists. split; [apply deserialize_header_fields; lia|].
  split; [reflexivity|].
  destruct (deserialize_serialize raw h Hsize Hlen) as (hd & Hd & _ & Hs).
  rewrite deserialize_header_fields in Hd by lia. injection Hd as <-.
  rewrite Hs, bind_OK. apply bfh_bh2u.
Qed.

(** X2.  The hash of a header read from a record is the hash of the raw
    record: [hash_header(deserialize_header(raw, h))] is
    [hash_raw_header(bh2u(raw))], the reversed hex of the double SHA-256 of
    the stored bytes. *)
Theorem X2_hash_header_of_record (raw : bytes) (h : Z) (hd : header) :
  108 <= len raw ->
  deserialize_header raw h = OK hd ->
  hash_header (Some hd) = hash_raw_header (bh2u raw) /\
  hash_header (Some hd) = OK (hash_encode (sha256d raw)).
Proof.
  intros Hlen Hd.
  assert (Hsize : len raw = get_header_size h).
  { unfold deserialize_header in Hd.
    destruct raw as [|b0 raw']; [discriminate|].
    destruct (Z.eqb_spec (len (b0 :: raw')) (get_header_size h)); [assumption|discriminate]. }
  destruct (deserialize_serialize raw h Hsize Hlen) as (hd' & Hd' & Hprev & Hs).
  rewrite Hd in Hd'. injection Hd' as <-.
  unfold hash_header, hash_raw_header, fill_prev_block_hash.
  destruct (prev_block_hash hd); [|congruence].
  rewrite Hs, bind_OK, bfh_bh2u. split; reflexivity.
Qed.

(** X3.  How [deserialize_header] fails: an empty record and a record of
    another length than [get_header_size(height)] raise [Exception]; a record
    of the right length that ends before the [bits] field (fewer than 105
    bytes) raises [ValueError] from [int('0x', 16)]; every other record is
    decoded. *)
Theorem X3_deserialize_header_outcome (raw : bytes) (h : Z) :
  (raw = [] -> deserialize_header raw h = Raise (Exception "Invalid header: {}")) /\
  (raw <> [] -> len raw <> get_header_size h ->
     deserialize_header raw h = Raise (Exception "Invalid header length: {}")) /\
  (raw <> [] -> len raw = get_header_size h -> len raw < 105 ->
     deserialize_header raw h = Raise ValueError) /\
  (len raw = get_header_size h -> 105 <= len raw ->
     exists hd, deserialize_header raw h = OK hd /\ block_height hd = h).
Proof.
  split; [intros ->; reflexivity|]. split; [|split].
  - intros Hne Hlen. unfold deserialize_header. destruct raw; [congruence|].
    destruct (Z.eqb_spec (len (b :: raw)) (get_header_size h)); [congruence | reflexivity].
  - intros Hne Hsize Hlen. unfold deserialize_header.
    destruct raw as [|b0 raw'] eqn:Hraw; [congruence|].
    rewrite <- Hraw in *. clear Hraw b0 raw'.
    rewrite Hsize, Z.eqb_refl. cbn [negb].
    assert (H1 : (0 < length raw)%nat) by (destruct raw; [congruence | simpl; lia]).
    unfold len in Hlen.
    rewrite (hex_to_int_nonempty (slice 0 4 raw))
      by (apply nonempty_length; rewrite slice_length_min; lia).
    rewrite bind_OK.
    destruct (decide (length raw <= 100)%nat) as [Hshort | Hlong].
    + replace (slice 100 104 raw) with (@nil byte); [reflexivity|].
      symmetry. apply length_zero_iff_nil. rewrite slice_length_min. lia.
    + rewrite (hex_to_int_nonempty (slice 100 104 raw))
        by (apply nonempty_length; rewrite slice_length_min; lia).
      rewrite bind_OK.
      replace (slice 104 108 raw) with (@nil byte); [reflexivity|].
      symmetry. apply length_zero_iff_nil. rewrite slice_length_min. lia.
  - intros Hsize Hlen. eexists. split; [apply deserialize_header_fields; lia|].
    reflexivity.
Qed.

Ltac field_lengths :=
  unfold len; rewrite ?length_app, ?length_reverse; cbn [length];
  repeat match goal with H : length _ = _ |- _ => rewrite H end; lia.

Lemma serialize_then_deserialize (hd : header) :
  wf_header hd ->
  exists raw, (let! s := serialize_header hd in bfh s) = OK raw /\
              len raw = get_header_size (block_height hd) /\
              deserialize_header raw (block_height hd) = OK hd.
Proof.
  intros (Hv & Ht & Hb & (p & Hp & pb & Hpl & ->) & (mb & Hml & Hm) & (rb & Hrl & Hr)
          & (nb & Hnl & Hn) & (sb & Hsl & Hs) & Hsize & (ob & Hol & Ho)).
  destruct (int_to_hex_4 _ Hv) as (bv & Hbvl & Hbv & Hhv).
  destruct (int_to_hex_4 _ Ht) as (bt & Hbtl & Hbt & Hht).
  destruct (int_to_hex_4 _ Hb) as (bb & Hbbl & Hbb & Hhb).
  set (raw := reverse bv ++ reverse pb ++ reverse mb ++ reverse rb ++ reverse bt
              ++ reverse bb ++ reverse nb ++ reverse sb ++ reverse ob).
  assert (Hser : serialize_header hd = OK (bh2u raw)).
  { unfold serialize_header. rewrite Hhv, Hht, Hhb, Hp, Hm, Hr, Hn, Hs, Ho.
    rewrite !rev_hex_bh2u, !bind_OK. unfold raw. rewrite !bh2u_app. reflexivity. }
  assert (Hlen : len raw = get_header_size (block_height hd)).
  { unfold raw. unfold len. rewrite !length_app, !length_reverse.
    rewrite Hbvl, Hpl, Hml, Hrl, Hbtl, Hbbl, Hnl, Hsl, Hol. lia. }
  exists raw. split; [rewrite Hser, bind_OK; apply bfh_bh2u|]. split; [exact Hlen|].
  rewrite deserialize_header_fields by lia.
  assert (F1 : slice 0 4 raw = reverse bv).
  { unfold raw. apply (slice_field [] (reverse bv)); field_lengths. }
  assert (F2 : slice 4 36 raw = reverse pb).
  { unfold raw. apply (slice_field (reverse bv) (reverse pb)); field_lengths. }
  assert (F3 : slice 36 68 raw = reverse mb).
  { unfold raw. rewrite (app_assoc (reverse bv)).
    apply (slice_field _ (reverse mb)); field_lengths. }
  assert (F4 : slice 68 100 raw = reverse rb).
  { unfold raw. rewrite (app_assoc (reverse bv)), (app_assoc (_ ++ reverse pb)).
    apply (slice_field _ (reverse rb)); field_lengths. }
  assert (F5 : slice 100 104 raw = reverse bt).
  { unfold raw. rewrite (app_assoc (reverse bv)), (app_assoc (_ ++ reverse pb)),
      (app_assoc (_ ++ reverse mb)).
    apply (slice_field _ (reverse bt)); field_lengths. }
  assert (F6 : slice 104 108 raw = reverse bb).
  { unfold raw. rewrite (app_assoc (reverse bv)), (app_assoc (_ ++ reverse pb)),
      (app_assoc (_ ++ reverse mb)), (app_assoc (_ ++ reverse rb)).
    apply (slice_field _ (reverse bb)); field_lengths. }
  assert (F7 : slice 108 140 raw = reverse nb).
  { unfold raw. rewrite (app_assoc (reverse bv)), (app_assoc (_ ++ reverse pb)),
      (app_assoc (_ ++ reverse mb)), (app_assoc (_ ++ reverse rb)),
      (app_assoc (_ ++ reverse bt)).
    apply (slice_field _ (reverse nb)); field_lengths. }
  assert (F8 : slice 140 143 raw = reverse sb).
  { unfold raw. rewrite (app_assoc (reverse bv)), (app_assoc (_ ++ reverse pb)),
      (app_assoc (_ ++ reverse mb)), (app_assoc (_ ++ reverse rb)),
      (app_assoc (_ ++ reverse bt)), (app_assoc (_ ++ reverse bb)).
    apply (slice_field _ (reverse sb)); field_lengths. }
  assert (F9 : slice_from 143 raw = reverse ob).
  { unfold raw. rewrite (app_assoc (reverse bv)), (app_assoc (_ ++ reverse pb)),
      (app_assoc (_ ++ reverse mb)), (app_assoc (_ ++ reverse rb)),
      (app_assoc (_ ++ reverse bt)), (app_assoc (_ ++ reverse bb)),
      (app_assoc (_ ++ reverse nb)).
    apply slice_from_field; field_lengths. }
  rewrite F1, F2, F3, F4, F5, F6, F7, F8, F9.
  rewrite !reverse_involutive, !hash_encode_reverse, Hbv, Hbt, Hbb.
  destruct hd. simpl in *. subst. reflexivity.
Qed.

(** X4.  A well-formed header (32-bit scalars, lower-case hex fields of
    their lengths) is serialized to a record of [get_header_size(height)]
    bytes that [deserialize_header] decodes to the same header. *)
Theorem X4_deserialize_serialize (hd : header) :
  wf_header hd ->
  exists raw, (let! s := serialize_header hd in bfh s) = OK raw /\
              len raw = get_header_size (block_height hd) /\
              deserialize_header raw (block_height hd) = OK hd.
Proof. apply serialize_then_deserialize. Qed.

(** ** Sizes and writes on the trunk *)

Section PositiveSizes.

(** The fork height and the two header lengths are positive. *)
Hypothesis fork_height_pos : 0 < EQUIHASH_FORK_HEIGHT net.
Hypothesis hdr_len_pos : 0 < HDR_LEN net.
Hypothesis hdr_len_fork_pos : 0 < HDR_LEN_FORK net.

Lemma get_header_size_pos (h : Z) : 0 < get_header_size h.
Proof. unfold get_header_size. destruct (is_post_equihash_fork h); assumption. Qed.

Lemma get_header_size_0 : get_header_size 0 = HDR_LEN net.
Proof.
  unfold get_header_size, is_post_equihash_fork.
  destruct (Z.leb_spec (EQUIHASH_FORK_HEIGHT net) 0); [lia | reflexivity].
Qed.

Lemma get_offset_trunk_next (h : Z) :
  0 <= h -> get_offset 0 (h + 1) = get_offset 0 h + get_header_size h.
Proof. intros Hh. apply get_offset_trunk_step; lia. Qed.

Lemma get_offset_trunk_mono (a b : Z) :
  0 <= a <= b -> get_offset 0 a <= get_offset 0 b.
Proof.
  intros Hab. rewrite <- (Z.sub_0_r (get_offset 0 a)).
  replace b with (a + Z.of_nat (Z.to_nat (b - a))) by lia.
  induction (Z.to_nat (b - a)) as [|n IH].
  - replace (a + Z.of_nat 0) with a by lia. lia.
  - replace (a + Z.of_nat (S n)) with (a + Z.of_nat n + 1) by lia.
    rewrite get_offset_trunk_next by lia.
    pose proof (get_header_size_pos (a + Z.of_nat n)). lia.
Qed.

Lemma get_offset_trunk_0 : get_offset 0 0 = 0.
Proof. rewrite get_offset_pre_fork by lia. lia. Qed.

Lemma get_offset_trunk_nonneg (h : Z) : 0 <= h -> 0 <= get_offset 0 h.
Proof.
  intros Hh. rewrite <- get_offset_trunk_0 at 1. apply get_offset_trunk_mono. lia.
Qed.

Lemma floordiv_pos (a b : Z) : 0 < b -> floordiv a b = OK (a / b).
Proof. intros Hb. unfold floordiv. destruct (Z.eqb_spec b 0); [lia | reflexivity]. Qed.

(** The number of records in the first [get_offset(0, n)] bytes, followed
    by an incomplete record of [r] bytes, is [n]. *)
Lemma calculate_size_trunk (c n r : Z) :
  0 <= n -> 0 <= r < get_header_size n ->
  c < EQUIHASH_FORK_HEIGHT net \/ EQUIHASH_FORK_HEIGHT net <= n ->
  calculate_size c (get_offset 0 n + r) = OK n.
Proof.
  intros Hn Hr Hc. unfold calculate_size.
  rewrite get_header_size_0, get_header_size_fork.
  unfold get_header_size, is_post_equihash_fork in *.
  destruct (Z.leb_spec (EQUIHASH_FORK_HEIGHT net) n) as [Hpost | Hpre].
  - (* the file reaches the Equihash region *)
    rewrite get_offset_post_fork by lia.
    replace (Z.max 0 (EQUIHASH_FORK_HEIGHT net)) with (EQUIHASH_FORK_HEIGHT net) by lia.
    set (F := EQUIHASH_FORK_HEIGHT net) in *. set (L := HDR_LEN net) in *.
    set (LF := HDR_LEN_FORK net) in *.
    assert (Hpeb : (F * L + (n - F) * LF + r - F * L) / LF = n - F).
    { symmetry. apply Z.div_unique with (r := r); lia. }
    destruct (Z.leb_spec F c) as [Hcpost | Hcpre]; cbn [negb].
    + rewrite bind_OK. rewrite Z.leb_antisym. destruct (Z.ltb_spec c F); [lia|].
      cbn [negb]. rewrite floordiv_pos, bind_OK, Hpeb by assumption. f_equal. lia.
    + rewrite floordiv_pos, bind_OK by assumption.
      assert (Hq : F <= (F * L + (n - F) * LF + r) / L).
      { apply Z.div_le_lower_bound; nia. }
      destruct (Z.leb_spec F ((F * L + (n - F) * LF + r) / L)); [|lia].
      rewrite bind_OK, Z.leb_refl, floordiv_pos, bind_OK, Hpeb by assumption.
      f_equal. lia.
  - (* only pre-fork records *)
    rewrite get_offset_pre_fork by lia. destruct Hc as [Hc | Hc]; [|lia].
    set (F := EQUIHASH_FORK_HEIGHT net) in *. set (L := HDR_LEN net) in *.
    destruct (Z.leb_spec F c); [lia|]. cbn [negb].
    rewrite floordiv_pos, bind_OK by assumption.
    assert (Hq : ((n - 0) * L + r) / L = n).
    { symmetry. apply Z.div_unique with (r := r); lia. }
    rewrite Hq. destruct (Z.leb_spec F n); [lia|].
    rewrite bind_OK. destruct (Z.leb_spec F c); [lia|].
    rewrite bind_OK. f_equal. lia.
Qed.

(** X5.  [calculate_size] inverts [get_offset] on a file that starts at
    height 0: from the length of [n] whole records, with or without an
    incomplete record after them, it returns [n], whenever the checkpoint
    passed to it is below the Equihash fork or the file reaches the fork. *)
Theorem X5_calculate_size_get_offset (c n r : Z) :
  0 <= n -> 0 <= r < get_header_size n ->
  c < EQUIHASH_FORK_HEIGHT net \/ EQUIHASH_FORK_HEIGHT net <= n ->
  calculate_size c (get_offset 0 n + r) = OK n.
Proof. apply calculate_size_trunk. Qed.

Lemma file_truncate_end (c : bytes) : file_truncate (len c) c = c.
Proof.
  unfold file_truncate, len. rewrite Z.sub_diag, Nat2Z.id, firstn_all.
  apply app_nil_r.
Qed.

Lemma write_append (self : Blockchain) (content data : bytes) :
  trunk_with self content ->
  len data = get_header_size (_size self) ->
  write self data (get_offset 0 (_size self)) true
  = OK (set_size (set_headers_file self (File (content ++ data))) (_size self + 1)).
Proof.
  intros (Hpar & Hfork & Hsz & Hfile & Hlen) Hdata.
  pose proof (get_header_size_pos (_size self)) as Hpos.
  unfold write, path. rewrite Hpar, bind_OK, Hfile, Hfork.
  pose proof (get_offset_trunk_nonneg _ Hsz) as Hoff.
  destruct (Z.ltb_spec (get_offset 0 (_size self)) 0); [lia|].
  assert (Htr : (if true && negb (get_offset 0 (_size self) =? get_offset 0 (height self))
                 then file_truncate (get_offset 0 (_size self)) content else content)
                = content).
  { destruct (true && negb _); [|reflexivity]. rewrite <- Hlen. apply file_truncate_end. }
  rewrite Htr.
  assert (Hw : file_write_at (get_offset 0 (_size self)) data content = content ++ data).
  { unfold file_write_at. destruct data as [|b data'] eqn:Hd.
    - unfold len in Hdata. simpl in Hdata. lia.
    - rewrite <- Hd in *. rewrite <- Hlen, file_truncate_end.
      rewrite drop_ge by (unfold len; lia). rewrite app_nil_r. reflexivity. }
  rewrite Hw. unfold update_size, path. cbn [parent set_headers_file headers_file].
  rewrite Hpar, bind_OK. unfold size.
  replace (len (content ++ data)) with (get_offset 0 (_size self + 1) + 0).
  2:{ unfold len in *. rewrite length_app, Nat2Z.inj_add, Hlen, Hdata.
      rewrite get_offset_trunk_next by lia. lia. }
  rewrite calculate_size_trunk, bind_OK; [reflexivity | lia | | lia].
  pose proof (get_header_size_pos (_size self + 1)). lia.
Qed.

Lemma read_header_trunk (self : Blockchain) (content : bytes) (k : Z) :
  parent self = None -> forkpoint self = 0 -> headers_file self = File content ->
  0 <= k <= height self -> get_offset 0 (k + 1) <= len content ->
  let raw := take (Z.to_nat (get_header_size k)) (drop (Z.to_nat (get_offset 0 k)) content) in
  len raw = get_header_size k /\
  read_header self k =
    if bool_decide (raw = replicate (Z.to_nat (get_header_size k)) x00) then OK None
    else let! hd := deserialize_header raw k in OK (Some hd).
Proof.
  intros Hpar Hfork Hfile Hk Hfit raw.
  pose proof (get_header_size_pos k) as Hpos.
  assert (H0 : 0 <= get_offset 0 k) by (apply get_offset_trunk_nonneg; lia).
  rewrite get_offset_trunk_next in Hfit by lia.
  assert (Hraw : len raw = get_header_size k).
  { unfold raw, len in *. rewrite length_take, length_drop. lia. }
  split; [exact Hraw|].
  rewrite (read_header_own_range self k content); rewrite ?Hfork; try lia; try assumption.
  reflexivity.
Qed.

Lemma write_append_read (self : Blockchain) (content data : bytes) :
  trunk_with self content ->
  len data = get_header_size (_size self) ->
  exists self',
    write self data (get_offset 0 (_size self)) true = OK self' /\
    _size self' = _size self + 1 /\
    headers_file self' = File (content ++ data) /\
    (forall k, 0 <= k < _size self -> read_header self' k = read_header self k) /\
    read_header self' (_size self) =
      if bool_decide (data = replicate (Z.to_nat (get_header_size (_size self))) x00)
      then OK None
      else let! hd := deserialize_header data (_size self) in OK (Some hd).
Proof.
  intros Htrunk Hdata. destruct Htrunk as (Hpar & Hfork & Hsz & Hfile & Hlen) eqn:Ht.
  pose proof (write_append self content data (conj Hpar (conj Hfork (conj Hsz (conj Hfile Hlen)))) Hdata) as Hw.
  eexists. split; [exact Hw|]. cbn [_size set_size headers_file set_headers_file].
  split; [reflexivity|]. split; [reflexivity|].
  pose proof (get_header_size_pos (_size self)) as Hpos.
  split.
  - intros k Hk.
    assert (Hfit : get_offset 0 (k + 1) <= len content).
    { rewrite Hlen. apply get_offset_trunk_mono. lia. }
    destruct (read_header_trunk self content k) as [_ ->];
      [assumption | assumption | assumption | unfold height; lia | assumption |].
    destruct (read_header_trunk
                (set_size (set_headers_file self (File (content ++ data))) (_size self + 1))
                (content ++ data) k) as [_ ->];
      [assumption | assumption | reflexivity |
       unfold height; cbn [forkpoint _size set_size set_headers_file]; lia | |].
    { unfold len in *. rewrite length_app. lia. }
    assert (H0 : 0 <= get_offset 0 k) by (apply get_offset_trunk_nonneg; lia).
    rewrite get_offset_trunk_next in Hfit by lia.
    pose proof (get_header_size_pos k).
    rewrite drop_app_le by (unfold len in *; lia).
    rewrite take_app_le by (rewrite length_drop; unfold len in *; lia).
    reflexivity.
  - destruct (read_header_trunk
                (set_size (set_headers_file self (File (content ++ data))) (_size self + 1))
                (content ++ data) (_size self)) as [_ ->];
      [assumption | assumption | reflexivity |
       unfold height; cbn [forkpoint _size set_size set_headers_file]; lia | |].
    { unfold len in *. rewrite length_app, Nat2Z.inj_add, Hlen, Hdata.
      rewrite get_offset_trunk_next by lia. lia. }
    rewrite <- Hlen. unfold len. rewrite Nat2Z.id, drop_app_length.
    rewrite take_ge by (unfold len in Hdata; lia). reflexivity.
Qed.

(** X6.  Appending a record to the trunk: [write] at the offset of the
    next height, with a whole record, leaves the file one record longer and
    the size one higher; every header stored before reads as before, and
    the new height reads as the written bytes decode (or as no header when
    they are all zero). *)
Theorem X6_write_append_read (self : Blockchain) (content data : bytes) :
  trunk_with self content ->
  len data = get_header_size (_size self) ->
  exists self',
    write self data (get_offset 0 (_size self)) true = OK self' /\
    _size self' = _size self + 1 /\
    headers_file self' = File (content ++ data) /\
    (forall k, 0 <= k < _size self -> read_header self' k = read_header self k) /\
    read_header self' (_size self) =
      if bool_decide (data = replicate (Z.to_nat (get_header_size (_size self))) x00)
      then OK None
      else let! hd := deserialize_header data (_size self) in OK (Some hd).
Proof. apply write_append_read. Qed.

Lemma write_keeps_forkpoint (self self' : Blockchain) (data : bytes) (o : Z) (tr : bool) :
  write self data o tr = OK self' ->
  forkpoint self' = forkpoint self /\ parent self' = parent self.
Proof.
  unfold write. intros Hw.
  destruct (path self); [discriminate|]. rewrite bind_OK in Hw.
  destruct (headers_file self); try discriminate.
  destruct (_ <? 0); [discriminate|].
  unfold update_size in Hw. destruct (path _); [discriminate|]. rewrite bind_OK in Hw.
  cbn [headers_file set_headers_file] in Hw.
  destruct (calculate_size _ _); [discriminate|]. rewrite bind_OK in Hw.
  injection Hw as <-. split; reflexivity.
Qed.

Lemma write_then_read_header (self : Blockchain) (content : bytes) (hd : header) :
  trunk_with self content ->
  wf_header hd -> block_height hd = _size self ->
  exists raw self',
    (let! s := serialize_header hd in bfh s) = OK raw /\
    write self raw (get_offset (forkpoint self) (block_height hd)) true = OK self' /\
    height self' = block_height hd /\
    (raw <> replicate (Z.to_nat (get_header_size (block_height hd))) x00 ->
     read_header self' (block_height hd) = OK (Some hd) /\
     header_at_tip self' = OK (Some hd)).
Proof.
  intros Htrunk Hwf Hh.
  destruct (serialize_then_deserialize hd Hwf) as (raw & Hser & Hlen & Hde).
  rewrite Hh in Hlen, Hde |- *.
  destruct (write_append_read self content raw Htrunk Hlen)
    as (self' & Hw & Hsz & _ & _ & Hread).
  destruct Htrunk as (Hpar & Hfork & _).
  exists raw, self'. split; [exact Hser|]. rewrite Hfork.
  split; [exact Hw|].
  assert (Hfork' : forkpoint self' = 0).
  { destruct (write_keeps_forkpoint _ _ _ _ _ Hw) as [-> _]. exact Hfork. }
  assert (Hheight : height self' = _size self) by (unfold height; lia).
  split; [exact Hheight|]. intros Hnz.
  rewrite bool_decide_eq_false_2 in Hread by exact Hnz.
  rewrite Hde, bind_OK in Hread. unfold header_at_tip.
  rewrite Hheight. split; exact Hread.
Qed.

(** X7.  Storing a header and reading it back: when the serialization of
    a well-formed header for the next height of the trunk is written at the
    offset of that height (the [write] that [save_header] makes), the chain
    ends at that height, and [read_header] and [header_at_tip] return the
    same header, unless the record consists of zero bytes only. *)
Theorem X7_write_then_read_header (self : Blockchain) (content : bytes) (hd : header) :
  trunk_with self content ->
  wf_header hd -> block_height hd = _size self ->
  exists raw self',
    (let! s := serialize_header hd in bfh s) = OK raw /\
    write self raw (get_offset (forkpoint self) (block_height hd)) true = OK self' /\
    height self' = block_height hd /\
    (raw <> replicate (Z.to_nat (get_header_size (block_height hd))) x00 ->
     read_header self' (block_height hd) = OK (Some hd) /\
     header_at_tip self' = OK (Some hd)).
Proof. apply write_then_read_header. Qed.

(** X13.  A stored header is recognised: after the write of X7, for a
    height above 0 and outside the checkpointed heights, [get_hash] at that
    height is the hash of the written record, and [check_header] answers
    [True] for the header. *)
Theorem X13_written_header_is_recognised
    (self self' : Blockchain) (content raw : bytes) (hd : header) :
  trunk_with self content ->
  wf_header hd -> block_height hd = _size self ->
  1 <= block_height hd ->
  max_checkpoint net < block_height hd ->
  len (CHECKPOINTS net) * CHUNK_LEN - TARGET_CALC_BLOCKS <= block_height hd ->
  (let! s := serialize_header hd in bfh s) = OK raw ->
  write self raw (get_offset (forkpoint self) (block_height hd)) true = OK self' ->
  raw <> replicate (Z.to_nat (get_header_size (block_height hd))) x00 ->
  get_hash self' (block_height hd) = OK (hash_encode (sha256d raw)) /\
  check_hash self' (block_height hd) (hash_encode (sha256d raw)) = OK true /\
  check_header self' hd = OK true.
Proof.
  intros Htrunk Hwf Hh H1 Hcp Hcp' Hser Hw Hnz.
  destruct (write_then_read_header self content hd Htrunk Hwf Hh)
    as (raw0 & self0 & Hser0 & Hw0 & _ & Hread).
  rewrite Hser in Hser0. injection Hser0 as <-.
  rewrite Hw in Hw0. injection Hw0 as <-.
  destruct (Hread Hnz) as [Hrd _].
  assert (Hhash : hash_header (Some hd) = OK (hash_encode (sha256d raw))).
  { unfold hash_header. destruct Hwf as (_ & _ & _ & (p & Hp & _) & _).
    unfold fill_prev_block_hash. rewrite Hp.
    destruct (serialize_header hd) as [e | s]; [discriminate|].
    change (bfh s = OK raw) in Hser. rewrite bind_OK, Hser, bind_OK. reflexivity. }
  assert (Hget : get_hash self' (block_height hd) = OK (hash_encode (sha256d raw))).
  { unfold get_hash.
    destruct (Z.eqb_spec (block_height hd) (-1)); [lia|].
    destruct (Z.eqb_spec (block_height hd) 0); [lia|].
    destruct (Z.leb_spec (block_height hd) (max_checkpoint net)); [lia|].
    cbn [andb].
    destruct (Z.ltb_spec (block_height hd)
                (len (CHECKPOINTS net) * CHUNK_LEN - TARGET_CALC_BLOCKS)); [lia|].
    rewrite Hrd, bind_OK. exact Hhash. }
  assert (Hcheck : check_hash self' (block_height hd) (hash_encode (sha256d raw)) = OK true).
  { unfold check_hash. rewrite Hget.
    unfold len. rewrite hash_encode_length, sha256d_length.
    cbn [negb]. unfold OK, pystr_eqb.
    rewrite bool_decide_eq_true_2 by reflexivity. reflexivity. }
  split; [exact Hget|]. split; [exact Hcheck|].
  unfold check_header. rewrite Hhash, bind_OK. exact Hcheck.
Qed.

End PositiveSizes.

(** ** Connecting a header *)

Lemma verify_header_accepts (hd : header) (prev_hash : pystr) (t : Z) :
  snd (verify_header hd prev_hash t) = OK tt ->
  exists hx, hash_header (Some hd) = OK hx /\
    prev_block_hash (fill_prev_block_hash hd) = Some prev_hash /\
    (TESTNET net = false ->
     target_to_bits t = OK (bits hd) /\ exists v, int_of_0x hx = OK v /\ v <= t).
Proof.
  unfold verify_header. cbn [snd]. intros H.
  destruct (hash_header (Some hd)) as [e | hx]; [discriminate|].
  rewrite bind_OK in H. exists hx. split; [reflexivity|].
  destruct (decide (Some prev_hash = prev_block_hash (fill_prev_block_hash hd)))
    as [Heq | Hne].
  2:{ rewrite bool_decide_eq_false_2 in H by exact Hne. discriminate. }
  rewrite bool_decide_eq_true_2 in H by exact Heq. cbn [negb] in H.
  split; [symmetry; exact Heq|]. intros Hmain. rewrite Hmain in H.
  destruct (target_to_bits t) as [e | b]; [discriminate|]. rewrite bind_OK in H.
  rewrite fill_prev_block_hash_bits in H.
  destruct (Z.eqb_spec b (bits hd)) as [Hb | Hb]; [|discriminate].
  cbn [negb] in H. split; [rewrite Hb; reflexivity|].
  destruct (int_of_0x hx) as [e | v]; [discriminate|]. rewrite bind_OK in H.
  exists v. split; [reflexivity|].
  destruct (Z.ltb_spec t v); [discriminate | lia].
Qed.

Lemma verify_header_num_accepts (hd : header) (prev_hash : pystr) (target : num) :
  ~ raises (snd (verify_header_num hd prev_hash target)) ->
  exists hx, hash_header (Some hd) = OK hx /\
    prev_block_hash (fill_prev_block_hash hd) = Some prev_hash /\
    (TESTNET net = false ->
     exists t v, target = PyInt t /\ target_to_bits t = OK (bits hd) /\
                 int_of_0x hx = OK v /\ v <= t).
Proof.
  destruct target as [t | f]; cbn [verify_header_num].
  - intros Hnr.
    assert (Hok : snd (verify_header hd prev_hash t) = OK tt).
    { destruct (snd (verify_header hd prev_hash t)) as [e | []]; [simpl in Hnr; tauto|].
      reflexivity. }
    destruct (verify_header_accepts hd prev_hash t Hok) as (hx & Hhx & Hprev & Hmain).
    exists hx. split; [exact Hhx|]. split; [exact Hprev|].
    intros Ht. destruct (Hmain Ht) as (Hbits & v & Hv & Hle).
    exists t, v. auto.
  - cbn [snd]. intros Hnr.
    destruct (hash_header (Some hd)) as [e | hx]; [simpl in Hnr; tauto|].
    rewrite bind_OK in Hnr. exists hx. split; [reflexivity|].
    destruct (decide (Some prev_hash = prev_block_hash (fill_prev_block_hash hd)))
      as [Heq | Hne].
    2:{ rewrite bool_decide_eq_false_2 in Hnr by exact Hne. simpl in Hnr. tauto. }
    split; [symmetry; exact Heq|]. intros Hmain.
    rewrite bool_decide_eq_true_2, Hmain in Hnr by exact Heq. simpl in Hnr. tauto.
Qed.

(** X8.  What [can_connect] has checked when it returns [True]: the height
    follows the tip (when [check_height] is set); a header at height 0
    hashes to the genesis hash; any other header names as its previous block
    the hash the chain has at the height below, and, on mainnet, its [bits]
    are the compact form of the integer target [get_target] computes for its
    height and its hash does not exceed that target. *)
Theorem X8_can_connect_true
    (self : Blockchain) (hd : header) (check_height : bool) (after : option header) :
  can_connect self (Some hd) check_height = (after, OK true) ->
  (check_height = true -> height self = block_height hd - 1) /\
  (block_height hd = 0 -> hash_header (Some hd) = OK (GENESIS net)) /\
  (block_height hd <> 0 ->
   exists prev_hash target hx,
     get_hash self (block_height hd - 1) = OK prev_hash /\
     prev_block_hash hd = Some prev_hash /\
     get_target self (block_height hd) None = OK target /\
     hash_header (Some hd) = OK hx /\
     (TESTNET net = false ->
      exists t v, target = PyInt t /\ target_to_bits t = OK (bits hd) /\
                  int_of_0x hx = OK v /\ v <= t)).
Proof.
  unfold can_connect. intros H.
  destruct (check_height && negb (height self =? block_height hd - 1)) eqn:Hch;
    [discriminate|].
  split.
  { intros ->. cbn [andb] in Hch. apply negb_false_iff, Z.eqb_eq in Hch. exact Hch. }
  destruct (Z.eqb_spec (block_height hd) 0) as [H0 | Hn0].
  - split; [|intros; congruence]. intros _.
    destruct (hash_header (Some hd)) as [e | hx]; [discriminate|].
    rewrite bind_OK in H. injection H as _ H. unfold pystr_eqb in H.
    apply bool_decide_eq_true_1 in H. rewrite H. reflexivity.
  - split; [intros; congruence|]. intros _.
    destruct (get_hash self (block_height hd - 1)) as [e | prev_hash]; [discriminate|].
    destruct (decide (Some prev_hash = prev_block_hash hd)) as [Heq | Hne].
    2:{ rewrite bool_decide_eq_false_2 in H by exact Hne. discriminate. }
    rewrite bool_decide_eq_true_2 in H by exact Heq. cbn [negb] in H.
    destruct (get_target self (block_height hd) None) as [e | target].
    { destruct e; discriminate. }
    destruct (verify_header_num hd prev_hash target) as [hd' r] eqn:Hv.
    destruct r as [e | u]; [discriminate|].
    destruct (verify_header_num_accepts hd prev_hash target) as (hx & Hhx & _ & Hmain).
    { rewrite Hv. simpl. tauto. }
    exists prev_hash, target, hx. auto.
Qed.

(** ** What the retarget engine can raise *)

Lemma not_missing_bind {A B} (r : result A) (k : A -> result B) :
  not_missing r -> (forall a, not_missing (k a)) -> not_missing (bind r k).
Proof. destruct r as [e | a]; [intros H _; exact H | intros _ H; apply H]. Qed.

Lemma not_missing_for_each {A S} (xs : list A) (body : S -> A -> result S) :
  (forall acc x, not_missing (body acc x)) ->
  forall acc, not_missing (for_each xs body acc).
Proof.
  intros Hb. induction xs as [|x xs IH]; intros acc; [exact I|].
  cbn [for_each]. apply not_missing_bind; [apply Hb | apply IH].
Qed.

Ltac not_missing_step :=
  match goal with
  | |- not_missing (bind _ _) => apply not_missing_bind; [|intros]
  | |- not_missing (for_each _ _ _) => apply not_missing_for_each; intros
  | |- not_missing (if ?b then _ else _) => destruct b
  | |- not_missing (match ?x with _ => _ end) => destruct x
  | |- not_missing _ => exact I
  end.

Lemma hex_digits_value_not_missing (s : pystr) (acc : Z) :
  not_missing (hex_digits_value acc s).
Proof.
  revert acc. induction s as [|c s IH]; intros acc; [exact I|].
  cbn [hex_digits_value]. destruct (hex_val c); [apply IH | exact I].
Qed.

Lemma hex_to_int_not_missing (s : bytes) : not_missing (hex_to_int s).
Proof.
  unfold hex_to_int, int_of_0x. destruct (bh2u (reverse s)); [exact I|].
  apply hex_digits_value_not_missing.
Qed.

Lemma deserialize_header_not_missing (s : bytes) (h : Z) :
  not_missing (deserialize_header s h).
Proof.
  unfold deserialize_header. destruct s; [exact I|].
  destruct (negb _); [exact I|].
  repeat (apply not_missing_bind; [apply hex_to_int_not_missing | intros]). exact I.
Qed.

Lemma read_header_not_missing (self : Blockchain) (h : Z) :
  not_missing (read_header self h).
Proof.
  unfold read_header, seek_read.
  repeat first [apply deserialize_header_not_missing | not_missing_step].
Qed.

Lemma window_header_not_missing (self : Blockchain) (ctx : option chunk_ctx) (h : Z) :
  not_missing (window_header self ctx h).
Proof.
  unfold window_header, chunk_get.
  repeat first [apply read_header_not_missing | not_missing_step].
Qed.

Lemma get_median_time_not_missing (self : Blockchain) (h : Z) (ctx : option chunk_ctx) :
  not_missing (get_median_time self h ctx).
Proof.
  unfold get_median_time, py_index.
  repeat first [apply window_header_not_missing | not_missing_step].
Qed.

Lemma bits_to_target_not_missing (b : Z) : not_missing (bits_to_target b).
Proof. unfold bits_to_target. repeat not_missing_step. Qed.

Lemma true_div_not_missing (a b : Z) : not_missing (true_div a b).
Proof. unfold true_div. repeat not_missing_step. Qed.

Lemma chunk_get_not_missing (ctx : option chunk_ctx) (h : Z) :
  not_missing (chunk_get ctx h).
Proof. unfold chunk_get. repeat not_missing_step. Qed.

Lemma get_target_lwma3_not_missing (self : Blockchain) (h : Z) (ctx : option chunk_ctx) :
  not_missing (get_target_lwma3 self h ctx).
Proof.
  unfold get_target_lwma3.
  apply not_missing_bind; [apply true_div_not_missing | intros kf].
  cbv zeta.
  destruct (h <? ZAWY_LWMA3_AVERAGING_WINDOW); [exact I|].
  apply not_missing_bind.
  { destruct (in_chunk ctx (h - ZAWY_LWMA3_AVERAGING_WINDOW - 1)).
    - apply not_missing_bind; [apply chunk_get_not_missing | intros; exact I].
    - apply not_missing_bind; [apply read_header_not_missing | intros [x|]; exact I]. }
  intros ts0.
  apply not_missing_bind.
  { apply not_missing_for_each. intros st x.
    apply not_missing_bind; [apply window_header_not_missing | intros hd].
    apply not_missing_bind; [apply bits_to_target_not_missing | intros; exact I]. }
  intros st. destruct (previousDiff st) as [pd|]; [|exact I].
  apply not_missing_bind; [apply true_div_not_missing | intros hi].
  apply not_missing_bind; [apply true_div_not_missing | intros lo]. exact I.
Qed.

Lemma get_target_digishield_not_missing (self : Blockchain) (h : Z)
    (ctx : option chunk_ctx) :
  not_missing (get_target_digishield self h ctx).
Proof.
  unfold get_target_digishield. cbv zeta.
  apply not_missing_bind.
  { apply not_missing_for_each. intros acc x.
    apply not_missing_bind; [apply window_header_not_missing | intros hd].
    apply not_missing_bind; [apply bits_to_target_not_missing | intros; exact I]. }
  intros mean.
  apply not_missing_bind; [apply get_median_time_not_missing | intros m1].
  apply not_missing_bind; [apply get_median_time_not_missing | intros m2].
  apply not_missing_bind; [apply true_div_not_missing | intros q]. exact I.
Qed.

Lemma get_target_not_missing (self : Blockchain) (h : Z) (ctx : option chunk_ctx) :
  not_missing (get_target self h ctx).
Proof.
  unfold get_target.
  destruct (h <=? POW_AVERAGING_WINDOW); [exact I|].
  destruct ((EH_EPOCH_1_END - POW_AVERAGING_WINDOW <? h) && (h <=? EH_EPOCH_1_END));
    [exact I|].
  destruct (LWMA_FORK_BLOCK <=? h);
    [apply get_target_lwma3_not_missing | apply get_target_digishield_not_missing].
Qed.

(** X9.  [get_target] never raises [MissingHeader]: a header it cannot
    find makes it raise a plain [Exception].  The clause
    [except MissingHeader] of [can_connect] therefore catches nothing, and
    for a header that passed the checks before it, [can_connect] raises
    whatever [get_target] raises instead of returning [False]. *)
Theorem X9_can_connect_propagates
    (self : Blockchain) (hd : header) (check_height : bool) (prev_hash : pystr) (e : exn) :
  block_height hd <> 0 ->
  (check_height = true -> height self = block_height hd - 1) ->
  get_hash self (block_height hd - 1) = OK prev_hash ->
  prev_block_hash hd = Some prev_hash ->
  get_target self (block_height hd) None = Raise e ->
  (forall h, e <> MissingHeader h) /\
  can_connect self (Some hd) check_height = (Some hd, Raise e).
Proof.
  intros Hn0 Hch Hhash Hprev Htarget.
  assert (Hnm : forall h, e <> MissingHeader h).
  { intros h ->. pose proof (get_target_not_missing self (block_height hd) None) as H.
    rewrite Htarget in H. exact H. }
  split; [exact Hnm|].
  unfold can_connect.
  assert (Hc : check_height && negb (height self =? block_height hd - 1) = false).
  { destruct check_height; [|reflexivity]. rewrite Hch by reflexivity.
    rewrite Z.eqb_refl. reflexivity. }
  rewrite Hc. destruct (Z.eqb_spec (block_height hd) 0); [congruence|].
  rewrite Hhash. unfold OK at 1. cbv beta iota.
  rewrite Hprev, bool_decide_eq_true_2 by reflexivity. cbn [negb].
  rewrite Htarget. unfold Raise. destruct e; try reflexivity.
  exfalso. eapply Hnm. reflexivity.
Qed.

(** X10.  [can_connect] turns away, without raising and without touching
    the header, a missing header, a header whose height does not follow the
    tip when [check_height] is set, and a header above height 0 for which
    [get_hash] fails at the height below or returns another hash than the
    header's [prev_block_hash]. *)
Theorem X10_can_connect_false (self : Blockchain) (hd : header) (check_height : bool) :
  can_connect self None check_height = (None, OK false) /\
  (height self <> block_height hd - 1 ->
   can_connect self (Some hd) true = (Some hd, OK false)) /\
  (block_height hd <> 0 ->
   (forall p, get_hash self (block_height hd - 1) = OK p -> prev_block_hash hd <> Some p) ->
   can_connect self (Some hd) false = (Some hd, OK false)).
Proof.
  split; [reflexivity|]. split.
  - intros Hh. unfold can_connect. cbn [andb].
    destruct (Z.eqb_spec (height self) (block_height hd - 1)); [congruence | reflexivity].
  - intros Hn0 Hbad. unfold can_connect. cbn [andb].
    destruct (Z.eqb_spec (block_height hd) 0); [congruence|].
    destruct (get_hash self (block_height hd - 1)) as [e | prev_hash]; [reflexivity|].
    destruct (decide (Some prev_hash = prev_block_hash hd)) as [Heq | Hne].
    + exfalso. apply (Hbad prev_hash); [reflexivity | symmetry; exact Heq].
    + rewrite bool_decide_eq_false_2 by exact Hne. reflexivity.
Qed.

(** ** Verifying a chunk *)

Lemma deserialize_header_ok_length (raw : bytes) (h : Z) (hd : header) :
  deserialize_header raw h = OK hd ->
  1 <= len raw /\ len raw = get_header_size h /\ block_height hd = h /\
  prev_block_hash hd <> None.
Proof.
  unfold deserialize_header. intros H.
  destruct raw as [|b0 raw'] eqn:Hraw; [discriminate|]. rewrite <- Hraw in *.
  destruct (Z.eqb_spec (len raw) (get_header_size h)) as [Hlen | Hlen]; [|discriminate].
  cbn [negb] in H.
  destruct (hex_to_int (slice 0 4 raw)); [discriminate|]. rewrite bind_OK in H.
  destruct (hex_to_int (slice 100 104 raw)); [discriminate|]. rewrite bind_OK in H.
  destruct (hex_to_int (slice 104 108 raw)); [discriminate|]. rewrite bind_OK in H.
  injection H as <-. cbn [block_height prev_block_hash].
  repeat split; try assumption; try discriminate.
  rewrite Hraw. unfold len. simpl. lia.
Qed.

Lemma sum_header_sizes_empty (h : Z) : sum_header_sizes h h = 0.
Proof. unfold sum_header_sizes, range. rewrite Z.sub_diag. reflexivity. Qed.

Lemma sum_header_sizes_cons (h : Z) (n : nat) :
  sum_header_sizes h (h + Z.of_nat (S n))
  = get_header_size h + sum_header_sizes (h + 1) (h + 1 + Z.of_nat n).
Proof.
  unfold sum_header_sizes, range.
  replace (h + Z.of_nat (S n) - h) with (Z.succ (Z.of_nat n)) by lia.
  replace (h + 1 + Z.of_nat n - (h + 1)) with (Z.of_nat n) by lia.
  rewrite seqZ_cons by lia. cbn [foldr].
  replace (Z.succ h) with (h + 1) by lia.
  replace (Z.pred (Z.succ (Z.of_nat n))) with (Z.of_nat n) by lia. reflexivity.
Qed.

Lemma sum_header_sizes_one (h : Z) :
  sum_header_sizes h (h + Z.of_nat 1) = get_header_size h.
Proof.
  rewrite sum_header_sizes_cons. change (Z.of_nat 0) with 0.
  rewrite Z.add_0_r, sum_header_sizes_empty. lia.
Qed.

(** What one turn of the loop has established when it does not raise. *)
Lemma verify_chunk_step_ok (self : Blockchain) (data : bytes) (st st' : chunk_state) :
  0 <= cs_offset st ->
  verify_chunk_step self data st = OK st' ->
  exists hd,
    deserialize_header
      (slice (cs_offset st) (cs_offset st + get_header_size (cs_height st)) data)
      (cs_height st) = OK hd /\
    1 <= get_header_size (cs_height st) /\
    cs_offset st + get_header_size (cs_height st) <= len data /\
    prev_block_hash hd = Some (cs_prev_hash st) /\
    hash_header (Some hd) = OK (cs_prev_hash st') /\
    cs_offset st' = cs_offset st + get_header_size (cs_height st) /\
    cs_height st' = cs_height st + 1 /\
    cs_i st' = cs_i st + 1.
Proof.
  intros Hoff. unfold verify_chunk_step. intros H.
  set (hs := get_header_size (cs_height st)) in *.
  destruct (deserialize_header (py_slice (cs_offset st) (cs_offset st + hs) data)
              (cs_height st)) as [e | hd] eqn:Hde; [discriminate|].
  rewrite bind_OK in H.
  destruct (get_target self (cs_height st) (Some (cs_chunk_headers st))) as [e | target];
    [discriminate|].
  rewrite bind_OK in H.
  destruct (verify_header_num hd (cs_prev_hash st) target) as [hd' r] eqn:Hv.
  destruct r as [e | u]; [discriminate|]. rewrite bind_OK in H.
  destruct (deserialize_header_ok_length _ _ _ Hde) as (Hne & Hlen & _ & Hprev).
  fold hs in Hlen.
  assert (Hslice : py_slice (cs_offset st) (cs_offset st + hs) data
                   = slice (cs_offset st) (cs_offset st + hs) data).
  { unfold py_slice. destruct (Z.ltb_spec (cs_offset st + hs) 0); [lia | reflexivity]. }
  rewrite Hslice in *.
  assert (Hfit : cs_offset st + hs <= len data).
  { unfold len in Hlen, Hne |- *. rewrite slice_length_min in Hlen, Hne. lia. }
  destruct (verify_header_num_accepts hd (cs_prev_hash st) target)
    as (hx & Hhx & Hlink & _).
  { rewrite Hv. simpl. tauto. }
  assert (Hfill : fill_prev_block_hash hd = hd).
  { unfold fill_prev_block_hash. destruct (prev_block_hash hd); [reflexivity | congruence]. }
  assert (Hhd' : hd' = hd).
  { destruct target; cbn [verify_header_num] in Hv; unfold verify_header in Hv;
      injection Hv as <- _; exact Hfill. }
  subst hd'. rewrite Hhx, bind_OK in H. injection H as <-.
  exists hd. cbn [cs_offset cs_height cs_prev_hash cs_i].
  rewrite Hfill in Hlink. repeat split; try assumption; try reflexivity; lia.
Qed.

(** Every turn consumes at least one byte: [length data] turns finish the
    loop. *)
Lemma verify_chunk_loop_terminates (self : Blockchain) (data : bytes) (fuel : nat) :
  forall st, 0 <= cs_offset st -> len data - cs_offset st <= Z.of_nat fuel ->
             verify_chunk_loop fuel self data st <> None.
Proof.
  induction fuel as [|fuel IH]; intros st Hoff Hfuel.
  - simpl. destruct (Z.ltb_spec (cs_offset st) (len data)); [lia | discriminate].
  - cbn [verify_chunk_loop].
    destruct (Z.ltb_spec (cs_offset st) (len data)); [|discriminate]. cbn [negb].
    destruct (verify_chunk_step self data st) as [e | st'] eqn:Hstep; [discriminate|].
    destruct (verify_chunk_step_ok self data st st' Hoff Hstep)
      as (hd & _ & Hpos & _ & _ & _ & Hoff' & _).
    apply IH; lia.
Qed.

Lemma verify_chunk_loop_ok (self : Blockchain) (data : bytes) (fuel : nat) :
  forall st st', 0 <= cs_offset st <= len data ->
    verify_chunk_loop fuel self data st = Some (OK st') ->
    exists hs : list header,
      linked (cs_prev_hash st) hs /\
      len data - cs_offset st
      = sum_header_sizes (cs_height st) (cs_height st + Z.of_nat (length hs)) /\
      forall (i : nat) (hd : header), hs !! i = Some hd ->
        block_height hd = cs_height st + Z.of_nat i /\
        deserialize_header
          (slice (cs_offset st + sum_header_sizes (cs_height st) (cs_height st + Z.of_nat i))
                 (cs_offset st + sum_header_sizes (cs_height st) (cs_height st + Z.of_nat (S i)))
                 data)
          (cs_height st + Z.of_nat i) = OK hd.
Proof.
  induction fuel as [|fuel IH]; intros st st' Hoff H.
  - simpl in H. destruct (Z.ltb_spec (cs_offset st) (len data)); [discriminate|].
    exists []. split; [exact I|]. split.
    + cbn [length]. rewrite Z.add_0_r, sum_header_sizes_empty. lia.
    + intros i hd Hi. rewrite lookup_nil in Hi. discriminate.
  - cbn [verify_chunk_loop] in H.
    destruct (Z.ltb_spec (cs_offset st) (len data)) as [Hlt | Hge]; cbn [negb] in H.
    2:{ exists []. split; [exact I|]. split.
        - cbn [length]. rewrite Z.add_0_r, sum_header_sizes_empty. lia.
        - intros i hd Hi. rewrite lookup_nil in Hi. discriminate. }
    destruct (verify_chunk_step self data st) as [e | st1] eqn:Hstep; [discriminate|].
    destruct (verify_chunk_step_ok self data st st1 (proj1 Hoff) Hstep)
      as (hd & Hde & Hpos & Hfit & Hprev & Hhash & Hoff1 & Hh1 & _).
    destruct (IH st1 st') as (hs & Hlinked & Hsum & Hrec); [lia | exact H |].
    exists (hd :: hs). split; [|split].
    + cbn [linked]. split; [exact Hprev|]. exists (cs_prev_hash st1). auto.
    + cbn [length]. rewrite sum_header_sizes_cons. rewrite Hh1, Hoff1 in Hsum. lia.
    + intros [|i] hd' Hi.
      * cbn in Hi. injection Hi as <-.
        rewrite Z.add_0_r, sum_header_sizes_empty, sum_header_sizes_one, Z.add_0_r.
        destruct (deserialize_header_ok_length _ _ _ Hde) as (_ & _ & Hbh & _).
        split; [exact Hbh | exact Hde].
      * cbn in Hi. destruct (Hrec i hd' Hi) as [Hbh Hd].
        rewrite Hh1 in Hbh, Hd. rewrite Hoff1 in Hd.
        split; [lia|].
        rewrite (sum_header_sizes_cons (cs_height st) i),
          (sum_header_sizes_cons (cs_height st) (S i)), !Z.add_assoc.
        replace (cs_height st + Z.of_nat (S i)) with (cs_height st + 1 + Z.of_nat i) by lia.
        exact Hd.
Qed.

(** X11.  A chunk that [verify_chunk] accepts consists of whole records
    and nothing else, each of the size of its height and decoding to a
    header of that height; the first header names the hash the chain has
    below the chunk as its previous block, and every later one names the
    hash of the header before it. *)
Theorem X11_verify_chunk_accepts_linked_records
    (self : Blockchain) (index : Z) (data : bytes) :
  verify_chunk self index data = OK tt ->
  exists (prev_hash : pystr) (hs : list header),
    get_hash self (index * 200 - 1) = OK prev_hash /\
    linked prev_hash hs /\
    len data = sum_header_sizes (index * 200) (index * 200 + Z.of_nat (length hs)) /\
    forall (i : nat) (hd : header), hs !! i = Some hd ->
      block_height hd = index * 200 + Z.of_nat i /\
      deserialize_header (chunk_record (index * 200) data i) (index * 200 + Z.of_nat i)
      = OK hd.
Proof.
  unfold verify_chunk. intros H.
  destruct (get_hash self (index * 200 - 1)) as [e | prev_hash]; [discriminate|].
  rewrite bind_OK in H.
  destruct (verify_chunk_loop (length data) self data _) as [[e | st'] |] eqn:Hloop;
    try discriminate.
  apply verify_chunk_loop_ok in Hloop; [|cbn [cs_offset]; unfold len; lia].
  destruct Hloop as (hs & Hlinked & Hsum & Hrec).
  cbn [cs_offset cs_height cs_prev_hash] in *.
  exists prev_hash, hs. split; [reflexivity|]. split; [exact Hlinked|].
  split; [lia|]. intros i hd Hi. destruct (Hrec i hd Hi) as [Hbh Hd].
  split; [exact Hbh|]. unfold chunk_record. rewrite !Z.add_0_l in Hd. exact Hd.
Qed.

(** X12.  [verify_chunk] always comes to an end, and how it fails on short
    input: with no data it only asks for the hash below the chunk; data that
    ends inside a record, or whose first record does not decode, is
    refused with the exception of [deserialize_header]. *)
Theorem X12_verify_chunk_edges (self : Blockchain) (index : Z) (data : bytes) :
  (forall st, 0 <= cs_offset st ->
     verify_chunk_loop (length data) self data st <> None) /\
  (verify_chunk self index [] = let! _ := get_hash self (index * 200 - 1) in OK tt) /\
  (forall prev_hash e,
     get_hash self (index * 200 - 1) = OK prev_hash -> data <> [] ->
     deserialize_header (py_slice 0 (0 + get_header_size (index * 200)) data) (index * 200)
     = Raise e ->
     verify_chunk self index data = Raise e).
Proof.
  split; [|split].
  - intros st Hoff. apply verify_chunk_loop_terminates; [exact Hoff|]. unfold len. lia.
  - unfold verify_chunk. destruct (get_hash self (index * 200 - 1)); reflexivity.
  - intros prev_hash e Hhash Hne Hde. unfold verify_chunk. rewrite Hhash, bind_OK.
    destruct data as [|b data'] eqn:Hdata; [congruence|]. rewrite <- Hdata in *.
    assert (Hlen : (0 <? len data) = true).
    { apply Z.ltb_lt. rewrite Hdata. unfold len. simpl. lia. }
    rewrite Hdata at 1. cbn [length verify_chunk_loop cs_offset].
    rewrite Hlen. cbn [negb]. unfold verify_chunk_step. cbn [cs_offset cs_height].
    rewrite Hde. reflexivity.
Qed.

(** ** Offsets, medians and the cap of the target *)

(** X14.  In the trunk file the offsets add up the record sizes: between
    the offsets of two heights lie exactly the records of the heights from
    the first up to the one before the second. *)
Theorem X14_get_offset_trunk_sums_sizes (h1 h2 : Z) :
  0 <= EQUIHASH_FORK_HEIGHT net -> 0 <= h1 <= h2 ->
  get_offset 0 h2 - get_offset 0 h1 = sum_header_sizes h1 h2.
Proof. apply get_offset_trunk_difference. Qed.

Lemma get_median_time_any_height
    (self : Blockchain) (chunk_headers : option chunk_ctx) (x : Z) (hdr : Z -> header) :
  (forall k, k ∈ range (Z.max 0 (x - POW_MEDIAN_BLOCK_SPAN)) (Z.max 1 x) ->
     window_header self chunk_headers k = OK (hdr k)) ->
  get_median_time self x chunk_headers
  = OK (median_of (map (fun k => timestamp (hdr k))
                       (range (Z.max 0 (x - POW_MEDIAN_BLOCK_SPAN)) (Z.max 1 x)))).
Proof.
  intros Hw. unfold get_median_time.
  rewrite (for_each_pure _ _ (fun m k => m ++ [timestamp (hdr k)])).
  2:{ intros k Hk acc. rewrite Hw by exact Hk. reflexivity. }
  rewrite bind_OK, fold_left_snoc_map, app_nil_l.
  apply py_index_median.
  intros Hnil. apply map_eq_nil in Hnil. revert Hnil. apply range_nonempty.
  unfold POW_MEDIAN_BLOCK_SPAN. lia.
Qed.

(** X15.  [get_median_time] returns a median of the timestamps of its
    window: one of the timestamps, with more than half of them (rounded
    down) at or below it and at least half of them (rounded up) at or above
    it.  The window is never empty: at heights 0 and 1 it is the header at
    height 0. *)
Theorem X15_get_median_time_is_median
    (self : Blockchain) (chunk_headers : option chunk_ctx) (x : Z) (hdr : Z -> header) :
  let window := range (Z.max 0 (x - POW_MEDIAN_BLOCK_SPAN)) (Z.max 1 x) in
  let ts := map (fun k => timestamp (hdr k)) window in
  (forall k, k ∈ window -> window_header self chunk_headers k = OK (hdr k)) ->
  exists m,
    get_median_time self x chunk_headers = OK m /\
    m ∈ ts /\
    (1 <= length ts <= 11)%nat /\
    (length ts / 2 < length (filter (fun y : Z => (y <= m)%Z) ts))%nat /\
    (length ts <= length ts / 2 + length (filter (fun y : Z => (m <= y)%Z) ts))%nat.
Proof.
  intros window ts Hw.
  assert (Hne : ts <> []).
  { intros Hnil. apply map_eq_nil in Hnil. revert Hnil. apply range_nonempty.
    unfold POW_MEDIAN_BLOCK_SPAN. lia. }
  exists (median_of ts). split; [apply get_median_time_any_height; exact Hw|].
  split; [apply median_of_elem; exact Hne|].
  split.
  - unfold ts, window, range. rewrite length_map, length_seqZ.
    unfold POW_MEDIAN_BLOCK_SPAN. lia.
  - apply median_of_is_median. exact Hne.
Qed.

Lemma get_target_digishield_cap
    (self : Blockchain) (h : Z) (ctx : option chunk_ctx) (t : num) :
  get_target_digishield self h ctx = OK t -> exists z, t = PyInt z /\ z <= MAX_TARGET.
Proof.
  unfold get_target_digishield. cbv zeta. intros H.
  destruct (for_each _ _ 0) as [e | mean]; [discriminate|]. rewrite bind_OK in H.
  destruct (get_median_time self h ctx) as [e | m1]; [discriminate|]. rewrite bind_OK in H.
  destruct (get_median_time self (h - POW_AVERAGING_WINDOW) ctx) as [e | m2];
    [discriminate|].
  rewrite bind_OK in H.
  destruct (true_div _ _) as [e | q]; [discriminate|]. rewrite bind_OK in H.
  injection H as <-. eexists. split; [reflexivity|].
  match goal with |- context [MAX_TARGET <? ?n] => destruct (Z.ltb_spec MAX_TARGET n) end; lia.
Qed.

Lemma get_target_lwma3_cap
    (self : Blockchain) (h : Z) (ctx : option chunk_ctx) (t : num) :
  get_target_lwma3 self h ctx = OK t -> num_gtb t (PyInt MAX_TARGET) = false.
Proof.
  unfold get_target_lwma3. cbv zeta. intros H.
  destruct (true_div _ 2) as [e | kf]; [discriminate|]. rewrite bind_OK in H.
  destruct (h <? ZAWY_LWMA3_AVERAGING_WINDOW).
  { injection H as <-. reflexivity. }
  match type of H with (let! _ := ?r in _) = _ => destruct r as [e | ts0] end;
    [discriminate|].
  rewrite bind_OK in H.
  destruct (for_each _ _ _) as [e | st]; [discriminate|]. rewrite bind_OK in H.
  destruct (previousDiff st) as [pd|]; [|discriminate].
  destruct (true_div (pd * 150) 100) as [e | hi]; [discriminate|]. rewrite bind_OK in H.
  destruct (true_div (pd * 67) 100) as [e | lo]; [discriminate|]. rewrite bind_OK in H.
  injection H as <-.
  match goal with
  | |- num_gtb (if num_gtb ?n ?m then _ else _) _ = false => destruct (num_gtb n m) eqn:Hcap
  end; [reflexivity | exact Hcap].
Qed.

(** X16.  Whatever [get_target] returns is at most [MAX_TARGET], through
    every rule; below the LWMA fork it is an [int]. *)
Theorem X16_get_target_at_most_MAX_TARGET
    (self : Blockchain) (h : Z) (ctx : option chunk_ctx) (t : num) :
  get_target self h ctx = OK t ->
  num_gtb t (PyInt MAX_TARGET) = false /\
  (h < LWMA_FORK_BLOCK -> exists z, t = PyInt z /\ z <= MAX_TARGET).
Proof.
  unfold get_target. intros H.
  destruct (h <=? POW_AVERAGING_WINDOW).
  { injection H as <-. split; [reflexivity|]. intros _. eexists. split; [reflexivity | lia]. }
  destruct ((EH_EPOCH_1_END - POW_AVERAGING_WINDOW <? h) && (h <=? EH_EPOCH_1_END)).
  { injection H as <-. split; [reflexivity|]. intros _. eexists. split; [reflexivity|].
    unfold MIN_TARGET, MAX_TARGET. lia. }
  destruct (Z.leb_spec LWMA_FORK_BLOCK h) as [Hl | Hd].
  - split; [eapply get_target_lwma3_cap; exact H | lia].
  - destruct (get_target_digishield_cap _ _ _ _ H) as (z & -> & Hz).
    split.
    + unfold num_gtb. cbn [as_float fl_m fl_e]. rewrite Z.min_id, Z.sub_diag.
      change (2 ^ 0) with 1. apply Z.ltb_ge. lia.
    + intros _. exists z. auto.
Qed.

(** ** Checkpoints *)

Lemma get_checkpoints_loop (self : Blockchain) (xs : list Z) :
  forall acc cps,
    for_each xs
      (fun cp index =>
         let! h := get_hash self ((index + 1) * 200 - 1) in
         let! target := get_target self index None in
         OK (cp ++ [(h, target)]))
      acc = OK cps ->
    exists ys,
      cps = acc ++ ys /\
      Forall2 (fun index y => get_hash self ((index + 1) * 200 - 1) = OK (fst y) /\
                              get_target self index None = OK (snd y)) xs ys.
Proof.
  induction xs as [|x xs IH]; intros acc cps H.
  - injection H as <-. exists []. rewrite app_nil_r. split; [reflexivity | constructor].
  - cbn [for_each] in H.
    destruct (get_hash self ((x + 1) * 200 - 1)) as [e | h] eqn:Hh; [discriminate|].
    rewrite bind_OK in H.
    destruct (get_target self x None) as [e | t] eqn:Ht; [discriminate|].
    rewrite !bind_OK in H.
    destruct (IH _ _ H) as (ys & -> & Hys).
    exists ((h, t) :: ys). rewrite <- app_assoc. split; [reflexivity|].
    constructor; [split; assumption | exact Hys].
Qed.

(** X17.  When [get_checkpoints] returns, it returns one pair for each
    whole chunk below the tip; the hash of pair [i] is the hash of the last
    block of chunk [i], and its target is [get_target] at height [i], the
    index of the chunk, so that the target of each of the first 18 chunks
    is [MAX_TARGET]. *)
Theorem X17_get_checkpoints_entries (self : Blockchain) (cps : list (pystr * num)) :
  get_checkpoints self = OK cps ->
  length cps = Z.to_nat (height self / 200) /\
  forall (i : nat) (h : pystr) (t : num),
    cps !! i = Some (h, t) ->
    get_hash self ((Z.of_nat i + 1) * 200 - 1) = OK h /\
    get_target self (Z.of_nat i) None = OK t /\
    ((i <= 17)%nat -> t = PyInt MAX_TARGET).
Proof.
  unfold get_checkpoints. intros H.
  apply get_checkpoints_loop in H. destruct H as (ys & -> & Hys).
  rewrite app_nil_l. split.
  - rewrite <- (Forall2_length _ _ _ Hys). unfold range. rewrite length_seqZ. f_equal. lia.
  - intros i h t Hi.
    destruct (Forall2_lookup_r _ _ _ _ _ Hys Hi) as (x & Hx & Hh & Ht).
    unfold range in Hx. apply lookup_seqZ in Hx. destruct Hx as [-> _].
    cbn [fst snd] in Hh, Ht. rewrite Z.add_0_l in Hh, Ht.
    split; [exact Hh|]. split; [exact Ht|].
    intros Hle. unfold get_target in Ht.
    destruct (Z.leb_spec (Z.of_nat i) POW_AVERAGING_WINDOW) as [_ | Hgt].
    + injection Ht as <-. reflexivity.
    + unfold POW_AVERAGING_WINDOW in Hgt. lia.
Qed.

End Properties.

(** * The properties on the sample inputs *)

Ltac decide_Z :=
  repeat split; vm_compute; first [reflexivity | discriminate].

Ltac each_height k Hk lo n :=
  let Hin := fresh "Hin" in
  assert (Hin : k ∈ seqZ lo n) by (apply elem_of_seqZ; lia);
  vm_compute in Hin; clear Hk;
  repeat (apply elem_of_cons in Hin as [-> | Hin]; [vm_compute; try reflexivity | ]);
  try (apply elem_of_nil in Hin; destruct Hin).

(** The digest instance on the test vectors of the standard. *)
Lemma sha256_test_vectors :
  bh2u (sha256 (ascii_bytes "abc"))
  = str "ba7816bf8f01cfea414140de5dae2223b00361a396177a9cb410ff61f20015ad" /\
  bh2u (sha256 [])
  = str "e3b0c44298fc1c149afbf4c8996fb92427ae41e4649b934ca495991b7852b855" /\
  bh2u (sha256 (ascii_bytes "abcdbcdecdefdefgefghfghighijhijkijkljklmklmnlmnomnopnopq"))
  = str "248d6a61d20638b8e5c026930c3e6039a33ce45964ff2167f6ecedd419db06c1".
Proof. repeat split; vm_compute; reflexivity. Qed.

Lemma C1_target_to_bits_bits_to_target_witness :
  (let! t := bits_to_target 0x1d00ffff in target_to_bits t) = OK 0x1d00ffff.
Proof.
  apply C1_target_to_bits_bits_to_target. decide_Z.
Defined.

Lemma C9_target_to_bits_mod_2_248_witness :
  target_to_bits (2 ^ 255 + 0x1d00ffff)
  = target_to_bits ((2 ^ 255 + 0x1d00ffff) mod 2 ^ 248).
Proof.
  apply (C9_target_to_bits_mod_2_248 (2 ^ 255 + 0x1d00ffff)). decide_Z.
Defined.

(** The first header of a chain forked just above the Equihash fork: the
    closed form places it at offset 0, [get_offset] at
    [266000 * 143 = 38038000]. *)
Lemma get_offset_fork_chain_first_record :
  get_offset (net := sample_net) 266001 266001 = 38038000 /\
  offset_closed_form (net := sample_net) 266001 266001 = 0.
Proof. split; reflexivity. Qed.

(** Across the fork the difference of two offsets is not the sum of the
    record sizes either, for a file that starts above height 0. *)
Lemma get_offset_difference_across_fork :
  get_offset (net := sample_net) 1 266000 - get_offset (net := sample_net) 1 265999
  = 2 * 143 /\
  sum_header_sizes (net := sample_net) 265999 266000 = 143.
Proof. split; reflexivity. Qed.

Lemma C2_get_offset_post_fork_excess_witness :
  get_offset (net := sample_net) 266001 266001
  = offset_closed_form (net := sample_net) 266001 266001 + 266000 * 143.
Proof.
  apply (C2_get_offset_post_fork_excess (net := sample_net) 266001 266001); decide_Z.
Defined.

(** Headers served from an in-flight context on top of an empty store. *)
Lemma read_header_empty_trunk (k : Z) :
  read_header (net := sample_net) empty_trunk k = OK None.
Proof.
  unfold read_header. destruct (k <? 0) eqn:H0; [reflexivity|].
  apply Z.ltb_ge in H0. cbn [forkpoint empty_trunk].
  destruct (Z.ltb_spec k 0); [lia|].
  unfold height. cbn [forkpoint _size empty_trunk].
  destruct (Z.ltb_spec (0 + 0 - 1) k); [reflexivity | lia].
Qed.

Lemma chunk_get_ctx_of (lo n : Z) (f : Z -> header) (k : Z) :
  lo <= k < lo + n -> chunk_get (Some (ctx_of lo n f)) k = OK (f k).
Proof.
  intros Hk. unfold chunk_get, ctx_of. cbn [headers].
  erewrite elem_of_list_to_map_1; [reflexivity | |].
  - rewrite <- list_fmap_compose. unfold compose. cbn [fst].
    rewrite list_fmap_id. apply NoDup_seqZ.
  - apply list_elem_of_fmap. exists k. split; [reflexivity|].
    apply elem_of_seqZ. lia.
Qed.

Lemma in_chunk_ctx_of (lo n : Z) (f : Z -> header) (k : Z) :
  lo <= k < lo + n -> in_chunk (Some (ctx_of lo n f)) k = true.
Proof.
  intros Hk. unfold in_chunk, ctx_of. cbn [empty min_height max_height negb andb].
  destruct (Z.leb_spec lo k); [|lia].
  destruct (Z.leb_spec k (lo + n - 1)); [reflexivity | lia].
Qed.

Lemma window_header_ctx_of (lo n : Z) (f : Z -> header) (k : Z) :
  lo <= k < lo + n ->
  window_header (net := sample_net) empty_trunk (Some (ctx_of lo n f)) k = OK (f k).
Proof.
  intros Hk.
  rewrite (window_header_chunk_fallback (net := sample_net) empty_trunk _ k
             (read_header_empty_trunk k) (in_chunk_ctx_of lo n f k Hk)).
  apply chunk_get_ctx_of. exact Hk.
Qed.


Lemma C4_get_target_digishield_witness :
  get_target (net := sample_net) empty_trunk 28 (Some (ctx_of 0 28 header_b))
  = OK (PyInt 993418304761965558020517621729496093781447201064208870640108380143750181).
Proof.
  rewrite (C4_get_target_digishield (net := sample_net) empty_trunk
             (Some (ctx_of 0 28 header_b)) 28 header_b
             (fun _ => 0x7fffff * 2 ^ 216)).
  - vm_compute. reflexivity.
  - decide_Z.
  - intros [H _]. revert H. decide_Z.
  - decide_Z.
  - decide_Z.
  - intros k Hk. apply window_header_ctx_of. lia.
  - intros k Hk. unfold header_b, sample_header. cbn [timestamp].
    change (2 ^ 32) with 4294967296. lia.
  - intros k Hk. reflexivity.
Defined.

(** C5.  Sixty-one headers at heights 765000..765060 with solve times of
    400 seconds and bits [0x1e7fffff]: [t * sumTarget] exceeds
    [previousDiff * 150 / 100], and [get_target] at 765061 returns that
    bound as computed by the true division, a float
    ([6755398635749376 * 2^187]), not an integer. *)
Theorem C5_get_target_lwma3_returns_float :
  get_target (net := sample_net) empty_trunk 765061
             (Some (ctx_of 765000 61 header_slow))
  = OK (PyFloat (mkFloat 6755398635749376 187)).
Proof. vm_compute. reflexivity. Qed.

(** With solve times of 60 seconds no bound is taken and the result is the
    integer [t * sumTarget]. *)
Lemma get_target_lwma3_steady :
  get_target (net := sample_net) empty_trunk 765061
             (Some (ctx_of 765000 61 header_steady))
  = OK (PyInt 883423427076900496234462052453431574243309629542714078511691846331792000).
Proof. vm_compute. reflexivity. Qed.

Lemma hash_header_a3 :
  hash_header (digest := double_sha256) (Some (header_a 3)) = OK hash_a3.
Proof. vm_compute. reflexivity. Qed.

Lemma C6_verify_header_mainnet_witness :
  fst (verify_header (net := sample_net) (digest := double_sha256)
         (header_a 3) zeros64 MAX_TARGET) = header_a 3 /\
  (raises (snd (verify_header (net := sample_net) (digest := double_sha256)
                  (header_a 3) zeros64 MAX_TARGET)) ->
   snd (verify_header (net := sample_net) (digest := double_sha256)
          (header_a 3) zeros64 MAX_TARGET)
   = Raise (Exception "insufficient proof of work: %s vs target %s")).
Proof.
  destruct (C6_verify_header_mainnet (net := sample_net) (digest := double_sha256)
              (header_a 3) zeros64 MAX_TARGET hash_a3 eq_refl hash_header_a3)
    as (v & _ & Hfst & _).
  split; [exact Hfst|]. intros _. vm_compute. reflexivity.
Defined.

(** A header without [prev_block_hash], checked against 64 zeros and the
    widest target: [h.prev_block_hash] is not [prev_hash], yet no check fails
    and the call returns normally, having stored 64 zeros in the header. *)
Lemma C6_verify_header_counterexample :
  prev_block_hash header_no_prev <> Some zeros64 /\
  verify_header (net := sample_net) (digest := double_sha256)
    header_no_prev zeros64 (2 ^ 256 - 1)
  = (set_prev_block_hash header_no_prev zeros64, OK tt) /\
  set_prev_block_hash header_no_prev zeros64 <> header_no_prev.
Proof.
  split; [discriminate|]. split; [vm_compute; reflexivity | discriminate].
Qed.

(** The parent stores a header at height 3; the fork does not reach it. *)
Lemma C7_read_header_below_forkpoint_witness :
  read_header (net := sample_net) fork_at_5 3 = Raise TypeError /\
  parent fork_at_5 = Some trunk_a /\
  read_header (net := sample_net) trunk_a 3 = OK (Some (header_a 3)).
Proof.
  split; [|split].
  - apply (C7_read_header_below_forkpoint (net := sample_net) fork_at_5 3). decide_Z.
  - reflexivity.
  - vm_compute. reflexivity.
Defined.

Lemma read_header_trunk_a (k : Z) :
  0 <= k < 18 -> read_header (net := sample_net) trunk_a k = OK (Some (header_a k)).
Proof. intros Hk. each_height k Hk 0 18. Qed.

Lemma get_target_same_window_sample :
  get_target (net := sample_net) empty_trunk 18 (Some (ctx_of 0 18 header_a))
  = get_target (net := sample_net) trunk_a 18 None.
Proof.
  apply (proj2 (get_target_same_window (net := sample_net)
                  empty_trunk trunk_a (Some (ctx_of 0 18 header_a)) None 18 header_a)).
  - intros k Hk. change (0 <= k < 18) in Hk.
    split; [apply read_header_empty_trunk|].
    split; [apply in_chunk_ctx_of | apply chunk_get_ctx_of]; lia.
  - intros k Hk. change (0 <= k < 18) in Hk.
    split; [apply read_header_trunk_a; exact Hk | reflexivity].
Qed.

(** The store holds [header_a] at heights 0..17 and the in-flight context,
    which covers the same heights, holds [header_b]: the scan at height 17
    takes the stored header, and the target at 18 is the one of the stored
    headers, with or without the context. *)
Lemma C8_get_target_scans_read_store_first_witness :
  window_header (net := sample_net) trunk_a (Some (ctx_of 0 18 header_b)) 17
  = OK (header_a 17) /\
  get_target (net := sample_net) trunk_a 18 (Some (ctx_of 0 18 header_b))
  = get_target (net := sample_net) trunk_a 18 None.
Proof.
  destruct (C8_get_target_scans_read_store_first (net := sample_net)
              trunk_a trunk_a (Some (ctx_of 0 18 header_b)) 18 header_a)
    as (Hscan & Hsame & _).
  split.
  - apply Hscan. apply read_header_trunk_a. lia.
  - apply Hsame.
    + intros k Hk. change (0 <= k < 18) in Hk. apply read_header_trunk_a. exact Hk.
    + intros Hl. unfold LWMA_FORK_BLOCK in Hl. lia.
Defined.

(** The same window [header_b] at heights 0..17, served from the in-flight
    context in both runs: over an empty store the target at 18 is computed
    from it, over a store that holds other headers at those heights it is
    computed from the stored ones, and the two targets differ. *)
Lemma get_target_context_window_not_used :
  in_chunk (Some (ctx_of 0 18 header_b)) 17 = true /\
  chunk_get (Some (ctx_of 0 18 header_b)) 17 = OK (header_b 17) /\
  window_header (net := sample_net) trunk_a (Some (ctx_of 0 18 header_b)) 17
  = OK (header_a 17) /\
  header_a 17 <> header_b 17 /\
  get_target (net := sample_net) trunk_a 18 (Some (ctx_of 0 18 header_b))
  = get_target (net := sample_net) trunk_a 18 None /\
  get_target (net := sample_net) trunk_a 18 (Some (ctx_of 0 18 header_b))
  <> get_target (net := sample_net) empty_trunk 18 (Some (ctx_of 0 18 header_b)).
Proof.
  repeat split; try (vm_compute; reflexivity); vm_compute; discriminate.
Qed.

Lemma C10_check_hash_returns_bool_witness :
  (exists b, check_hash (net := sample_net) (digest := double_sha256)
               fork_at_5 3 zeros64 = OK b) /\
  (exists b, check_header (net := sample_net) (digest := double_sha256)
               trunk_a (header_a 3) = OK b).
Proof.
  destruct (C10_check_hash_returns_bool (net := sample_net) (digest := double_sha256)
              fork_at_5 3 zeros64 (header_a 3)) as (Hhash & _).
  destruct (C10_check_hash_returns_bool (net := sample_net) (digest := double_sha256)
              trunk_a 3 zeros64 (header_a 3)) as (_ & Hheader).
  split.
  - destruct (Hhash eq_refl) as (b & Hb & _). exists b. exact Hb.
  - apply Hheader. exists hash_a3. exact hash_header_a3.
Defined.

(** A header dict whose [merkle_root] is not hexadecimal: [hash_header]
    raises before [check_hash] is entered, and [check_header] lets the
    exception through. *)
Lemma C10_check_header_counterexample :
  check_header (net := sample_net) (digest := double_sha256) trunk_a header_bad_hex
  = Raise ValueError.
Proof. vm_compute. reflexivity. Qed.

(** * The further properties on the sample inputs *)

Ltac by_eval := vm_compute; first [reflexivity | discriminate].

Lemma sample_fork_height_pos : 0 < EQUIHASH_FORK_HEIGHT sample_net.
Proof. reflexivity. Qed.

Lemma sample_hdr_len_pos : 0 < HDR_LEN sample_net.
Proof. reflexivity. Qed.

Lemma sample_hdr_len_fork_pos : 0 < HDR_LEN_FORK sample_net.
Proof. reflexivity. Qed.

Lemma trunk_with_trunk_a : trunk_with (net := sample_net) trunk_a file_a.
Proof. unfold trunk_with. repeat apply conj; by_eval. Qed.

(** The sample headers below the Equihash fork are well formed. *)
Lemma wf_sample_header (ts b k : Z) :
  0 <= ts < 2 ^ 32 -> 0 <= b < 2 ^ 32 -> k < 266000 ->
  wf_header (net := sample_net) (sample_header ts b k).
Proof.
  intros Hts Hb Hk. unfold wf_header, sample_header.
  cbn [version timestamp bits prev_block_hash merkle_root reserved_hash nonce sol_size
       solution block_height].
  assert (Hsize : get_header_size (net := sample_net) k = 143).
  { unfold get_header_size, is_post_equihash_fork. cbn [EQUIHASH_FORK_HEIGHT sample_net].
    destruct (Z.leb_spec 266000 k); [lia | reflexivity]. }
  rewrite Hsize.
  assert (Hz : hex_of 32 zeros64) by (exists (replicate 32 x00); split; by_eval).
  repeat apply conj; try lia; try exact Hz.
  - exists zeros64. split; [reflexivity | exact Hz].
  - exists (replicate 32 x11). split; by_eval.
  - exists (replicate 3 x00). split; by_eval.
  - exists []. split; reflexivity.
Qed.

Lemma wf_header_a18 : wf_header (net := sample_net) (header_a 18).
Proof. apply wf_sample_header; [| |reflexivity]; split; by_eval. Qed.

Lemma window_header_trunk_a (k : Z) :
  0 <= k < 18 -> window_header (net := sample_net) trunk_a None k = OK (header_a k).
Proof. intros Hk. each_height k Hk 0 18. Qed.

Lemma X1_serialize_deserialize_witness :
  exists hd,
    deserialize_header (net := sample_net) record_a3 3 = OK hd /\
    block_height hd = 3 /\
    (let! s := serialize_header hd in bfh s) = OK record_a3.
Proof. apply (X1_serialize_deserialize (net := sample_net) record_a3 3); by_eval. Defined.

Lemma X2_hash_header_of_record_witness :
  hash_header (digest := double_sha256) (Some (header_a 3))
  = hash_raw_header (digest := double_sha256) (bh2u record_a3) /\
  hash_header (digest := double_sha256) (Some (header_a 3))
  = OK (hash_encode (@sha256d double_sha256 record_a3)).
Proof.
  apply (X2_hash_header_of_record (net := sample_net) (digest := double_sha256)
           record_a3 3 (header_a 3)); by_eval.
Defined.

Lemma X4_deserialize_serialize_witness :
  exists raw,
    (let! s := serialize_header (header_a 18) in bfh s) = OK raw /\
    len raw = get_header_size (net := sample_net) (block_height (header_a 18)) /\
    deserialize_header (net := sample_net) raw (block_height (header_a 18))
    = OK (header_a 18).
Proof.
  apply (X4_deserialize_serialize (net := sample_net) (header_a 18)).
  apply wf_header_a18.
Defined.

(** A file that ends 1000 bytes into the record of height 266005. *)
Lemma X5_calculate_size_get_offset_witness :
  calculate_size (net := sample_net) 266004 (get_offset (net := sample_net) 0 266005 + 1000)
  = OK 266005.
Proof.
  apply (X5_calculate_size_get_offset (net := sample_net)
           sample_fork_height_pos sample_hdr_len_pos sample_hdr_len_fork_pos
           266004 266005 1000).
  - by_eval.
  - split; by_eval.
  - right. by_eval.
Defined.

Lemma X6_write_append_read_witness :
  exists self',
    write (net := sample_net) trunk_a record_a18 (get_offset (net := sample_net) 0 18) true
    = OK self' /\
    _size self' = 19 /\
    headers_file self' = File (file_a ++ record_a18).
Proof.
  destruct (X6_write_append_read (net := sample_net)
              sample_fork_height_pos sample_hdr_len_pos sample_hdr_len_fork_pos
              trunk_a file_a record_a18) as (self' & Hw & Hs & Hf & _).
  - apply trunk_with_trunk_a.
  - by_eval.
  - exists self'. split; [exact Hw|]. split; [exact Hs | exact Hf].
Defined.

Lemma X7_write_then_read_header_witness :
  exists self',
    write (net := sample_net) trunk_a record_a18 (get_offset (net := sample_net) 0 18) true
    = OK self' /\
    read_header (net := sample_net) self' 18 = OK (Some (header_a 18)) /\
    header_at_tip (net := sample_net) self' = OK (Some (header_a 18)).
Proof.
  destruct (X7_write_then_read_header (net := sample_net)
              sample_fork_height_pos sample_hdr_len_pos sample_hdr_len_fork_pos
              trunk_a file_a (header_a 18)) as (raw & self' & Hser & Hw & _ & Hread).
  - apply trunk_with_trunk_a.
  - apply wf_header_a18.
  - reflexivity.
  - assert (Hraw : (let! s := serialize_header (header_a 18) in bfh s) = OK record_a18)
      by by_eval.
    rewrite Hraw in Hser. injection Hser as <-.
    exists self'. split; [exact Hw|]. apply Hread. by_eval.
Defined.

Lemma X8_can_connect_true_witness :
  exists t v,
    get_target (net := sample_net) trunk_1 1 None = OK (PyInt t) /\
    target_to_bits t = OK (bits header_c1) /\
    int_of_0x hash_c1 = OK v /\ v <= t.
Proof.
  destruct (X8_can_connect_true (net := sample_net) (digest := double_sha256)
              trunk_1 header_c1 true (Some header_c1)) as (_ & _ & H); [by_eval|].
  assert (Hn : block_height header_c1 <> 0) by by_eval.
  destruct (H Hn) as (prev & target & hx & _ & _ & Ht & Hhx & Hmain).
  destruct (Hmain eq_refl) as (t & v & -> & Hb & Hv & Hle).
  assert (Hc1 : hash_header (digest := double_sha256) (Some header_c1) = OK hash_c1)
    by by_eval.
  rewrite Hc1 in Hhx. injection Hhx as <-.
  exists t, v. repeat split; assumption.
Defined.

(** The stored headers have bits that [bits_to_target] refuses:
    [get_target] raises, and so does [can_connect]. *)
Lemma X9_can_connect_propagates_witness :
  can_connect (net := sample_net) (digest := double_sha256) trunk_z (Some header_z18) true
  = (Some header_z18, Raise (Exception "First part of bits should be in [0x03, 0x1f]")).
Proof.
  refine (proj2 (X9_can_connect_propagates (net := sample_net) (digest := double_sha256)
                   trunk_z header_z18 true hash_z17
                   (Exception "First part of bits should be in [0x03, 0x1f]")
                   _ _ _ _ _)).
  - by_eval.
  - intros _. by_eval.
  - by_eval.
  - reflexivity.
  - by_eval.
Defined.

(** Two headers that follow each other from height 0. *)
Lemma X11_verify_chunk_accepts_linked_records_witness :
  exists hs,
    linked (digest := double_sha256) zeros64 hs /\
    len chunk_m = sum_header_sizes (net := sample_net) 0 (0 + Z.of_nat (length hs)).
Proof.
  destruct (X11_verify_chunk_accepts_linked_records
              (net := sample_net) (digest := double_sha256) empty_trunk 0 chunk_m)
    as (prev & hs & Hp & Hl & Hlen & _); [by_eval|].
  assert (Hz : get_hash (net := sample_net) (digest := double_sha256) empty_trunk (0 * 200 - 1)
               = OK zeros64) by by_eval.
  rewrite Hz in Hp. injection Hp as <-.
  exists hs. split; [exact Hl | exact Hlen].
Defined.

Lemma X13_written_header_is_recognised_witness :
  check_header (net := sample_net) (digest := double_sha256) trunk_a19 (header_a 18)
  = OK true.
Proof.
  destruct (X13_written_header_is_recognised (net := sample_net) (digest := double_sha256)
              sample_fork_height_pos sample_hdr_len_pos sample_hdr_len_fork_pos
              trunk_a trunk_a19 file_a record_a18 (header_a 18)) as (_ & _ & H).
  - apply trunk_with_trunk_a.
  - apply wf_header_a18.
  - reflexivity.
  - by_eval.
  - by_eval.
  - by_eval.
  - by_eval.
  - by_eval.
  - by_eval.
  - exact H.
Defined.

(** Five records across the Equihash fork. *)
Lemma X14_get_offset_trunk_sums_sizes_witness :
  get_offset (net := sample_net) 0 266003 - get_offset (net := sample_net) 0 265998
  = sum_header_sizes (net := sample_net) 265998 266003.
Proof.
  apply (X14_get_offset_trunk_sums_sizes (net := sample_net) 265998 266003).
  - by_eval.
  - split; by_eval.
Defined.

Lemma X15_get_median_time_is_median_witness :
  exists m,
    get_median_time (net := sample_net) trunk_a 18 None = OK m /\
    m ∈ map (fun k => timestamp (header_a k)) (range 7 18).
Proof.
  destruct (X15_get_median_time_is_median (net := sample_net) trunk_a None 18 header_a)
    as (m & Hm & Hin & _).
  - intros k Hk. apply window_header_trunk_a.
    apply elem_of_range in Hk. unfold POW_MEDIAN_BLOCK_SPAN in Hk. lia.
  - exists m. split; [exact Hm | exact Hin].
Defined.

Lemma X16_get_target_at_most_MAX_TARGET_witness :
  exists z, get_target (net := sample_net) trunk_a 18 None = OK (PyInt z) /\ z <= MAX_TARGET.
Proof.
  assert (Ht : get_target (net := sample_net) trunk_a 18 None
               = OK (PyInt 13095429737818612817936395240477653672651756542429607865253282587118156145))
    by by_eval.
  destruct (X16_get_target_at_most_MAX_TARGET (net := sample_net) trunk_a 18 None _ Ht)
    as [_ H].
  destruct (H eq_refl) as (z & Hz & Hle).
  exists z. split; [rewrite Ht, Hz; reflexivity | exact Hle].
Defined.

(** A chain of 201 headers has one whole chunk below its tip. *)
Lemma X17_get_checkpoints_entries_witness :
  get_hash (net := sample_net) (digest := double_sha256) trunk_201 199
  = OK (str "b40f3c5bc5a2b2ffe9f1301247600bebede366c3d61d865647994715c27f991a") /\
  get_target (net := sample_net) trunk_201 0 None = OK (PyInt MAX_TARGET).
Proof.
  assert (Hc : get_checkpoints (net := sample_net) (digest := double_sha256) trunk_201
               = OK [(str "b40f3c5bc5a2b2ffe9f1301247600bebede366c3d61d865647994715c27f991a",
                      PyInt MAX_TARGET)]) by by_eval.
  destruct (X17_get_checkpoints_entries (net := sample_net) (digest := double_sha256)
              trunk_201 _ Hc) as [_ H].
  destruct (H 0%nat _ _ eq_refl) as (Hh & Ht & _).
  split; [exact Hh | exact Ht].
Defined.

Lemma X18_target_to_bits_rounds_down_witness :
  exists b t',
    target_to_bits MAX_TARGET = OK b /\ canonical_bits b /\ bits_to_target b = OK t' /\
    t' <= MAX_TARGET /\ (MAX_TARGET - t') * 32768 < t'.
Proof. apply (X18_target_to_bits_rounds_down MAX_TARGET). split; by_eval. Defined.
